(** * Attendance import: a shallow embedding of
      [src/app/api/import/attendance/route.ts]

    The handler [POST] parses a Teams attendance export and reconciles it
    into the Module / Session / Student / Attendance tables.  This file
    embeds the handler and its helpers and proves the properties the
    specification states about them.

    Modelling conventions.
    - A JavaScript string is a [string]: a sequence of code units; the
      development covers the code units U+0000..U+00FF, on which
      [trim], [toLowerCase] and the regular expressions below are exact.
    - A JavaScript number is a binary64 [float] (Rocq's primitive floats),
      so arithmetic, comparison and rounding are the runtime's own.
    - A [Date] is its time value, an integer count of milliseconds.
    - The Prisma client is a store of four tables, each a finite map keyed
      by the table's unique constraint; generated ids come from a counter.
      Storage failures (the handler's catch-all 500 path) are outside the
      model: every upsert succeeds. *)

From Stdlib Require Import ZArith QArith Qround Lia Bool Ascii String List.
From Stdlib Require Import Uint63 Floats.
From stdpp Require Import gmap strings list pretty.

Local Open Scope Z_scope.
Local Open Scope string_scope.

(** ** JavaScript strings *)

Module JsString.

Definition code (c : ascii) : N := N_of_ascii c.

(** WhiteSpace and LineTerminator code units (ECMA-262, 12.2 and 12.3)
    below U+0100: TAB, LF, VT, FF, CR, SP, NBSP. *)
Definition is_space (c : ascii) : bool :=
  let n := code c in
  ((9 <=? n) && (n <=? 13) || (n =? 32) || (n =? 160))%N.

Definition is_digit (c : ascii) : bool :=
  let n := code c in ((48 <=? n) && (n <=? 57))%N.

Definition is_upper (c : ascii) : bool :=
  let n := code c in ((65 <=? n) && (n <=? 90))%N.

Definition is_lower (c : ascii) : bool :=
  let n := code c in ((97 <=? n) && (n <=? 122))%N.

(** Latin-1 letters with a one-to-one case pair inside the block. *)
Definition is_upper_l1 (c : ascii) : bool :=
  let n := code c in ((192 <=? n) && (n <=? 222) && negb (n =? 215))%N.

Definition is_lower_l1 (c : ascii) : bool :=
  let n := code c in ((224 <=? n) && (n <=? 254) && negb (n =? 247))%N.

Definition lower_char (c : ascii) : ascii :=
  if is_upper c || is_upper_l1 c then ascii_of_N (code c + 32) else c.

Definition upper_char (c : ascii) : ascii :=
  if is_lower c || is_lower_l1 c then ascii_of_N (code c - 32) else c.

(** [String.prototype.toLowerCase]. *)
Fixpoint toLowerCase (s : string) : string :=
  match s with
  | EmptyString => EmptyString
  | String c r => String (lower_char c) (toLowerCase r)
  end.

(** [String.prototype.toUpperCase]; the sharp s expands to two letters.  The
    capitals of U+00B5 and U+00FF lie beyond the 8-bit code units of these
    strings: the two characters are kept as they are. *)
Fixpoint toUpperCase (s : string) : string :=
  match s with
  | EmptyString => EmptyString
  | String c r =>
      if (code c =? 223)%N then String "S" (String "S" (toUpperCase r))
      else String (upper_char c) (toUpperCase r)
  end.

Fixpoint trimStart (s : string) : string :=
  match s with
  | EmptyString => EmptyString
  | String c r => if is_space c then trimStart r else s
  end.

(** Drops trailing white space: a character is kept when it is not white
    space or when something is kept after it. *)
Fixpoint trimEnd (s : string) : string :=
  match s with
  | EmptyString => EmptyString
  | String c r =>
      match trimEnd r with
      | EmptyString => if is_space c then EmptyString else String c EmptyString
      | r' => String c r'
      end
  end.

(** [String.prototype.trim]. *)
Definition trim (s : string) : string := trimEnd (trimStart s).

(** [String.prototype.startsWith]. *)
Fixpoint startsWith (s p : string) : bool :=
  match p, s with
  | EmptyString, _ => true
  | String a p', String b s' => if Ascii.eqb a b then startsWith s' p' else false
  | String _ _, EmptyString => false
  end.

(** [String.prototype.includes]. *)
Fixpoint includes (s p : string) : bool :=
  startsWith s p ||
  match s with
  | EmptyString => false
  | String _ r => includes r p
  end.

(** [String.prototype.endsWith]. *)
Fixpoint endsWith (s p : string) : bool :=
  String.eqb s p ||
  match s with
  | EmptyString => false
  | String _ r => endsWith r p
  end.

(** [s.split(sep)] for a one-character separator: never empty. *)
Fixpoint split (sep : ascii) (s : string) : list string :=
  match s with
  | EmptyString => [EmptyString]
  | String c r =>
      if Ascii.eqb c sep then EmptyString :: split sep r
      else match split sep r with
           | f :: fs => String c f :: fs
           | [] => [String c EmptyString]
           end
  end.

(** A string in a boolean context: the empty string is falsy. *)
Definition truthy (s : string) : bool :=
  match s with EmptyString => false | _ => true end.

(** [s || null] *)
Definition or_null (s : string) : option string :=
  if truthy s then Some s else None.

End JsString.

Import JsString.

Definition TAB : ascii := ascii_of_N 9.
Definition LF : ascii := ascii_of_N 10.
Definition CR : ascii := ascii_of_N 13.

(** ** Regular expressions

    The handler's regular expressions use character classes, greedy
    bounded repetition of a class, capture groups, the anchors [^] and
    [$] (no [m] flag), the word boundary [\b] and the [i] flag.  The
    matcher follows ECMA-262's backtracking semantics: a matcher takes the
    current position and a continuation, and a greedy repetition tries the
    longer match first. *)

Module Regex.

Inductive regex : Type :=
| Eps
| Chr (p : ascii -> bool)
| Seq (r1 r2 : regex)
| Rep (lo : nat) (hi : option nat) (p : ascii -> bool)
| Grp (r : regex)
| Bol
| Eol
| WordB.

(** A position in the input: the characters before it (nearest first), the
    characters after it, and the groups captured so far, in closing order. *)
Record rstate : Type := RState {
  before : list ascii;
  after : list ascii;
  caps : list string
}.

Definition cont : Type := rstate -> option rstate.

(** [\w] *)
Definition is_word (c : ascii) : bool :=
  is_upper c || is_lower c || is_digit c || (code c =? 95)%N.

Definition at_word_boundary (st : rstate) : bool :=
  let a := match before st with c :: _ => is_word c | [] => false end in
  let b := match after st with c :: _ => is_word c | [] => false end in
  xorb a b.

(** The text consumed between an earlier position and a later one, each
    given by the characters before it. *)
Definition consumed (bef0 bef : list ascii) : string :=
  string_of_list_ascii (rev (take (length bef - length bef0) bef)).

Definition hi_pred (hi : option nat) : option nat :=
  match hi with Some n => Some (Nat.pred n) | None => None end.

Definition hi_zero (hi : option nat) : bool :=
  match hi with Some O => true | _ => false end.

(** Greedy [p{lo,hi}]: take one more character when allowed, and fall back
    to stopping here when the rest of the pattern fails. *)
Fixpoint rep (p : ascii -> bool) (lo : nat) (hi : option nat)
    (bef aft : list ascii) (cs : list string) (k : cont) {struct aft}
  : option rstate :=
  let stop := if Nat.eqb lo 0 then k (RState bef aft cs) else None in
  if hi_zero hi then stop
  else match aft with
       | c :: aft' =>
           if p c then
             match rep p (Nat.pred lo) (hi_pred hi) (c :: bef) aft' cs k with
             | Some r => Some r
             | None => stop
             end
           else stop
       | [] => stop
       end.

Fixpoint rmatch (r : regex) (st : rstate) (k : cont) : option rstate :=
  match r with
  | Eps => k st
  | Chr p =>
      match after st with
      | c :: aft' => if p c then k (RState (c :: before st) aft' (caps st)) else None
      | [] => None
      end
  | Seq r1 r2 => rmatch r1 st (fun st' => rmatch r2 st' k)
  | Rep lo hi p => rep p lo hi (before st) (after st) (caps st) k
  | Grp r1 =>
      rmatch r1 st (fun st' =>
        k (RState (before st') (after st') (caps st' ++ [consumed (before st) (before st')])))
  | Bol => match before st with [] => k st | _ => None end
  | Eol => match after st with [] => k st | _ => None end
  | WordB => if at_word_boundary st then k st else None
  end.

(** The result of [RegExp.prototype.exec]: the index of the match, the
    matched text [m[0]] and the captures [m[1]], [m[2]], ... *)
Record rmatch_result : Type := MatchResult {
  m_index : nat;
  m_text : string;
  m_groups : list string
}.

(** Try each start position from left to right. *)
Fixpoint exec_from (r : regex) (bef aft : list ascii) : option rmatch_result :=
  let st0 := RState bef aft [] in
  match rmatch r st0 Some with
  | Some st => Some (MatchResult (length bef) (consumed bef (before st)) (caps st))
  | None =>
      match aft with
      | c :: aft' => exec_from r (c :: bef) aft'
      | [] => None
      end
  end.

(** [s.match(r)] for a regular expression without the [g] flag. *)
Definition exec (r : regex) (s : string) : option rmatch_result :=
  exec_from r [] (list_ascii_of_string s).

(** [r.test(s)] *)
Definition test (r : regex) (s : string) : bool :=
  match exec r s with Some _ => true | None => false end.

(** [m[i]] for [i >= 1]. *)
Definition group (m : rmatch_result) (i : nat) : string :=
  nth (Nat.pred i) (m_groups m) EmptyString.

(** *** Pattern syntax *)

(** Canonicalize of ECMA-262 22.2.5.6 for a pattern without the [u] flag. *)
Definition canon (c : ascii) : ascii :=
  if (code c =? 223)%N then c else upper_char c.

Definition lit (c : ascii) : regex := Chr (Ascii.eqb c).
Definition liti (c : ascii) : regex := Chr (fun x => Ascii.eqb (canon x) (canon c)).

Fixpoint lits (s : string) : regex :=
  match s with
  | EmptyString => Eps
  | String c r => Seq (lit c) (lits r)
  end.

Fixpoint litsi (s : string) : regex :=
  match s with
  | EmptyString => Eps
  | String c r => Seq (liti c) (litsi r)
  end.

(** [\d], [\s] and [[A-Z]] under the [i] flag. *)
Definition digit : ascii -> bool := is_digit.
Definition space : ascii -> bool := is_space.
Definition upper_i : ascii -> bool := fun x => is_upper (canon x).

Definition star (p : ascii -> bool) : regex := Rep 0 None p.
Definition plus (p : ascii -> bool) : regex := Rep 1 None p.
Definition opt (p : ascii -> bool) : regex := Rep 0 (Some 1%nat) p.
Definition times (n : nat) (p : ascii -> bool) : regex := Rep n (Some n) p.

End Regex.

Declare Scope regex_scope.
Delimit Scope regex_scope with re.
Infix "·" := Regex.Seq (at level 41, right associativity) : regex_scope.

(** ** JavaScript numbers *)

Module JsNumber.

(** The binary64 value nearest to an integer (ties to even). *)
Definition of_Z (n : Z) : float :=
  SF2Prim (binary_normalize prec emax n 0 false).

(** The binary64 value nearest to [m * 2^e / d] for [m, d > 0]: the
    quotient is computed with more than the format's precision and a
    sticky bit records an inexact division. *)
Definition of_ratio (m d : Z) : float :=
  let s := Z.max 0 (70 + Z.log2 d - Z.log2 m) in
  let n := m * 2 ^ s in
  let q := n / d in
  let sticky := if (n mod d =? 0)%Z then 0 else 1 in
  SF2Prim (binary_normalize prec emax (2 * q + sticky) (- s - 1) false).

Definition num_digits (n : Z) : Z := Z.log2 n * 1233 / 4096 + 1.

(** The binary64 value of the decimal [d * 10^e], [d >= 0], with sign. *)
Definition of_decimal (neg : bool) (d e : Z) : float :=
  let sign (x : float) := if neg then (- x)%float else x in
  if (d =? 0)%Z then sign zero
  else if (310 <? num_digits d + e)%Z then sign infinity
  else if (num_digits d + e <? -330)%Z then sign zero
  else if (0 <=? e)%Z then sign (of_Z (d * 10 ^ e))
  else sign (of_ratio d (10 ^ (- e))).

(** [Math.round]: the nearest integer, ties towards plus infinity; a
    result of zero keeps the sign of a negative argument.  A finite
    non-zero [x] is [r * 2^e] with [1/2 <= |r| < 1], and [|r|] is
    [m * 2^-53] for the 53-bit integer [m]: from [e >= 53] on [x] is an
    integer, below [e = 0] it rounds to zero, and in between the nearest
    integer is [m / 2^k] rounded, with [k = 53 - e]. *)
Definition Math_round (x : float) : float :=
  if is_nan x || is_infinity x || is_zero x then x
  else
    let '(r, e) := Z.frexp x in
    let neg := get_sign x in
    let sign (y : float) := if neg then (- y)%float else y in
    if (53 <=? e)%Z then x
    else if (e <? 0)%Z then sign zero
    else
      let m := normfr_mantissa r in
      let k := Uint63Axioms.of_Z (53 - e) in
      let half := PrimInt63.lsl 1%uint63 (PrimInt63.sub k 1%uint63) in
      let up := PrimInt63.add m half in
      let n := PrimInt63.lsr (if neg then PrimInt63.sub up 1%uint63 else up) k in
      sign (of_uint63 n).

(** A number in a boolean context: zero and NaN are falsy. *)
Definition truthy (x : float) : bool := negb (is_zero x || is_nan x).

(** *** [Number(string)]: StringToNumber of ECMA-262 7.1.4.1.1 *)

Definition digit_val (c : ascii) : Z := Z.of_N (code c) - 48.

Definition hex_val (c : ascii) : option Z :=
  let n := Z.of_N (code c) in
  if is_digit c then Some (n - 48)
  else if (65 <=? n)%Z && (n <=? 70)%Z then Some (n - 55)
  else if (97 <=? n)%Z && (n <=? 102)%Z then Some (n - 87)
  else None.

Fixpoint span_digits (l : list ascii) : list ascii * list ascii :=
  match l with
  | c :: r =>
      if is_digit c then let '(ds, rest) := span_digits r in (c :: ds, rest)
      else ([], l)
  | [] => ([], [])
  end.

Definition digits_val (ds : list ascii) : Z :=
  fold_left (fun a c => 10 * a + digit_val c) ds 0.

(** The digits of a literal in base [b]: every character must be a digit
    of that base, and there must be one at least. *)
Fixpoint radix_val (b : Z) (acc : Z) (l : list ascii) : option Z :=
  match l with
  | [] => Some acc
  | c :: r =>
      match hex_val c with
      | Some d => if (d <? b)%Z then radix_val b (b * acc + d) r else None
      | None => None
      end
  end.

Definition radix_literal (b : Z) (l : list ascii) : float :=
  match l with
  | [] => nan
  | _ => match radix_val b 0 l with Some n => of_Z n | None => nan end
  end.

(** ExponentPart: [e] or [E], an optional sign, digits to the end. *)
Definition exponent_part (l : list ascii) : option Z :=
  match l with
  | [] => Some 0
  | c :: r =>
      if Ascii.eqb c "e" || Ascii.eqb c "E" then
        let '(neg, r') :=
          match r with
          | s :: r' =>
              if Ascii.eqb s "-" then (true, r')
              else if Ascii.eqb s "+" then (false, r') else (false, r)
          | [] => (false, r)
          end in
        match span_digits r' with
        | ((_ :: _) as ds, []) => Some (if neg then - digits_val ds else digits_val ds)
        | _ => None
        end
      else None
  end.

(** StrUnsignedDecimalLiteral, with the sign already read. *)
Definition unsigned_decimal (neg : bool) (l : list ascii) : float :=
  if String.eqb (string_of_list_ascii l) "Infinity" then
    (if neg then neg_infinity else infinity)
  else
    let '(ip, r1) := span_digits l in
    let '(fp, r2, dot) :=
      match r1 with
      | c :: r =>
          if Ascii.eqb c "." then let '(fp, r2) := span_digits r in (fp, r2, true)
          else ([], r1, false)
      | [] => ([], r1, false)
      end in
    match ip, fp with
    | [], [] => nan
    | _, _ =>
        match exponent_part r2 with
        | Some ex =>
            of_decimal neg (digits_val (ip ++ fp)) (ex - Z.of_nat (length fp))
        | None => nan
        end
    end.

Definition string_to_number (l : list ascii) : float :=
  match l with
  | [] => zero
  | c0 :: c1 :: r =>
      if Ascii.eqb c0 "0" && (Ascii.eqb c1 "x" || Ascii.eqb c1 "X") then radix_literal 16 r
      else if Ascii.eqb c0 "0" && (Ascii.eqb c1 "o" || Ascii.eqb c1 "O") then radix_literal 8 r
      else if Ascii.eqb c0 "0" && (Ascii.eqb c1 "b" || Ascii.eqb c1 "B") then radix_literal 2 r
      else if Ascii.eqb c0 "-" then unsigned_decimal true (c1 :: r)
      else if Ascii.eqb c0 "+" then unsigned_decimal false (c1 :: r)
      else unsigned_decimal false l
  | _ => unsigned_decimal false l
  end.

(** [Number(s)] for a string [s]. *)
Definition Number (s : string) : float :=
  string_to_number (list_ascii_of_string (trim s)).

(** *** [Number::toString] of ECMA-262 6.1.6.1.20

    For a finite [x > 0] the digits [s] (there are [k] of them) and the
    exponent [n] are such that [s * 10^(n - k)] converts back to [x], with
    [k] as small as possible and, among the candidates, the one nearest to
    [x]. *)

Fixpoint dec_digits (fuel : nat) (n : Z) (acc : string) : string :=
  match fuel with
  | O => acc
  | S f =>
      let acc' := String (ascii_of_N (Z.to_N (48 + n mod 10))) acc in
      if (n <? 10)%Z then acc' else dec_digits f (n / 10) acc'
  end.

(** The decimal numeral of a non-negative integer. *)
Definition Z_to_string (n : Z) : string :=
  dec_digits (S (Z.to_nat (Z.log2 n))) n EmptyString.

(** [a / b] against [10^n]. *)
Definition ge_pow10 (a b n : Z) : bool :=
  if (0 <=? n)%Z then (10 ^ n * b <=? a)%Z else (b <=? a * 10 ^ (- n))%Z.

(** The [n] with [10^(n-1) <= a/b < 10^n], near the estimate [est]. *)
Fixpoint find_exp (fuel : nat) (a b n : Z) : Z :=
  match fuel with
  | O => n
  | S f =>
      if negb (ge_pow10 a b (n - 1)) then find_exp f a b (n - 1)
      else if ge_pow10 a b n then find_exp f a b (n + 1)
      else n
  end.

(** [floor (a/b * 10^j)] *)
Definition scale_floor (a b j : Z) : Z :=
  if (0 <=? j)%Z then (a * 10 ^ j) / b else a / (b * 10 ^ (- j)).

(** [|s * 10^(-j) - a/b|] for two candidates [s1 < s2], compared. *)
Definition nearer_low (a b j s1 s2 : Z) : bool :=
  (* s1 is at least as near as s2 to a/b * 10^j; on a tie the even one *)
  let '(p, q) := if (0 <=? j)%Z then (a * 10 ^ j, b) else (a, b * 10 ^ (- j)) in
  let d1 := p - s1 * q in
  let d2 := s2 * q - p in
  if (d1 <? d2)%Z then true else if (d2 <? d1)%Z then false else Z.even s1.

Fixpoint shortest (fuel : nat) (x : float) (a b n k : Z) : Z * Z :=
  match fuel with
  | O => (scale_floor a b (k - n), k)
  | S f =>
      let lo := scale_floor a b (k - n) in
      let hi := lo + 1 in
      let ok_lo := (10 ^ (k - 1) <=? lo)%Z && PrimFloat.Leibniz.eqb (of_decimal false lo (n - k)) x in
      let ok_hi := PrimFloat.Leibniz.eqb (of_decimal false hi (n - k)) x in
      if ok_lo && ok_hi then (if nearer_low a b (k - n) lo hi then (lo, k) else (hi, k))
      else if ok_lo then (lo, k)
      else if ok_hi then (hi, k)
      else shortest f x a b n (k + 1)
  end.

Fixpoint zeros (n : nat) : string :=
  match n with O => EmptyString | S n' => String "0" (zeros n') end.

Definition substring_from (n : nat) (s : string) : string :=
  String.substring n (String.length s - n) s.

Definition format_number (s k n : Z) : string :=
  let ds := Z_to_string s in
  if (k <=? n)%Z && (n <=? 21)%Z then ds +:+ zeros (Z.to_nat (n - k))
  else if (0 <? n)%Z && (n <=? 21)%Z then
    String.substring 0 (Z.to_nat n) ds +:+ "." +:+ substring_from (Z.to_nat n) ds
  else if (-6 <? n)%Z && (n <=? 0)%Z then
    "0." +:+ zeros (Z.to_nat (- n)) +:+ ds
  else
    let e := n - 1 in
    let es := (if (e <? 0)%Z then "-" else "+") +:+ Z_to_string (Z.abs e) in
    if (k =? 1)%Z then ds +:+ "e" +:+ es
    else String.substring 0 1 ds +:+ "." +:+ substring_from 1 ds +:+ "e" +:+ es.

Definition positive_to_string (x : float) : string :=
  match Prim2SF x with
  | S754_finite _ m e =>
      let '(a, b) := if (0 <=? e)%Z then (Z.pos m * 2 ^ e, 1) else (Z.pos m, 2 ^ (- e)) in
      let est := (Z.log2 a - Z.log2 b) * 1233 / 4096 + 1 in
      let n := find_exp 4 a b est in
      let '(s, k) := shortest 17 x a b n 1 in
      (* a candidate rounded up to 10^k has one digit and the next exponent *)
      if (s =? 10 ^ k)%Z then format_number 1 1 (n + 1) else format_number s k n
  | _ => "0"
  end.

(** [String(x)], as a template literal converts a number. *)
Definition NumberToString (x : float) : string :=
  if is_nan x then "NaN"
  else if is_zero x then "0"
  else if is_infinity x then (if get_sign x then "-Infinity" else "Infinity")
  else if get_sign x then "-" +:+ positive_to_string (- x)%float
  else positive_to_string x.

End JsNumber.

Import JsNumber.

(** ** The helpers of [route.ts] *)

Local Open Scope regex_scope.

(** [/^(\d{1,2}):(\d{2}):(\d{2})$/] *)
Definition re_hms : Regex.regex :=
  Regex.Bol · Regex.Grp (Regex.Rep 1 (Some 2%nat) Regex.digit) · Regex.lit ":"
  · Regex.Grp (Regex.times 2 Regex.digit) · Regex.lit ":"
  · Regex.Grp (Regex.times 2 Regex.digit) · Regex.Eol.

(** [/(\d+)\s*h/i], [/(\d+)\s*m/i] and [/(\d+)\s*s/i] *)
Definition re_unit (u : ascii) : Regex.regex :=
  Regex.Grp (Regex.plus Regex.digit) · Regex.star Regex.space · Regex.liti u.

(** [/\b[A-Z]{2}\d{4}NU\b/i] *)
Definition re_module : Regex.regex :=
  Regex.WordB · Regex.times 2 Regex.upper_i · Regex.times 4 Regex.digit
  · Regex.litsi "NU" · Regex.WordB.

(** [/^3\.\s*In-Meeting Activities/i] *)
Definition re_section3 : Regex.regex :=
  Regex.Bol · Regex.lit "3" · Regex.lit "." · Regex.star Regex.space
  · Regex.litsi "In-Meeting Activities".

Local Close Scope regex_scope.

Definition parseModuleCodeFromFilename (name : string) : option string :=
  match Regex.exec re_module name with
  | Some m => Some (toUpperCase (Regex.m_text m))
  | None => None
  end.

Definition parseMinutes (value : string) : option float :=
  let v := trim value in
  if negb (JsString.truthy v) then None
  else
    match Regex.exec re_hms v with
    | Some hms =>
        let h := Number (Regex.group hms 1) in
        let m := Number (Regex.group hms 2) in
        let s := Number (Regex.group hms 3) in
        Some (Math_round (h * 60 + m + s / 60))
    | None =>
        let hr := Regex.exec (re_unit "h") v in
        let mr := Regex.exec (re_unit "m") v in
        let sr := Regex.exec (re_unit "s") v in
        let mins := 0%float in
        let mins := match hr with
                    | Some r => (mins + Number (Regex.group r 1) * 60)%float
                    | None => mins end in
        let mins := match mr with
                    | Some r => (mins + Number (Regex.group r 1))%float
                    | None => mins end in
        let mins := match sr with
                    | Some r => (mins + Number (Regex.group r 1) / 60)%float
                    | None => mins end in
        if (0 <? mins)%float then Some (Math_round mins)
        else
          let n := Number v in
          if negb (is_nan n) then Some (Math_round n) else None
    end.


(** ** JavaScript dates

    A [Date] is its time value: milliseconds since the epoch, within the
    range [TimeClip] admits.  The calendar functions are those of
    ECMA-262 21.4.1. *)

Module JsDate.

Definition msPerDay : Z := 86400000.
Definition maxTime : Z := 8640000000000000.

(** [TimeClip]: a time value outside the range is an Invalid Date. *)
Definition TimeClip (t : Z) : option Z :=
  if (Z.abs t <=? maxTime)%Z then Some t else None.

Definition Day (t : Z) : Z := t / msPerDay.
Definition TimeWithinDay (t : Z) : Z := t mod msPerDay.

Definition DayFromYear (y : Z) : Z :=
  365 * (y - 1970) + (y - 1969) / 4 - (y - 1901) / 100 + (y - 1601) / 400.

(** The largest year that starts on or before day [d]: the estimate from
    the mean length of a year is off by one at most. *)
Definition YearFromDay (d : Z) : Z :=
  let e := 1970 + d * 400 / 146097 in
  if (DayFromYear (e + 1) <=? d)%Z then e + 1
  else if (DayFromYear e <=? d)%Z then e
  else e - 1.

Definition DaysInYear (y : Z) : Z := DayFromYear (y + 1) - DayFromYear y.
Definition InLeapYear (y : Z) : Z := if (DaysInYear y =? 366)%Z then 1 else 0.

(** The first day of month [m] (from 0) within a year. *)
Definition MonthStart (leap m : Z) : Z :=
  match m with
  | 0 => 0 | 1 => 31 | 2 => 59 + leap | 3 => 90 + leap | 4 => 120 + leap
  | 5 => 151 + leap | 6 => 181 + leap | 7 => 212 + leap | 8 => 243 + leap
  | 9 => 273 + leap | 10 => 304 + leap | _ => 334 + leap
  end.

Definition MonthFromDay (leap dwy : Z) : Z :=
  if (dwy <? 31)%Z then 0
  else if (dwy <? 59 + leap)%Z then 1
  else if (dwy <? 90 + leap)%Z then 2
  else if (dwy <? 120 + leap)%Z then 3
  else if (dwy <? 151 + leap)%Z then 4
  else if (dwy <? 181 + leap)%Z then 5
  else if (dwy <? 212 + leap)%Z then 6
  else if (dwy <? 243 + leap)%Z then 7
  else if (dwy <? 273 + leap)%Z then 8
  else if (dwy <? 304 + leap)%Z then 9
  else if (dwy <? 334 + leap)%Z then 10
  else 11.

(** The calendar fields of a time value, in UTC. *)
Record fields : Type := Fields {
  f_year : Z; f_month : Z; f_date : Z;
  f_hour : Z; f_min : Z; f_sec : Z; f_ms : Z
}.

Definition to_fields (t : Z) : fields :=
  let d := Day t in
  let w := TimeWithinDay t in
  let y := YearFromDay d in
  let leap := InLeapYear y in
  let dwy := d - DayFromYear y in
  let m := MonthFromDay leap dwy in
  Fields y (m + 1) (dwy - MonthStart leap m + 1)
         (w / 3600000) (w / 60000 mod 60) (w / 1000 mod 60) (w mod 1000).

Definition digit_char (n : Z) : ascii := ascii_of_N (Z.to_N (48 + n mod 10)).

(** The last [w] decimal digits of [n]: [n] padded to [w] digits when
    [0 <= n < 10^w]. *)
Fixpoint pad (w : nat) (n : Z) : string :=
  match w with
  | O => EmptyString
  | S w' => pad w' (n / 10) +:+ String (digit_char n) EmptyString
  end.

(** Four digits for the years 0 to 9999, a sign and six digits otherwise. *)
Definition iso_year (y : Z) : string :=
  if (0 <=? y)%Z && (y <=? 9999)%Z then pad 4 y
  else (if (y <? 0)%Z then "-" else "+") +:+ pad 6 (Z.abs y).

(** [Date.prototype.toISOString] of a valid date. *)
Definition toISOString (t : Z) : string :=
  let f := to_fields t in
  iso_year (f_year f) +:+ "-" +:+ pad 2 (f_month f) +:+ "-" +:+ pad 2 (f_date f)
  +:+ "T" +:+ pad 2 (f_hour f) +:+ ":" +:+ pad 2 (f_min f) +:+ ":" +:+ pad 2 (f_sec f)
  +:+ "." +:+ pad 3 (f_ms f) +:+ "Z".

End JsDate.

(** ** The store behind the Prisma client

    Each table is a finite map keyed by the unique constraint the handler's
    upserts select on: [Module.code], [Session.sessionKey],
    [Student.email] and [Attendance(sessionId, studentId)].  The [id]
    columns are generated on insert; [next_id] is the next unused one. *)

Module Prisma.

Definition id : Type := positive.

Record Session : Type := mkSession {
  session_id : id;
  session_sessionKey : string;
  session_moduleCode : string;
  session_meetingName : option string;
  session_startTime : option Z;
  session_endTime : option Z;
  session_durationMin : option float;
  session_intake : string;
  session_year : float
}.

Record Student : Type := mkStudent {
  student_id : id;
  student_email : string;
  student_name : option string
}.

Record Attendance : Type := mkAttendance {
  attendance_id : id;
  attendance_sessionId : id;
  attendance_studentId : id;
  attendance_emailRaw : string;
  attendance_firstJoin : option Z;
  attendance_lastLeave : option Z;
  attendance_minutes : option float;
  attendance_role : option string;
  attendance_isEligible : bool
}.

Record store : Type := mkStore {
  modules : gmap string string;
  sessions : gmap string Session;
  students : gmap string Student;
  attendances : gmap (id * id) Attendance;
  next_id : id
}.

Definition empty : store := mkStore ∅ ∅ ∅ ∅ 1%positive.

(** [prisma.module.upsert({ where: { code }, update: {}, create: { code, name } })] *)
Definition module_upsert (code name : string) (st : store) : store :=
  match modules st !! code with
  | Some _ => st
  | None =>
      mkStore (<[code := name]> (modules st)) (sessions st) (students st)
              (attendances st) (next_id st)
  end.

(** The columns a session upsert writes, on update and on create alike. *)
Record SessionData : Type := mkSessionData {
  sd_moduleCode : string;
  sd_meetingName : option string;
  sd_startTime : option Z;
  sd_endTime : option Z;
  sd_durationMin : option float;
  sd_intake : string;
  sd_year : float
}.

Definition session_of (i : id) (key : string) (d : SessionData) : Session :=
  mkSession i key (sd_moduleCode d) (sd_meetingName d) (sd_startTime d)
            (sd_endTime d) (sd_durationMin d) (sd_intake d) (sd_year d).

(** [prisma.session.upsert({ where: { sessionKey }, update, create })] *)
Definition session_upsert (key : string) (d : SessionData) (st : store)
  : Session * store :=
  match sessions st !! key with
  | Some old =>
      let s := session_of (session_id old) key d in
      (s, mkStore (modules st) (<[key := s]> (sessions st)) (students st)
                  (attendances st) (next_id st))
  | None =>
      let s := session_of (next_id st) key d in
      (s, mkStore (modules st) (<[key := s]> (sessions st)) (students st)
                  (attendances st) (Pos.succ (next_id st)))
  end.

(** [prisma.student.upsert({ where: { email }, update: { name: name ?? undefined },
    create: { email, name } })]: an absent name leaves a stored name alone. *)
Definition student_upsert (email : string) (name : option string) (st : store)
  : Student * store :=
  match students st !! email with
  | Some old =>
      let s := mkStudent (student_id old) email
                 (match name with Some n => Some n | None => student_name old end) in
      (s, mkStore (modules st) (sessions st) (<[email := s]> (students st))
                  (attendances st) (next_id st))
  | None =>
      let s := mkStudent (next_id st) email name in
      (s, mkStore (modules st) (sessions st) (<[email := s]> (students st))
                  (attendances st) (Pos.succ (next_id st)))
  end.

(** The columns an attendance upsert writes. *)
Record AttendanceData : Type := mkAttendanceData {
  ad_emailRaw : string;
  ad_firstJoin : option Z;
  ad_lastLeave : option Z;
  ad_minutes : option float;
  ad_role : option string;
  ad_isEligible : bool
}.

Definition attendance_of (i sid uid : id) (d : AttendanceData) : Attendance :=
  mkAttendance i sid uid (ad_emailRaw d) (ad_firstJoin d) (ad_lastLeave d)
               (ad_minutes d) (ad_role d) (ad_isEligible d).

(** [prisma.attendance.upsert({ where: { sessionId_studentId }, update, create })] *)
Definition attendance_upsert (sid uid : id) (d : AttendanceData) (st : store)
  : Attendance * store :=
  match attendances st !! (sid, uid) with
  | Some old =>
      let a := attendance_of (attendance_id old) sid uid d in
      (a, mkStore (modules st) (sessions st) (students st)
                  (<[(sid, uid) := a]> (attendances st)) (next_id st))
  | None =>
      let a := attendance_of (next_id st) sid uid d in
      (a, mkStore (modules st) (sessions st) (students st)
                  (<[(sid, uid) := a]> (attendances st)) (Pos.succ (next_id st)))
  end.

End Prisma.

Import Prisma.

(** ** The request and the response *)

(** The uploaded [File]: its name and its content as [iconv.decode(buf,
    "utf16-le")] returns it. *)
Record upload : Type := mkUpload {
  upload_name : string;
  upload_text : string
}.

(** The multipart form: [form.get] yields [None] for an absent field. *)
Record request : Type := mkRequest {
  form_intake : option string;
  form_year : option string;
  form_moduleCode : option string;
  form_file : option upload
}.

(** The body of the success response. *)
Record summary_body : Type := mkBody {
  body_moduleCode : string;
  body_intake : string;
  body_year : float;
  body_sessionId : id;
  body_rowsRead : nat;
  body_attendanceUpserted : nat;
  body_eligibleCount : nat;
  body_durationMin : option float;
  body_sourceUsed : string
}.

Inductive response : Type :=
| Failure (status : nat) (error : string)
| Success (body : summary_body).

(** ** The handler *)

(** [text.split(/\r?\n/)]: a line ends at LF or at CR LF; a CR alone stays
    in its line. *)
Fixpoint split_lines (s : string) : list string :=
  let push c rest :=
    match rest with
    | l :: ls => String c l :: ls
    | [] => [String c EmptyString]
    end in
  match s with
  | EmptyString => [EmptyString]
  | String c r =>
      if Ascii.eqb c LF then EmptyString :: split_lines r
      else
        match r with
        | String c' r' =>
            if Ascii.eqb c CR && Ascii.eqb c' LF then EmptyString :: split_lines r'
            else push c (split_lines r)
        | EmptyString => push c (split_lines r)
        end
  end.

(** [findIndex(lines, predicate, start)]; [None] stands for [-1]. *)
Fixpoint findIndex_at (lines : list string) (predicate : string -> bool) (i : nat)
  : option nat :=
  match lines with
  | [] => None
  | l :: ls => if predicate l then Some i else findIndex_at ls predicate (S i)
  end.

Definition findIndex (lines : list string) (predicate : string -> bool) (start : nat)
  : option nat :=
  findIndex_at (drop start lines) predicate start.

Definition normIntake (v : string) : string :=
  let s := toLowerCase (trim v) in
  if String.eqb s "spring" then "Spring"
  else if String.eqb s "summer" then "Summer"
  else if String.eqb s "autumn" || String.eqb s "fall" then "Autumn"
  else trim v.

Definition normModuleCode (v : string) : string := toUpperCase (trim v).

Definition is_section2 (l : string) : bool := String.eqb (trim l) "2. Participants".

Definition is_section3 (l : string) : bool := Regex.test re_section3 (trim l).

Definition is_header (l : string) : bool :=
  startsWith l (String "N" (String "a" (String "m" (String "e" (String TAB EmptyString)))))
  && includes l (String TAB ("Email" +:+ String TAB EmptyString))
  && includes l "In-Meeting Duration".

(** [parts[i] ?? ""] *)
Definition part (parts : list string) (i : nat) : string := nth i parts EmptyString.

(** The summary loop: every line up to and including the Section 2 marker
    contributes its first two tab-separated fields. *)
Fixpoint read_summary (lines : list string) (summary : gmap string string)
  : gmap string string :=
  match lines with
  | [] => summary
  | line :: rest =>
      let parts := JsString.split TAB line in
      let summary :=
        if (2 <=? length parts)%nat then
          let key := trim (part parts 0) in
          let val := trim (part parts 1) in
          if JsString.truthy key && JsString.truthy val then <[key := val]> summary
          else summary
        else summary in
      if is_section2 line then summary else read_summary rest summary
  end.

(** [summary[k] ?? ""] *)
Definition summary_get (summary : gmap string string) (k : string) : string :=
  default EmptyString (summary !! k).

Definition STUDENT_SUFFIX : string := "@stu.nexteducationgroup.com".

(** [email || `unknown-${i}@invalid.local`] *)
Definition student_key (email : string) (i : nat) : string :=
  if JsString.truthy email then email
  else "unknown-" +:+ pretty i +:+ "@invalid.local".

(** The positions of the columns in the header row; [None] stands for -1. *)
Record columns : Type := mkColumns {
  idxName : nat;
  idxEmail : nat;
  idxFirstJoin : option nat;
  idxLastLeave : option nat;
  idxDuration : nat;
  idxRole : option nat
}.

(** The counters of the row loop. *)
Record counters : Type := mkCounters {
  rowsRead : nat;
  attendanceUpserted : nat;
  eligibleCount : nat
}.

Section Handler.

(** [new Date(v)] for a string [v]: the time value the engine's date parser
    yields, before [TimeClip]; [None] when the string is not a date.  The
    formats it accepts beyond ISO 8601 are the engine's own. *)
Variable Date_parse : string -> option Z.

Definition parseDate (value : string) : option Z :=
  let v := trim value in
  if negb (JsString.truthy v) then None
  else match Date_parse v with
       | Some t => JsDate.TimeClip t
       | None => None
       end.

Definition iso_or_empty (d : option Z) : string :=
  match d with Some t => JsDate.toISOString t | None => EmptyString end.

(** The cohort-aware session key. *)
Definition sessionKey (intake : string) (year : float) (moduleCode : string)
    (startTime endTime : option Z) (meetingName : option string) : string :=
  toLowerCase
    (intake +:+ "|" +:+ NumberToString year +:+ "|" +:+ moduleCode +:+ "|"
     +:+ iso_or_empty startTime +:+ "|" +:+ iso_or_empty endTime +:+ "|"
     +:+ default EmptyString meetingName).

(** One iteration of the participants loop, for the line at index [i]. *)
Definition import_row (cols : columns) (session : Session) (i : nat) (line : string)
    (acc : counters * store) : counters * store :=
  let '(cnt, st) := acc in
  if negb (JsString.truthy (trim line)) then acc
  else
    let parts := JsString.split TAB line in
    if (length parts <? 2)%nat then acc
    else
      let name := or_null (trim (part parts (idxName cols))) in
      let emailRaw := trim (part parts (idxEmail cols)) in
      let email := toLowerCase emailRaw in
      let rowsRead' := S (rowsRead cnt) in
      let '(student, st) := student_upsert (student_key email i) name st in
      let isEligible := endsWith email STUDENT_SUFFIX in
      let eligibleCount' :=
        if isEligible then S (eligibleCount cnt) else eligibleCount cnt in
      let firstJoin :=
        match idxFirstJoin cols with
        | Some j => parseDate (part parts j)
        | None => None
        end in
      let lastLeave :=
        match idxLastLeave cols with
        | Some j => parseDate (part parts j)
        | None => None
        end in
      let minutes := parseMinutes (part parts (idxDuration cols)) in
      let role :=
        match idxRole cols with
        | Some j => or_null (trim (part parts j))
        | None => None
        end in
      let '(_, st) :=
        attendance_upsert (session_id session) (student_id student)
          (mkAttendanceData emailRaw firstJoin lastLeave minutes role isEligible) st in
      (mkCounters rowsRead' (S (attendanceUpserted cnt)) eligibleCount', st).

(** The loop [for (i = start; i < stop; i++)] over [lines]. *)
Fixpoint import_rows (cols : columns) (session : Session) (i : nat)
    (lines : list string) (acc : counters * store) : counters * store :=
  match lines with
  | [] => acc
  | line :: rest =>
      import_rows cols session (S i) rest (import_row cols session i line acc)
  end.

Definition POST (req : request) (st : store) : response * store :=
  let intakeRaw := default EmptyString (form_intake req) in
  let yearRaw := default EmptyString (form_year req) in
  let moduleFromFormRaw := default EmptyString (form_moduleCode req) in
  let intake := normIntake intakeRaw in
  let year := Number yearRaw in
  if negb (JsString.truthy intake) || negb (JsNumber.truthy year) || is_nan year then
    (Failure 400 "Missing or invalid intake/year. Please select Intake + Year.", st)
  else
  match form_file req with
  | None => (Failure 400 "No file uploaded", st)
  | Some file =>
  let moduleFromForm := normModuleCode moduleFromFormRaw in
  let moduleFromFilename := parseModuleCodeFromFilename (upload_name file) in
  let moduleCode :=
    if JsString.truthy moduleFromForm then Some moduleFromForm
    else moduleFromFilename in
  match moduleCode with
  | None =>
      (Failure 400
         "Missing Module Code. Please select a Module Code (or include it in the filename).",
       st)
  | Some moduleCode =>
  if negb (JsString.truthy moduleCode) then
    (Failure 400
       "Missing Module Code. Please select a Module Code (or include it in the filename).",
     st)
  else
  let lines := split_lines (upload_text file) in
  (* 1) Summary (for sessionKey) *)
  let summary := read_summary lines ∅ in
  let meetingName := summary !! "Meeting title" in
  let startTime := parseDate (summary_get summary "Start time") in
  let endTime := parseDate (summary_get summary "End time") in
  let durationMin :=
    match parseMinutes (summary_get summary "Meeting duration") with
    | Some d => Some d
    | None => parseMinutes (summary_get summary "Duration")
    end in
  let key := sessionKey intake year moduleCode startTime endTime meetingName in
  let st := module_upsert moduleCode moduleCode st in
  let '(session, st) :=
    session_upsert key
      (mkSessionData moduleCode meetingName startTime endTime durationMin intake year)
      st in
  (* 2) Section 2 only *)
  match findIndex lines is_section2 0 with
  | None => (Failure 400 "Could not find '2. Participants' section.", st)
  | Some idxSection2 =>
  let idxSection3 := findIndex lines is_section3 (S idxSection2) in
  let section2End := default (length lines) idxSection3 in
  let headerIndex := findIndex lines is_header (S idxSection2) in
  match headerIndex with
  | None =>
      (Failure 400
         "Could not find Participants table header for Section 2 (with 'In-Meeting Duration').",
       st)
  | Some headerIndex =>
  if (section2End <=? headerIndex)%nat then
    (Failure 400
       "Could not find Participants table header for Section 2 (with 'In-Meeting Duration').",
     st)
  else
  let header := map trim (JsString.split TAB (part lines headerIndex)) in
  let colIndex (name : string) := findIndex header (String.eqb name) 0 in
  match colIndex "Name", colIndex "Email", colIndex "In-Meeting Duration" with
  | Some iName, Some iEmail, Some iDuration =>
      let cols := mkColumns iName iEmail (colIndex "First Join")
                    (colIndex "Last Leave") iDuration (colIndex "Role") in
      let window := drop (S headerIndex) (take section2End lines) in
      let '(cnt, st) :=
        import_rows cols session (S headerIndex) window (mkCounters 0 0 0, st) in
      (Success (mkBody moduleCode intake year (session_id session)
                  (rowsRead cnt) (attendanceUpserted cnt) (eligibleCount cnt)
                  durationMin "section2_only"),
       st)
  | _, _, _ =>
      (Failure 400
         "Missing required columns in Section 2 (need Name, Email, In-Meeting Duration).",
       st)
  end
  end
  end
  end
  end.

End Handler.

(** * Properties *)

(** ** Characters and trimming *)

Lemma is_digit_not_space (c : ascii) : is_digit c = true -> is_space c = false.
Proof. destruct c as [[] [] [] [] [] [] [] []]; vm_compute; congruence. Qed.

Definition digit_chars : list ascii :=
  ["0"; "1"; "2"; "3"; "4"; "5"; "6"; "7"; "8"; "9"]%char.

Lemma is_digit_cases (c : ascii) : is_digit c = true -> In c digit_chars.
Proof.
  destruct c as [[] [] [] [] [] [] [] []]; vm_compute; try congruence; intros _; tauto.
Qed.

Lemma is_digit_val (c : ascii) : is_digit c = true -> 0 <= digit_val c <= 9.
Proof.
  intros H. apply is_digit_cases in H. simpl in H.
  repeat (destruct H as [<- | H]; [vm_compute; split; congruence |]). destruct H.
Qed.

(** A string that neither starts nor ends with white space is its own trim. *)
Fixpoint ends_nonspace (s : string) : bool :=
  match s with
  | EmptyString => false
  | String c EmptyString => negb (is_space c)
  | String _ r => ends_nonspace r
  end.

Lemma trimEnd_id (s : string) : ends_nonspace s = true -> trimEnd s = s.
Proof.
  induction s as [| c r IH]; [discriminate |].
  destruct r as [| c' r'].
  - simpl. intros H. apply negb_true_iff in H. now rewrite H.
  - intros H. change (ends_nonspace (String c (String c' r'))) with (ends_nonspace (String c' r')) in H.
    specialize (IH H).
    change (trimEnd (String c (String c' r'))) with
      (match trimEnd (String c' r') with
       | EmptyString => if is_space c then EmptyString else String c EmptyString
       | r0 => String c r0 end).
    now rewrite IH.
Qed.

Lemma trim_id (c : ascii) (r : string) :
  is_space c = false -> ends_nonspace (String c r) = true -> trim (String c r) = String c r.
Proof.
  intros Hc He. unfold trim. simpl trimStart. rewrite Hc. now apply trimEnd_id.
Qed.

(** ** The clock pattern *)

Definition str1 (a : ascii) : string := String a EmptyString.
Definition str2 (a b : ascii) : string := String a (String b EmptyString).

Ltac digits_step :=
  repeat match goal with
  | H : is_digit ?c = true |- context [Regex.digit ?c] =>
      change (Regex.digit c) with (is_digit c); rewrite H
  | H : is_digit ?c = true |- context [is_digit ?c] => rewrite H
  end.

Ltac run_regex := repeat (progress (simpl; digits_step)); try reflexivity.

Lemma exec_hms_2 (a b c d e f : ascii) :
  is_digit a = true -> is_digit b = true -> is_digit c = true ->
  is_digit d = true -> is_digit e = true -> is_digit f = true ->
  Regex.exec re_hms (str2 a b +:+ ":" +:+ str2 c d +:+ ":" +:+ str2 e f)
  = Some (Regex.MatchResult 0 (str2 a b +:+ ":" +:+ str2 c d +:+ ":" +:+ str2 e f)
            [str2 a b; str2 c d; str2 e f]).
Proof.
  intros Ha Hb Hc Hd He Hf.
  unfold Regex.exec, re_hms, str2. run_regex.
Qed.

Lemma exec_hms_1 (a c d e f : ascii) :
  is_digit a = true -> is_digit c = true ->
  is_digit d = true -> is_digit e = true -> is_digit f = true ->
  Regex.exec re_hms (str1 a +:+ ":" +:+ str2 c d +:+ ":" +:+ str2 e f)
  = Some (Regex.MatchResult 0 (str1 a +:+ ":" +:+ str2 c d +:+ ":" +:+ str2 e f)
            [str1 a; str2 c d; str2 e f]).
Proof.
  intros Ha Hc Hd He Hf.
  unfold Regex.exec, re_hms, str1, str2. run_regex.
Qed.

(** ** Numbers *)

(** Rounding to the nearest integer, halves up: the rounding of [Math.round]
    in exact arithmetic. *)
Definition round_half_up (q : Q) : Z := Qfloor (q + (1 # 2))%Q.

(** [H*60 + MM + SS/60] as an exact rational. *)
Definition clock_minutes (h m s : Z) : Q :=
  (inject_Z h * 60 + inject_Z m + inject_Z s / 60)%Q.

Lemma of_Z_uint63 (z : Z) :
  0 <= z < 2 ^ 63 -> of_Z z = of_uint63 (Uint63.of_Z z).
Proof.
  intros Hz. unfold of_Z.
  rewrite <- (SF2Prim_Prim2SF (of_uint63 (Uint63.of_Z z))).
  rewrite of_uint63_spec. rewrite Uint63.of_Z_spec.
  rewrite Z.mod_small; [reflexivity |]. exact Hz.
Qed.

Lemma round_clock_minutes (h m s : Z) :
  round_half_up (clock_minutes h m s) = (3600 * h + 60 * m + s + 30) / 60.
Proof.
  unfold round_half_up, clock_minutes, Qfloor, Qplus, Qmult, Qdiv, Qinv, inject_Z.
  simpl Qnum; simpl Qden.
  change (Z.pos (1 * 1)) with 1; change (Z.pos (1 * 60)) with 60;
  change (Z.pos (1 * 1 * 1)) with 1;
  change (Z.pos (1 * 1 * 1 * (1 * 60))) with 60;
  change (Z.pos (1 * 1 * 1 * (1 * 60) * 2)) with (60 * 2).
  replace (((h * 60 * 1 + m * 1) * 60 + s * 1 * 1) * 2 + 1 * 60)
    with ((3600 * h + 60 * m + s + 30) * 2) by ring.
  rewrite Z.div_mul_cancel_r; [reflexivity | lia | lia].
Qed.

(** The binary64 value of a small non-negative integer. *)
Definition fl (z : Z) : float := of_uint63 (Uint63.of_Z z).

Definition upto (n : nat) : list Z := map Z.of_nat (seq 0 n).

Lemma In_upto (z : Z) (n : nat) : 0 <= z < Z.of_nat n -> In z (upto n).
Proof.
  intros Hz. unfold upto. apply in_map_iff. exists (Z.to_nat z). split; [lia |].
  apply in_seq. lia.
Qed.

(** The handler's clock arithmetic agrees with exact arithmetic on every
    hour, minute and second field of at most two digits: checked on all
    of them. *)
Definition clock_ok (h m s : Z) : bool :=
  PrimFloat.Leibniz.eqb (Math_round (fl h * 60 + fl m + fl s / 60)%float)
    (fl ((3600 * h + 60 * m + s + 30) / 60)).

Definition clock_ok_m (h m : Z) : bool := forallb (clock_ok h m) (upto 100).
Definition clock_ok_h (h : Z) : bool := forallb (clock_ok_m h) (upto 100).

Lemma clock_table : forallb clock_ok_h (upto 100) = true.
Proof. vm_compute. reflexivity. Qed.

Lemma clock_arith (h m s : Z) :
  0 <= h < 100 -> 0 <= m < 100 -> 0 <= s < 100 ->
  Math_round (fl h * 60 + fl m + fl s / 60)%float
  = of_Z (round_half_up (clock_minutes h m s)).
Proof.
  intros Hh Hm Hs.
  assert (T1 : clock_ok_h h = true).
  { exact (proj1 (forallb_forall clock_ok_h (upto 100)) clock_table h (In_upto h 100 Hh)). }
  assert (T2 : clock_ok_m h m = true).
  { exact (proj1 (forallb_forall (clock_ok_m h) (upto 100)) T1 m (In_upto m 100 Hm)). }
  assert (T3 : clock_ok h m s = true).
  { exact (proj1 (forallb_forall (clock_ok h m) (upto 100)) T2 s (In_upto s 100 Hs)). }
  unfold clock_ok in T3. apply FloatAxioms.Leibniz.eqb_spec in T3.
  rewrite T3, round_clock_minutes.
  symmetry. apply of_Z_uint63.
  split; [apply Z.div_pos; lia |].
  apply Z.div_lt_upper_bound; lia.
Qed.

Lemma Number_digit1 (a : ascii) :
  is_digit a = true -> Number (str1 a) = fl (digit_val a).
Proof.
  intros Ha. apply is_digit_cases in Ha. simpl in Ha.
  repeat (destruct Ha as [<- | Ha]; [vm_compute; reflexivity |]). destruct Ha.
Qed.

Lemma Number_digit2 (a b : ascii) :
  is_digit a = true -> is_digit b = true ->
  Number (str2 a b) = fl (10 * digit_val a + digit_val b).
Proof.
  intros Ha Hb. apply is_digit_cases in Ha, Hb. simpl in Ha, Hb.
  repeat (destruct Ha as [<- | Ha];
          [repeat (destruct Hb as [<- | Hb]; [vm_compute; reflexivity |]); destruct Hb |]).
  destruct Ha.
Qed.

(** ** Durations in clock format *)

Definition all_digits (s : string) : bool :=
  forallb is_digit (list_ascii_of_string s).

(** The number a string of decimal digits denotes. *)
Definition decimal (s : string) : Z := digits_val (list_ascii_of_string s).

Lemma digits1 (s : string) :
  all_digits s = true -> String.length s = 1%nat ->
  exists a, s = str1 a /\ is_digit a = true.
Proof.
  destruct s as [| a [| b r]]; try discriminate.
  unfold all_digits. simpl. intros H _. exists a. split; [reflexivity |].
  now apply andb_prop in H.
Qed.

Lemma digits2 (s : string) :
  all_digits s = true -> String.length s = 2%nat ->
  exists a b, s = str2 a b /\ is_digit a = true /\ is_digit b = true.
Proof.
  destruct s as [| a [| b [| c r]]]; try discriminate.
  unfold all_digits. simpl. intros H _. exists a, b. split; [reflexivity |].
  apply andb_prop in H as [Ha H]. apply andb_prop in H as [Hb _]. now split.
Qed.

Lemma decimal_str1 (a : ascii) : decimal (str1 a) = digit_val a.
Proof. unfold decimal, digits_val. simpl. lia. Qed.

Lemma decimal_str2 (a b : ascii) : decimal (str2 a b) = 10 * digit_val a + digit_val b.
Proof. unfold decimal, digits_val. simpl. lia. Qed.

Lemma parseMinutes_hms (v : string) (g1 g2 g3 : string) (c : ascii) (r : string) :
  v = String c r -> is_space c = false -> ends_nonspace v = true ->
  Regex.exec re_hms v = Some (Regex.MatchResult 0 v [g1; g2; g3]) ->
  parseMinutes v
  = Some (Math_round (Number g1 * 60 + Number g2 + Number g3 / 60)%float).
Proof.
  intros -> Hc He Hx. unfold parseMinutes.
  rewrite (trim_id c r Hc He). simpl JsString.truthy. simpl negb. cbv iota.
  rewrite Hx. reflexivity.
Qed.

(** C5. For every duration string of the clock shape H:MM:SS or HH:MM:SS
    (one or two hour digits, two minute digits, two second digits),
    [parseMinutes] returns H*60 + MM + SS/60 rounded to the nearest
    integer. *)
Theorem parseMinutes_clock (hs ms ss : string) :
  all_digits hs = true -> (1 <= String.length hs <= 2)%nat ->
  all_digits ms = true -> String.length ms = 2%nat ->
  all_digits ss = true -> String.length ss = 2%nat ->
  parseMinutes (hs +:+ ":" +:+ ms +:+ ":" +:+ ss)
  = Some (of_Z (round_half_up (clock_minutes (decimal hs) (decimal ms) (decimal ss)))).
Proof.
  intros Hh Lh Hm Lm Hs Ls.
  destruct (digits2 ms Hm Lm) as (c & d & -> & Hc & Hd).
  destruct (digits2 ss Hs Ls) as (e & f & -> & He & Hf).
  pose proof (is_digit_val c Hc). pose proof (is_digit_val d Hd).
  pose proof (is_digit_val e He). pose proof (is_digit_val f Hf).
  assert (String.length hs = 1%nat \/ String.length hs = 2%nat) as [L1 | L2] by lia.
  - destruct (digits1 hs Hh L1) as (a & -> & Ha).
    pose proof (is_digit_val a Ha).
    rewrite (parseMinutes_hms _ (str1 a) (str2 c d) (str2 e f) a
               (":" +:+ str2 c d +:+ ":" +:+ str2 e f)).
    + rewrite Number_digit1, !Number_digit2, decimal_str1, !decimal_str2 by assumption.
      f_equal. apply clock_arith; lia.
    + reflexivity.
    + now apply is_digit_not_space.
    + simpl. now rewrite (is_digit_not_space f Hf).
    + now apply exec_hms_1.
  - destruct (digits2 hs Hh L2) as (a & b & -> & Ha & Hb).
    pose proof (is_digit_val a Ha). pose proof (is_digit_val b Hb).
    rewrite (parseMinutes_hms _ (str2 a b) (str2 c d) (str2 e f) a
               (str1 b +:+ ":" +:+ str2 c d +:+ ":" +:+ str2 e f)).
    + rewrite !Number_digit2, !decimal_str2 by assumption.
      f_equal. apply clock_arith; lia.
    + reflexivity.
    + now apply is_digit_not_space.
    + simpl. now rewrite (is_digit_not_space f Hf).
    + now apply exec_hms_2.
Qed.

(** "1:02:30" parses to 63 minutes. *)
Lemma parseMinutes_clock_witness : parseMinutes "1:02:30" = Some 63%float.
Proof.
  exact (parseMinutes_clock "1" "02" "30" eq_refl (conj (le_n 1) (le_S 1 1 (le_n 1)))
           eq_refl eq_refl eq_refl eq_refl).
Defined.

(** ** The unit patterns

    [/(\d+)\s*u/i] finds the first run of digits that is followed, after
    any white space, by the unit letter, and captures the whole run. *)

(** After a run of digits: white space, then the unit letter. *)
Fixpoint unit_follows (u : ascii) (l : list ascii) : bool :=
  match l with
  | c :: r => if is_space c then unit_follows u r
              else Ascii.eqb (Regex.canon c) (Regex.canon u)
  | [] => false
  end.

(** The digits of the first integer that the unit letter follows. *)
Fixpoint scan_unit (u : ascii) (l : list ascii) : option (list ascii) :=
  match l with
  | [] => None
  | c :: r =>
      if is_digit c then
        let '(ds, rest) := span_digits l in
        if unit_follows u rest then Some ds else scan_unit u r
      else scan_unit u r
  end.

(** A unit letter is neither white space nor a digit nor a colon, in
    either case. *)
Definition unit_letter (u : ascii) : Prop :=
  forall c, Ascii.eqb (Regex.canon c) (Regex.canon u) = true ->
            is_space c = false /\ is_digit c = false /\ c <> ":"%char.

Lemma unit_letter_hms (u : ascii) :
  u = "h"%char \/ u = "m"%char \/ u = "s"%char -> unit_letter u.
Proof.
  intros [-> | [-> | ->]] c; destruct c as [[] [] [] [] [] [] [] []];
    vm_compute; intros H; try discriminate H; repeat split; congruence.
Qed.

Section UnitPattern.

Variable u : ascii.
Hypothesis Hu : unit_letter u.

Let K : Regex.cont := fun st => Regex.rmatch (Regex.liti u) st Some.

Lemma liti_space (c : ascii) (bef aft : list ascii) (cs : list string) :
  is_space c = true -> K (Regex.RState bef (c :: aft) cs) = None.
Proof.
  intros Hc. unfold K. simpl.
  destruct (Ascii.eqb (Regex.canon c) (Regex.canon u)) eqn:E; [| reflexivity].
  apply Hu in E. destruct E as [E _]. congruence.
Qed.

(** [\s*u] from a position. *)
Lemma spaces_then_unit (aft bef : list ascii) (cs : list string) :
  option_map Regex.caps (Regex.rep Regex.space 0 None bef aft cs K)
  = if unit_follows u aft then Some cs else None.
Proof.
  revert bef. induction aft as [| c aft IH]; intros bef.
  - reflexivity.
  - simpl. unfold Regex.space at 1.
    destruct (is_space c) eqn:Hc.
    + specialize (IH (c :: bef)).
      destruct (Regex.rep Regex.space 0 None (c :: bef) aft cs K) as [st |] eqn:E.
      * exact IH.
      * rewrite (liti_space c bef aft cs Hc). exact IH.
    + unfold K. simpl.
      destruct (Ascii.eqb (Regex.canon c) (Regex.canon u)); reflexivity.
Qed.

(** The continuation of the group [(\d+)] opened at [bef0]. *)
Let G (bef0 : list ascii) : Regex.cont := fun st' =>
  Regex.rmatch (Regex.Seq (Regex.star Regex.space) (Regex.liti u))
    (Regex.RState (Regex.before st') (Regex.after st')
       (Regex.caps st' ++ [Regex.consumed bef0 (Regex.before st')])) Some.

Lemma group_close (bef0 bef aft : list ascii) (cs : list string) :
  option_map Regex.caps (G bef0 (Regex.RState bef aft cs))
  = if unit_follows u aft then Some (cs ++ [Regex.consumed bef0 bef])%list else None.
Proof. unfold G. simpl. apply spaces_then_unit. Qed.

Lemma digit_not_unit (c : ascii) (aft : list ascii) :
  is_digit c = true -> unit_follows u (c :: aft) = false.
Proof.
  intros Hc. simpl. rewrite (is_digit_not_space c Hc).
  destruct (Ascii.eqb (Regex.canon c) (Regex.canon u)) eqn:E; [| reflexivity].
  apply Hu in E. destruct E as (_ & E & _). congruence.
Qed.

(** [\d*] after the first digit, greedy: only the whole run can be
    followed by the unit. *)
Lemma digits_then_unit (aft bef0 bef : list ascii) (cs : list string) :
  option_map Regex.caps (Regex.rep Regex.digit 0 None bef aft cs (G bef0))
  = let '(ds, rest) := span_digits aft in
    if unit_follows u rest
    then Some (cs ++ [Regex.consumed bef0 (rev ds ++ bef)%list])%list else None.
Proof.
  revert bef. induction aft as [| c aft IH]; intros bef.
  - simpl Regex.rep. simpl span_digits. cbv iota beta. rewrite group_close. reflexivity.
  - simpl Regex.rep. simpl span_digits. unfold Regex.digit at 1.
    destruct (is_digit c) eqn:Hc.
    + specialize (IH (c :: bef)).
      destruct (span_digits aft) as [ds rest] eqn:Es.
      destruct (Regex.rep Regex.digit 0 None (c :: bef) aft cs (G bef0)) as [st |] eqn:E.
      * rewrite IH. simpl rev. rewrite <- app_assoc. reflexivity.
      * rewrite group_close, (digit_not_unit c aft Hc).
        simpl in IH. destruct (unit_follows u rest); [discriminate IH | reflexivity].
    + rewrite group_close. reflexivity.
Qed.

Lemma consumed_run (ds bef : list ascii) :
  Regex.consumed bef (rev ds ++ bef)%list = string_of_list_ascii ds.
Proof.
  unfold Regex.consumed. rewrite length_app.
  replace (length (rev ds) + length bef - length bef)%nat with (length (rev ds)) by lia.
  rewrite take_app_length, rev_involutive. reflexivity.
Qed.

(** The pattern at one start position. *)
Lemma unit_at (bef aft : list ascii) :
  option_map Regex.caps (Regex.rmatch (re_unit u) (Regex.RState bef aft []) Some)
  = match aft with
    | c :: _ =>
        if is_digit c then
          let '(ds, rest) := span_digits aft in
          if unit_follows u rest then Some [string_of_list_ascii ds] else None
        else None
    | [] => None
    end.
Proof.
  unfold re_unit. simpl Regex.rmatch.
  destruct aft as [| c aft]; [reflexivity |].
  simpl Regex.rep. unfold Regex.digit at 1.
  destruct (is_digit c) eqn:Hc; [| reflexivity].
  pose proof (digits_then_unit aft bef (c :: bef) []) as D.
  unfold G in D. simpl in D.
  simpl span_digits. rewrite Hc.
  destruct (span_digits aft) as [ds rest] eqn:Es.
  match goal with |- context [match ?r with Some r0 => Some r0 | None => None end] =>
    replace (match r with Some r0 => Some r0 | None => None end) with r
      by (destruct r; reflexivity) end.
  simpl. rewrite D.
  destruct (unit_follows u rest); [| reflexivity].
  f_equal. f_equal.
  change (rev ds ++ c :: bef)%list with (rev ds ++ [c] ++ bef)%list.
  rewrite app_assoc. change (rev ds ++ [c])%list with (rev (c :: ds)).
  apply consumed_run.
Qed.

(** The search from left to right. *)
Lemma unit_exec_from (aft bef : list ascii) :
  option_map Regex.m_groups (Regex.exec_from (re_unit u) bef aft)
  = option_map (fun ds => [string_of_list_ascii ds]) (scan_unit u aft).
Proof.
  revert bef. induction aft as [| c aft IH]; intros bef.
  - reflexivity.
  - pose proof (unit_at bef (c :: aft)) as A.
    cbn [Regex.exec_from].
    destruct (Regex.rmatch (re_unit u) (Regex.RState bef (c :: aft) []) Some) as [st |] eqn:E.
    + cbn [option_map] in A |- *. cbn [scan_unit].
      destruct (is_digit c); [| discriminate A].
      destruct (span_digits (c :: aft)) as [ds rest].
      destruct (unit_follows u rest); [| discriminate A].
      cbn [Regex.m_groups option_map]. exact A.
    + cbn [option_map] in A. cbn [scan_unit].
      destruct (is_digit c); [| apply IH].
      destruct (span_digits (c :: aft)) as [ds rest].
      destruct (unit_follows u rest); [discriminate A | apply IH].
Qed.

Lemma unit_exec (v : string) :
  option_map (fun m => Regex.group m 1) (Regex.exec (re_unit u) v)
  = option_map string_of_list_ascii (scan_unit u (list_ascii_of_string v)).
Proof.
  unfold Regex.exec.
  pose proof (unit_exec_from (list_ascii_of_string v) []) as H.
  destruct (Regex.exec_from (re_unit u) [] (list_ascii_of_string v)) as [m |];
    destruct (scan_unit u (list_ascii_of_string v)) as [ds |]; try discriminate H.
  - simpl in H |- *. unfold Regex.group. injection H as ->. reflexivity.
  - reflexivity.
Qed.

End UnitPattern.

(** ** The clock pattern, conversely *)

(** The clock shape H:MM:SS or HH:MM:SS. *)
Definition clock_shape (v : string) : Prop :=
  exists hs ms ss,
    v = hs +:+ ":" +:+ ms +:+ ":" +:+ ss
    /\ all_digits hs = true /\ (1 <= String.length hs <= 2)%nat
    /\ all_digits ms = true /\ String.length ms = 2%nat
    /\ all_digits ss = true /\ String.length ss = 2%nat.

Lemma hms_not_later (aft bef : list ascii) :
  bef <> [] -> Regex.exec_from re_hms bef aft = None.
Proof.
  revert bef. induction aft as [| c aft IH]; intros bef Hb;
    destruct bef as [| b bef]; try congruence.
  - reflexivity.
  - cbn [Regex.exec_from]. simpl Regex.rmatch. apply IH. discriminate.
Qed.

Ltac split_tests H :=
  repeat first
    [ discriminate H
    | match type of H with
      | context [Regex.digit ?c] => change (Regex.digit c) with (is_digit c) in H
      | context [is_digit ?c] => destruct (is_digit c) eqn:?; cbn -[Ascii.eqb is_digit] in H
      | context [Ascii.eqb ?a ?c] => destruct (Ascii.eqb_spec a c); cbn -[Ascii.eqb is_digit] in H
      end ].

Lemma hms_shape (l : list ascii) (st : Regex.rstate) :
  Regex.rmatch re_hms (Regex.RState [] l []) Some = Some st ->
  clock_shape (string_of_list_ascii l).
Proof.
  intros H. unfold re_hms in H.
  destruct l as [| c1 [| c2 [| c3 [| c4 [| c5 [| c6 [| c7 [| c8 [| c9 l]]]]]]]]];
    cbn -[Ascii.eqb is_digit] in H; split_tests H; subst.
  all: try match goal with
           | E : is_digit ":"%char = true |- _ => vm_compute in E; discriminate E
           end.
  all: match goal with
       | |- clock_shape (string_of_list_ascii [?a; _; ?c; ?d; _; ?e; ?f]) =>
           exists (str1 a), (str2 c d), (str2 e f)
       | |- clock_shape (string_of_list_ascii [?a; ?b; _; ?c; ?d; _; ?e; ?f]) =>
           exists (str2 a b), (str2 c d), (str2 e f)
       end.
  all: unfold all_digits; simpl;
    repeat match goal with E : is_digit _ = true |- _ => rewrite E; clear E end;
    repeat split; try reflexivity; lia.
Qed.

Lemma hms_exec_shape (v : string) (m : Regex.rmatch_result) :
  Regex.exec re_hms v = Some m -> clock_shape v.
Proof.
  unfold Regex.exec. intros H.
  rewrite <- (string_of_list_ascii_of_string v).
  destruct (list_ascii_of_string v) as [| c l] eqn:E.
  - cbn [Regex.exec_from] in H.
    destruct (Regex.rmatch re_hms (Regex.RState [] [] []) Some) as [st |] eqn:R;
      [exact (hms_shape [] st R) | discriminate H].
  - cbn [Regex.exec_from] in H.
    destruct (Regex.rmatch re_hms (Regex.RState [] (c :: l) []) Some) as [st |] eqn:R;
      [exact (hms_shape (c :: l) st R) |].
    rewrite hms_not_later in H by discriminate. discriminate H.
Qed.

Lemma hms_exec_none (v : string) : ~ clock_shape v -> Regex.exec re_hms v = None.
Proof.
  intros Hn. destruct (Regex.exec re_hms v) as [m |] eqn:E; [| reflexivity].
  destruct Hn. exact (hms_exec_shape v m E).
Qed.

(** ** Durations with unit letters *)

(** The integer before the first occurrence of unit [u] in [v]: the digits
    of the first run of digits that [u] follows, white space apart. *)
Definition unit_digits (u : ascii) (v : string) : option string :=
  option_map string_of_list_ascii (scan_unit u (list_ascii_of_string v)).

(** Adds the contribution of a unit that is present. *)
Definition add_unit (mins : float) (d : option string) (f : float -> float) : float :=
  match d with
  | Some ds => (mins + f (Number ds))%float
  | None => mins
  end.

(** hours*60 + minutes + seconds/60 over the units present in [v]. *)
Definition unit_sum (v : string) : float :=
  let mins := add_unit 0%float (unit_digits "h" v) (fun n => (n * 60)%float) in
  let mins := add_unit mins (unit_digits "m" v) (fun n => n) in
  add_unit mins (unit_digits "s" v) (fun n => (n / 60)%float).

Lemma unit_exec_hms (u : ascii) (v : string) :
  u = "h"%char \/ u = "m"%char \/ u = "s"%char ->
  option_map (fun m => Regex.group m 1) (Regex.exec (re_unit u) v) = unit_digits u v.
Proof. intros Hu. apply unit_exec. now apply unit_letter_hms. Qed.

(** Past the clock pattern, [parseMinutes] is the unit sum when positive
    and the bare number otherwise. *)
Lemma parseMinutes_not_clock (value : string) :
  trim value <> EmptyString ->
  Regex.exec re_hms (trim value) = None ->
  parseMinutes value
  = if (0 <? unit_sum (trim value))%float then Some (Math_round (unit_sum (trim value)))
    else if negb (is_nan (Number (trim value)))
         then Some (Math_round (Number (trim value))) else None.
Proof.
  intros Hne Hc. unfold parseMinutes. cbv zeta.
  destruct (trim value) as [| c r] eqn:Ev; [congruence |].
  cbn [JsString.truthy negb]. cbv iota. rewrite Hc.
  pose proof (unit_exec_hms "h" (String c r) (or_introl eq_refl)) as Eh.
  pose proof (unit_exec_hms "m" (String c r) (or_intror (or_introl eq_refl))) as Em.
  pose proof (unit_exec_hms "s" (String c r) (or_intror (or_intror eq_refl))) as Es.
  unfold unit_sum, add_unit. rewrite <- Eh, <- Em, <- Es.
  destruct (Regex.exec (re_unit "h") (String c r));
    destruct (Regex.exec (re_unit "m") (String c r));
    destruct (Regex.exec (re_unit "s") (String c r)); reflexivity.
Qed.

Lemma unit_follows_in (u : ascii) (l : list ascii) :
  unit_follows u l = true ->
  exists c, In c l /\ Ascii.eqb (Regex.canon c) (Regex.canon u) = true.
Proof.
  induction l as [| c l IH]; [discriminate |].
  simpl. destruct (is_space c).
  - intros H. destruct (IH H) as (c' & Hin & Hc). exists c'. auto.
  - intros H. exists c. auto.
Qed.

Lemma span_digits_rest (l ds rest : list ascii) :
  span_digits l = (ds, rest) -> forall c, In c rest -> In c l.
Proof.
  revert ds rest. induction l as [| c l IH]; intros ds rest.
  - simpl. intros [= <- <-]. auto.
  - simpl. destruct (is_digit c).
    + destruct (span_digits l) as [ds' rest'] eqn:E. intros [= <- <-] x Hx.
      right. exact (IH ds' rest' eq_refl x Hx).
    + intros [= <- <-]. auto.
Qed.

Lemma scan_unit_letter (u : ascii) (l ds : list ascii) :
  scan_unit u l = Some ds ->
  exists c, In c l /\ Ascii.eqb (Regex.canon c) (Regex.canon u) = true.
Proof.
  induction l as [| c l IH]; [discriminate |].
  cbn [scan_unit]. intros H.
  assert (Hrec : scan_unit u l = Some ds ->
                 exists x, In x (c :: l) /\ Ascii.eqb (Regex.canon x) (Regex.canon u) = true).
  { intros H'. destruct (IH H') as (x & Hin & Hx). exists x. split; [now right | exact Hx]. }
  destruct (is_digit c); [| exact (Hrec H)].
  destruct (span_digits (c :: l)) as [ds' rest] eqn:E.
  destruct (unit_follows u rest) eqn:F; [| exact (Hrec H)].
  destruct (unit_follows_in u rest F) as (x & Hin & Hx).
  exists x. split; [exact (span_digits_rest _ _ _ E x Hin) | exact Hx].
Qed.

Lemma list_ascii_app (a b : string) :
  list_ascii_of_string (a +:+ b) = (list_ascii_of_string a ++ list_ascii_of_string b)%list.
Proof. induction a as [| c a IH]; simpl; [reflexivity | now rewrite IH]. Qed.

Lemma all_digits_in (s : string) (c : ascii) :
  all_digits s = true -> In c (list_ascii_of_string s) -> is_digit c = true.
Proof. unfold all_digits. rewrite forallb_forall. auto. Qed.

Lemma clock_shape_chars (v : string) (c : ascii) :
  clock_shape v -> In c (list_ascii_of_string v) -> is_digit c = true \/ c = ":"%char.
Proof.
  intros (hs & ms & ss & -> & Hh & _ & Hm & _ & Hs & _).
  rewrite !list_ascii_app, !in_app_iff. simpl.
  intuition (subst; eauto using all_digits_in).
Qed.

(** A string of the clock shape holds no unit. *)
Lemma clock_shape_no_unit (u : ascii) (v : string) :
  unit_letter u -> clock_shape v -> unit_digits u v = None.
Proof.
  intros Hu Hc. unfold unit_digits.
  destruct (scan_unit u (list_ascii_of_string v)) as [ds |] eqn:E; [| reflexivity].
  destruct (scan_unit_letter u _ ds E) as (c & Hin & Hcu).
  destruct (Hu c Hcu) as (_ & Hd & Hcol).
  destruct (clock_shape_chars v c Hc Hin); congruence.
Qed.

Lemma unit_sum_clock (v : string) : clock_shape v -> unit_sum v = 0%float.
Proof.
  intros Hc. unfold unit_sum.
  rewrite !clock_shape_no_unit by (assumption || apply unit_letter_hms; tauto).
  reflexivity.
Qed.

Lemma unit_sum_positive (value : string) :
  (0 <? unit_sum (trim value))%float = true ->
  trim value <> EmptyString /\ Regex.exec re_hms (trim value) = None.
Proof.
  intros Hpos. split.
  - intros E. rewrite E in Hpos. vm_compute in Hpos. discriminate Hpos.
  - destruct (Regex.exec re_hms (trim value)) as [m |] eqn:E; [| reflexivity].
    rewrite (unit_sum_clock _ (hms_exec_shape _ m E)) in Hpos.
    vm_compute in Hpos. discriminate Hpos.
Qed.

(** C6, as the code has it.  For every duration string, the hours, minutes
    and seconds are the first integers that the letters h, m and s follow
    (in either case, white space allowed between the integer and the
    letter, the units in any order, an absent unit adding nothing); when
    hours*60 + minutes + seconds/60 is greater than zero, [parseMinutes]
    returns that sum rounded to the nearest integer. *)
Theorem parseMinutes_units (value : string) :
  (0 <? unit_sum (trim value))%float = true ->
  parseMinutes value = Some (Math_round (unit_sum (trim value))).
Proof.
  intros Hpos. destruct (unit_sum_positive value Hpos) as [Hne Hc].
  rewrite (parseMinutes_not_clock value Hne Hc), Hpos. reflexivity.
Qed.

(** "2h 25m" gives 145, "49m 21s" gives 49 and "1h" gives 60. *)
Lemma parseMinutes_units_witness :
  parseMinutes "2h 25m" = Some 145%float
  /\ parseMinutes "49m 21s" = Some 49%float
  /\ parseMinutes "1h" = Some 60%float.
Proof.
  split; [| split].
  - exact (parseMinutes_units "2h 25m" eq_refl).
  - exact (parseMinutes_units "49m 21s" eq_refl).
  - exact (parseMinutes_units "1h" eq_refl).
Defined.

(** C6, as the specification states it: every string with an integer before
    a unit letter yields the rounded sum.  "0m" holds the integer 0 before
    the letter m, its sum is zero, and [parseMinutes] returns null, not 0. *)
Lemma parseMinutes_units_zero :
  unit_digits "m" "0m" = Some "0"
  /\ Math_round (unit_sum "0m") = 0%float
  /\ parseMinutes "0m" = None
  /\ parseMinutes "0m" <> Some (Math_round (unit_sum "0m")).
Proof. vm_compute. repeat split; discriminate. Qed.

(** ** The bare-number fallback *)




(** ** The calendar *)

Module DateFacts.
Import JsDate.

Lemma year_ok (d : Z) :
  -100000000 <= d <= 100000000 ->
  DayFromYear (YearFromDay d) <= d < DayFromYear (YearFromDay d + 1).
Proof.
  intros H. unfold YearFromDay.
  repeat match goal with
         | |- context [(?a <=? ?b)%Z] => destruct (Z.leb_spec a b)
         end;
    unfold DayFromYear in *; Z.div_mod_to_equations; lia.
Qed.

Lemma year_range (d : Z) :
  -100000000 <= d <= 100000000 -> -999999 <= YearFromDay d <= 999999.
Proof.
  intros H. unfold YearFromDay.
  repeat match goal with
         | |- context [(?a <=? ?b)%Z] => destruct (Z.leb_spec a b)
         end;
    Z.div_mod_to_equations; lia.
Qed.

Lemma leap_cases (y : Z) : InLeapYear y = 0 \/ InLeapYear y = 1.
Proof. unfold InLeapYear. destruct (DaysInYear y =? 366)%Z; auto. Qed.

Lemma days_in_year (y : Z) : DaysInYear y = 365 + InLeapYear y.
Proof.
  unfold InLeapYear. destruct (Z.eqb_spec (DaysInYear y) 366) as [E | E]; [lia |].
  revert E. unfold DaysInYear, DayFromYear. Z.div_mod_to_equations. lia.
Qed.

Lemma month_range (leap dwy : Z) : 0 <= MonthFromDay leap dwy <= 11.
Proof.
  unfold MonthFromDay.
  repeat match goal with
         | |- context [(?a <? ?b)%Z] => destruct (Z.ltb_spec a b)
         end; lia.
Qed.

Lemma date_range (leap dwy : Z) :
  leap = 0 \/ leap = 1 -> 0 <= dwy < 365 + leap ->
  1 <= dwy - MonthStart leap (MonthFromDay leap dwy) + 1 <= 31.
Proof.
  intros Hl Hd. unfold MonthFromDay.
  repeat match goal with
         | |- context [(?a <? ?b)%Z] => destruct (Z.ltb_spec a b)
         end; simpl MonthStart; lia.
Qed.

(** The fields every valid date has. *)
Record fields_ok (f : fields) : Prop := FieldsOk {
  ok_year : -999999 <= f_year f <= 999999;
  ok_month : 1 <= f_month f <= 12;
  ok_date : 1 <= f_date f <= 31;
  ok_hour : 0 <= f_hour f <= 23;
  ok_min : 0 <= f_min f <= 59;
  ok_sec : 0 <= f_sec f <= 59;
  ok_ms : 0 <= f_ms f <= 999
}.

Lemma valid_day (t : Z) : Z.abs t <= maxTime -> -100000000 <= Day t <= 100000000.
Proof. unfold maxTime, Day, msPerDay. intros H. Z.div_mod_to_equations. lia. Qed.

Lemma to_fields_ok (t : Z) : Z.abs t <= maxTime -> fields_ok (to_fields t).
Proof.
  intros Ht. pose proof (valid_day t Ht) as Hd.
  pose proof (year_ok _ Hd) as Hy. pose proof (year_range _ Hd) as Hr.
  unfold to_fields. split; cbn [f_year f_month f_date f_hour f_min f_sec f_ms].
  - exact Hr.
  - pose proof (month_range (InLeapYear (YearFromDay (Day t)))
                  (Day t - DayFromYear (YearFromDay (Day t)))). lia.
  - apply date_range; [apply leap_cases |].
    pose proof (days_in_year (YearFromDay (Day t))) as D. unfold DaysInYear in D. lia.
  - unfold TimeWithinDay, msPerDay. Z.div_mod_to_equations. lia.
  - unfold TimeWithinDay, msPerDay. Z.div_mod_to_equations. lia.
  - unfold TimeWithinDay, msPerDay. Z.div_mod_to_equations. lia.
  - unfold TimeWithinDay, msPerDay. Z.div_mod_to_equations. lia.
Qed.

(** The fields determine the time value. *)
Lemma to_fields_inj (t1 t2 : Z) : to_fields t1 = to_fields t2 -> t1 = t2.
Proof.
  unfold to_fields. intros E. injection E as Ey Em Ed Eh Emi Es Ems.
  assert (Ew : TimeWithinDay t1 = TimeWithinDay t2).
  { revert Eh Emi Es Ems. generalize (TimeWithinDay t1) (TimeWithinDay t2).
    intros w1 w2. Z.div_mod_to_equations. lia. }
  assert (ED : Day t1 = Day t2).
  { rewrite <- Ey in *.
    assert (Em' : MonthFromDay (InLeapYear (YearFromDay (Day t1)))
                       (Day t1 - DayFromYear (YearFromDay (Day t1)))
                  = MonthFromDay (InLeapYear (YearFromDay (Day t1)))
                       (Day t2 - DayFromYear (YearFromDay (Day t1)))) by lia.
    rewrite <- Em' in Ed. lia. }
  unfold Day, TimeWithinDay, msPerDay in *. Z.div_mod_to_equations. lia.
Qed.

End DateFacts.

(** ** Strings: append, length and lower case *)

#[local] Arguments String.append !s1 s2 : simpl nomatch.

Lemma append_assoc (a b c : string) : (a +:+ b) +:+ c = a +:+ (b +:+ c).
Proof. induction a as [| x a IH]; simpl; [reflexivity | now f_equal]. Qed.

Lemma append_length (a b : string) :
  String.length (a +:+ b) = (String.length a + String.length b)%nat.
Proof. induction a as [| x a IH]; simpl; [reflexivity | now f_equal]. Qed.

(** Two prefixes of the same length of one string are equal, and so are
    the rests. *)
Lemma append_eq_length (a b r1 r2 : string) :
  String.length a = String.length b -> a +:+ r1 = b +:+ r2 -> a = b /\ r1 = r2.
Proof.
  revert b. induction a as [| x a IH]; intros [| y b]; simpl; try discriminate.
  - auto.
  - intros [= L] [= -> E]. destruct (IH b L E) as [-> ->]. auto.
Qed.

Lemma toLowerCase_app (a b : string) :
  toLowerCase (a +:+ b) = toLowerCase a +:+ toLowerCase b.
Proof. induction a as [| x a IH]; simpl; [reflexivity | now f_equal]. Qed.

Lemma toLowerCase_length (a : string) :
  String.length (toLowerCase a) = String.length a.
Proof. induction a as [| x a IH]; simpl; [reflexivity | now f_equal]. Qed.

Module IsoFacts.
Import JsDate DateFacts.

Lemma digit_char_lower (n : Z) : lower_char (digit_char n) = digit_char n.
Proof.
  unfold digit_char.
  assert (H : 0 <= n mod 10 < 10) by (apply Z.mod_pos_bound; lia).
  assert (C : n mod 10 = 0 \/ n mod 10 = 1 \/ n mod 10 = 2 \/ n mod 10 = 3
            \/ n mod 10 = 4 \/ n mod 10 = 5 \/ n mod 10 = 6 \/ n mod 10 = 7
            \/ n mod 10 = 8 \/ n mod 10 = 9) by lia.
  repeat (destruct C as [-> | C]; [reflexivity |]). rewrite C. reflexivity.
Qed.

Lemma digit_char_is_digit (n : Z) : is_digit (digit_char n) = true.
Proof.
  unfold digit_char.
  assert (H : 0 <= n mod 10 < 10) by (apply Z.mod_pos_bound; lia).
  assert (C : n mod 10 = 0 \/ n mod 10 = 1 \/ n mod 10 = 2 \/ n mod 10 = 3
            \/ n mod 10 = 4 \/ n mod 10 = 5 \/ n mod 10 = 6 \/ n mod 10 = 7
            \/ n mod 10 = 8 \/ n mod 10 = 9) by lia.
  repeat (destruct C as [-> | C]; [reflexivity |]). rewrite C. reflexivity.
Qed.

Lemma digit_char_inj (n m : Z) : digit_char n = digit_char m -> n mod 10 = m mod 10.
Proof.
  unfold digit_char. intros E.
  assert (Hn : 0 <= n mod 10 < 10) by (apply Z.mod_pos_bound; lia).
  assert (Hm : 0 <= m mod 10 < 10) by (apply Z.mod_pos_bound; lia).
  apply (f_equal N_of_ascii) in E. rewrite !N_ascii_embedding in E by lia. lia.
Qed.

Lemma pad_length (w : nat) (n : Z) : String.length (pad w n) = w.
Proof.
  revert n. induction w as [| w IH]; intros n; simpl; [reflexivity |].
  rewrite append_length, IH. simpl. lia.
Qed.

Lemma pad_lower (w : nat) (n : Z) : toLowerCase (pad w n) = pad w n.
Proof.
  revert n. induction w as [| w IH]; intros n; simpl; [reflexivity |].
  rewrite toLowerCase_app, IH. simpl. now rewrite digit_char_lower.
Qed.

Lemma pad_inj (w : nat) (n m : Z) :
  0 <= n < 10 ^ Z.of_nat w -> 0 <= m < 10 ^ Z.of_nat w ->
  pad w n = pad w m -> n = m.
Proof.
  revert n m. induction w as [| w IH]; intros n m Hn Hm.
  - simpl in Hn, Hm. lia.
  - rewrite Nat2Z.inj_succ, Z.pow_succ_r in Hn, Hm by lia.
    simpl. intros E.
    apply append_eq_length in E; [| now rewrite !pad_length].
    destruct E as [E1 E2]. injection E2 as E2. apply digit_char_inj in E2.
    apply IH in E1; [| Z.div_mod_to_equations; lia ..].
    Z.div_mod_to_equations. lia.
Qed.

(** The first character of a padded number is a digit. *)
Lemma pad_head (w : nat) (n : Z) :
  exists c r, pad (S w) n = String c r /\ is_digit c = true.
Proof.
  revert n. induction w as [| w IH]; intros n.
  - simpl. eauto using digit_char_is_digit.
  - destruct (IH (n / 10)) as (c & r & E & Hc).
    change (pad (S (S w)) n) with (pad (S w) (n / 10) +:+ String (digit_char n) EmptyString).
    rewrite E. simpl. eauto.
Qed.

End IsoFacts.

Module IsoInj.
Import JsDate DateFacts IsoFacts.

#[local] Arguments pad : simpl never.

Lemma iso_year_lower (y : Z) : toLowerCase (iso_year y) = iso_year y.
Proof.
  unfold iso_year. destruct ((0 <=? y)%Z && (y <=? 9999)%Z); [apply pad_lower |].
  rewrite toLowerCase_app, pad_lower. now destruct (y <? 0)%Z.
Qed.

Lemma string_cons_inj (c d : ascii) (a b : string) :
  String c a = String d b -> c = d /\ a = b.
Proof. intros [= -> ->]. auto. Qed.

Lemma iso_year_cases (y : Z) :
  (0 <= y <= 9999 /\ iso_year y = pad 4 y)
  \/ (y < 0 /\ iso_year y = String "-" (pad 6 (- y)))
  \/ (9999 < y /\ iso_year y = String "+" (pad 6 y)).
Proof.
  unfold iso_year.
  destruct (Z.leb_spec 0 y), (Z.leb_spec y 9999); cbn [andb];
    destruct (Z.ltb_spec y 0); try lia.
  - left. auto with zarith.
  - right. right. rewrite Z.abs_eq by lia. auto with zarith.
  - right. left. rewrite Z.abs_neq by lia. auto with zarith.
Qed.

(** The year field ends where it ends: it is read back from the front of
    any string it starts. *)
Lemma iso_year_inj (y1 y2 : Z) (r1 r2 : string) :
  -999999 <= y1 <= 999999 -> -999999 <= y2 <= 999999 ->
  iso_year y1 +:+ r1 = iso_year y2 +:+ r2 -> y1 = y2 /\ r1 = r2.
Proof.
  intros H1 H2.
  assert (P : forall w a b s1 s2,
             0 <= a < 10 ^ Z.of_nat w -> 0 <= b < 10 ^ Z.of_nat w ->
             pad w a +:+ s1 = pad w b +:+ s2 -> a = b /\ s1 = s2).
  { intros w a b s1 s2 Ha Hb E.
    apply append_eq_length in E; [| now rewrite !pad_length].
    destruct E as [E ->]. split; [exact (pad_inj w a b Ha Hb E) | reflexivity]. }
  assert (D : forall a s1 c s2, pad 4 a +:+ s1 = String c s2 -> is_digit c = true).
  { intros a s1 c s2 E. destruct (pad_head 3 a) as (c' & r & Ep & Hc).
    rewrite Ep in E. cbn [String.append] in E.
    apply string_cons_inj in E as [<- _]. exact Hc. }
  destruct (iso_year_cases y1) as [[R1 ->] | [[R1 ->] | [R1 ->]]];
    destruct (iso_year_cases y2) as [[R2 ->] | [[R2 ->] | [R2 ->]]];
    cbn [String.append]; intros E.
  - apply P in E; [exact E | simpl; lia ..].
  - apply D in E. discriminate E.
  - apply D in E. discriminate E.
  - symmetry in E. apply D in E. discriminate E.
  - apply string_cons_inj in E as [_ E]. apply P in E; [| simpl; lia ..].
    destruct E. split; [lia | assumption].
  - discriminate E.
  - symmetry in E. apply D in E. discriminate E.
  - discriminate E.
  - apply string_cons_inj in E as [_ E]. apply P in E; [exact E | simpl; lia ..].
Qed.

(** The lower-cased ISO string of the fields [f], followed by [r]. *)
Definition lower_iso (f : fields) (r : string) : string :=
  iso_year (f_year f) +:+ "-" +:+ pad 2 (f_month f) +:+ "-" +:+ pad 2 (f_date f)
  +:+ "t" +:+ pad 2 (f_hour f) +:+ ":" +:+ pad 2 (f_min f) +:+ ":" +:+ pad 2 (f_sec f)
  +:+ "." +:+ pad 3 (f_ms f) +:+ "z" +:+ r.

Lemma toISOString_lower (t : Z) (r : string) :
  toLowerCase (toISOString t) +:+ r = lower_iso (to_fields t) r.
Proof.
  unfold toISOString, lower_iso.
  rewrite !toLowerCase_app, !pad_lower, iso_year_lower.
  rewrite !append_assoc. reflexivity.
Qed.

Ltac peel_pad E :=
  cbn [String.append] in E; apply string_cons_inj in E as [_ E];
  apply append_eq_length in E; [| now rewrite !pad_length];
  let P := fresh "P" in destruct E as [P E];
  apply pad_inj in P; [| simpl; lia ..].

Lemma lower_iso_inj (f1 f2 : fields) (r1 r2 : string) :
  fields_ok f1 -> fields_ok f2 -> lower_iso f1 r1 = lower_iso f2 r2 -> f1 = f2.
Proof.
  intros [] [] E. unfold lower_iso in E.
  apply iso_year_inj in E; [| assumption ..]. destruct E as [Ey E].
  peel_pad E. peel_pad E. peel_pad E. peel_pad E. peel_pad E. peel_pad E.
  destruct f1, f2. simpl in *. congruence.
Qed.

(** The ISO strings of two valid dates, lower-cased and followed by
    anything, agree only when the dates do. *)
Lemma toISOString_inj (t1 t2 : Z) (r1 r2 : string) :
  Z.abs t1 <= maxTime -> Z.abs t2 <= maxTime ->
  toLowerCase (toISOString t1) +:+ r1 = toLowerCase (toISOString t2) +:+ r2 ->
  t1 = t2.
Proof.
  intros H1 H2 E. rewrite !toISOString_lower in E.
  apply to_fields_inj.
  exact (lower_iso_inj _ _ r1 r2 (to_fields_ok t1 H1) (to_fields_ok t2 H2) E).
Qed.

(** An ISO string starts with a digit or a sign. *)
Lemma toISOString_head (t : Z) :
  exists c r, toLowerCase (toISOString t) = String c r /\ c <> "|"%char.
Proof.
  pose proof (toISOString_lower t EmptyString) as E. unfold lower_iso in E.
  assert (A : forall s, s +:+ "" = s) by (induction s; simpl; congruence).
  rewrite A in E. rewrite E. unfold iso_year.
  destruct ((0 <=? f_year (to_fields t))%Z && (f_year (to_fields t) <=? 9999)%Z).
  - destruct (pad_head 3 (f_year (to_fields t))) as (c & r & -> & Hc).
    simpl. exists c. eexists. split; [reflexivity |]. intros ->. discriminate Hc.
  - destruct (f_year (to_fields t) <? 0)%Z; simpl; eexists; eexists;
      (split; [reflexivity | discriminate]).
Qed.

End IsoInj.

(** ** A date parser for the examples

    An instance of the engine's date parser: the ISO 8601 forms
    [YYYY-MM-DDTHH:mm:ssZ] and [YYYY-MM-DDTHH:mm:ss.sssZ], which every
    engine reads alike.  Any other string is not a date here. *)

Definition digits_opt (l : list ascii) : option Z :=
  if forallb is_digit l then Some (digits_val l) else None.

Definition days_in_month (y mo : Z) : Z :=
  if (mo =? 12)%Z then 31
  else JsDate.MonthStart (JsDate.InLeapYear y) mo
       - JsDate.MonthStart (JsDate.InLeapYear y) (mo - 1).

Definition Date_parse_iso (v : string) : option Z :=
  match list_ascii_of_string v with
  | y1 :: y2 :: y3 :: y4 :: c1 :: m1 :: m2 :: c2 :: d1 :: d2 :: c3
    :: h1 :: h2 :: c4 :: n1 :: n2 :: c5 :: s1 :: s2 :: rest =>
      let seps :=
        Ascii.eqb c1 "-" && Ascii.eqb c2 "-" && Ascii.eqb c3 "T"
        && Ascii.eqb c4 ":" && Ascii.eqb c5 ":" in
      let millis :=
        match rest with
        | [z] => if Ascii.eqb z "Z" then Some 0 else None
        | [p; a; b; c; z] =>
            if Ascii.eqb p "." && Ascii.eqb z "Z" then digits_opt [a; b; c] else None
        | _ => None
        end in
      match digits_opt [y1; y2; y3; y4], digits_opt [m1; m2], digits_opt [d1; d2],
            digits_opt [h1; h2], digits_opt [n1; n2], digits_opt [s1; s2], millis with
      | Some y, Some mo, Some d, Some h, Some mi, Some s, Some ms =>
          if seps && (1 <=? mo)%Z && (mo <=? 12)%Z && (1 <=? d)%Z
             && (d <=? days_in_month y mo)%Z
             && (h <=? 23)%Z && (mi <=? 59)%Z && (s <=? 59)%Z
          then
            Some ((JsDate.DayFromYear y
                   + JsDate.MonthStart (JsDate.InLeapYear y) (mo - 1) + d - 1)
                  * JsDate.msPerDay
                  + h * 3600000 + mi * 60000 + s * 1000 + ms)
          else None
      | _, _, _, _, _, _, _ => None
      end
  | _ => None
  end.


(** ** The session key *)

Section SessionKey.

Variable Date_parse : string -> option Z.

Lemma parseDate_valid (v : string) (t : Z) :
  parseDate Date_parse v = Some t -> Z.abs t <= JsDate.maxTime.
Proof.
  unfold parseDate, JsDate.TimeClip.
  destruct (negb (JsString.truthy (trim v))); [discriminate |].
  destruct (Date_parse (trim v)) as [t' |]; [| discriminate].
  destruct (Z.leb_spec (Z.abs t') JsDate.maxTime); [| discriminate].
  now intros [= <-].
Qed.

(** The part of the key from the start time on. *)
Definition key_tail (startTime endTime : option Z) (meetingName : option string)
  : string :=
  toLowerCase (iso_or_empty startTime) +:+ "|"
  +:+ toLowerCase (iso_or_empty endTime) +:+ "|"
  +:+ toLowerCase (default EmptyString meetingName).

Lemma sessionKey_parts (intake : string) (year : float) (moduleCode : string)
    (startTime endTime : option Z) (meetingName : option string) :
  sessionKey intake year moduleCode startTime endTime meetingName
  = toLowerCase intake +:+ "|" +:+ toLowerCase (NumberToString year) +:+ "|"
    +:+ toLowerCase moduleCode +:+ "|" +:+ key_tail startTime endTime meetingName.
Proof. unfold sessionKey, key_tail. rewrite !toLowerCase_app. reflexivity. Qed.


End SessionKey.

(** ** An example export *)

Module Example.

Definition tsv (fields : list string) : string :=
  String.concat (String TAB EmptyString) fields.

Definition unlines (ls : list string) : string :=
  String.concat (String LF EmptyString) ls.

Definition header : string :=
  tsv ["Name"; "First Join"; "Last Leave"; "In-Meeting Duration"; "Email";
       "Participant ID (UPN)"; "Role"].

Definition export_lines : list string :=
  [ "1. Summary";
    tsv ["Meeting title"; "Weekly Standup"];
    tsv ["Attended participants"; "4"];
    tsv ["Start time"; "2026-02-10T09:00:00Z"];
    tsv ["End time"; "2026-02-10T10:00:00Z"];
    tsv ["Meeting duration"; "1h 0m 5s"];
    "";
    "2. Participants";
    header;
    tsv ["Alice A"; "2026-02-10T09:00:10Z"; "2026-02-10T09:59:00Z"; "58m 50s";
         "Alice@stu.nexteducationgroup.com"; "alice@stu.nexteducationgroup.com"; "Attendee"];
    tsv ["Bob B"; "2026-02-10T08:55:00Z"; "2026-02-10T10:00:00Z"; "1:02:30";
         "bob@nexteducationgroup.com"; "bob@nexteducationgroup.com"; "Organizer"];
    tsv ["Guest"; "2026-02-10T09:10:00Z"; "2026-02-10T09:55:00Z"; "45:00"; ""; ""; "Attendee"];
    tsv ["Alice A"; "2026-02-10T09:59:30Z"; "2026-02-10T10:00:00Z"; "30s";
         "alice@stu.nexteducationgroup.com"; "alice@stu.nexteducationgroup.com"; "Attendee"];
    "";
    "3. In-Meeting Activities";
    tsv ["Name"; "Join Time"; "Leave Time"; "Duration"; "Email"; "Role"];
    tsv ["Alice A"; "2026-02-10T09:00:10Z"; "2026-02-10T09:59:00Z"; "58m 50s";
         "Alice@stu.nexteducationgroup.com"; "Attendee"] ].

Definition export : upload := mkUpload "attendance MN5070NU.csv" (unlines export_lines).

Definition request_of (intake year : string) (file : upload) : request :=
  mkRequest (Some intake) (Some year) (Some "mn5070nu") (Some file).

End Example.


(** ** Validation of the form fields *)

Definition INVALID_COHORT : string :=
  "Missing or invalid intake/year. Please select Intake + Year.".

Lemma normIntake_falsy (v : string) :
  JsString.truthy (normIntake v) = false <-> trim v = EmptyString.
Proof.
  unfold normIntake.
  destruct (String.eqb (toLowerCase (trim v)) "spring") eqn:E1.
  { split; [discriminate |]. intros E. rewrite E in E1. discriminate E1. }
  destruct (String.eqb (toLowerCase (trim v)) "summer") eqn:E2.
  { split; [discriminate |]. intros E. rewrite E in E2. discriminate E2. }
  destruct (String.eqb (toLowerCase (trim v)) "autumn" || String.eqb (toLowerCase (trim v)) "fall") eqn:E3.
  { split; [discriminate |]. intros E. rewrite E in E3. discriminate E3. }
  destruct (trim v); simpl; split; congruence.
Qed.

(** C3, as the specification states it: an intake outside Spring, Summer
    and Autumn, or a year that is not a positive integer, is refused.  The
    intake "Winter" and the year "-5" pass the check and the import runs
    to its end. *)
Lemma POST_accepts_other_cohort :
  (exists body st,
      POST Date_parse_iso (Example.request_of "Winter" "2026" Example.export) Prisma.empty
      = (Success body, st) /\ body_intake body = "Winter")
  /\ (exists body st,
         POST Date_parse_iso (Example.request_of "Spring" "-5" Example.export) Prisma.empty
         = (Success body, st) /\ body_year body = (-5)%float).
Proof.
  split.
  - destruct (POST Date_parse_iso (Example.request_of "Winter" "2026" Example.export)
                Prisma.empty) as [r st] eqn:E.
    assert (F : fst (POST Date_parse_iso (Example.request_of "Winter" "2026" Example.export)
                       Prisma.empty) = r) by now rewrite E.
    vm_compute in F. subst r. eexists _, st. split; reflexivity.
  - destruct (POST Date_parse_iso (Example.request_of "Spring" "-5" Example.export)
                Prisma.empty) as [r st] eqn:E.
    assert (F : fst (POST Date_parse_iso (Example.request_of "Spring" "-5" Example.export)
                       Prisma.empty) = r) by now rewrite E.
    vm_compute in F. subst r. eexists _, st. split; reflexivity.
Qed.

(** ** What a participants row writes *)

(** The two upserts of one iteration: the student key, the name, and the
    attendance columns. *)
Record row_data : Type := mkRow {
  row_key : string;
  row_name : option string;
  row_attendance : AttendanceData
}.

Definition row_counts (line : string) : bool :=
  JsString.truthy (trim line) && (2 <=? length (JsString.split TAB line))%nat.

Section Rows.

Variable Date_parse : string -> option Z.
Variable cols : columns.

(** The email of a row, trimmed and in lower case. *)
Definition row_email (line : string) : string :=
  toLowerCase (trim (part (JsString.split TAB line) (idxEmail cols))).

Definition row_of (i : nat) (line : string) : row_data :=
  let parts := JsString.split TAB line in
  let emailRaw := trim (part parts (idxEmail cols)) in
  let email := toLowerCase emailRaw in
  mkRow (student_key email i)
        (or_null (trim (part parts (idxName cols))))
        (mkAttendanceData emailRaw
           (match idxFirstJoin cols with Some j => parseDate Date_parse (part parts j) | None => None end)
           (match idxLastLeave cols with Some j => parseDate Date_parse (part parts j) | None => None end)
           (parseMinutes (part parts (idxDuration cols)))
           (match idxRole cols with Some j => or_null (trim (part parts j)) | None => None end)
           (endsWith email STUDENT_SUFFIX)).

(** The store after the two upserts of a row. *)
Definition write_row (sid : id) (r : row_data) (st : store) : store :=
  let '(student, st) := student_upsert (row_key r) (row_name r) st in
  snd (attendance_upsert sid (student_id student) (row_attendance r) st).

Definition count_row (r : row_data) (cnt : counters) : counters :=
  mkCounters (S (rowsRead cnt)) (S (attendanceUpserted cnt))
    (if ad_isEligible (row_attendance r) then S (eligibleCount cnt) else eligibleCount cnt).

Lemma import_row_counts (session : Session) (i : nat) (line : string)
    (cnt : counters) (st : store) :
  import_row Date_parse cols session i line (cnt, st)
  = if row_counts line
    then (count_row (row_of i line) cnt, write_row (session_id session) (row_of i line) st)
    else (cnt, st).
Proof.
  unfold import_row, row_counts.
  destruct (JsString.truthy (trim line)); [| reflexivity]. cbn [negb andb].
  rewrite Nat.ltb_antisym.
  destruct (2 <=? length (JsString.split TAB line))%nat; [| reflexivity]. cbn [negb].
  unfold write_row, row_of, count_row. cbn [row_key row_name row_attendance ad_isEligible].
  destruct (student_upsert _ _ st) as [student st1].
  destruct (attendance_upsert _ _ _ st1) as [a st2]. reflexivity.
Qed.

(** The lines of the window that count, with their indices. *)
Fixpoint rows_of (i : nat) (lines : list string) : list row_data :=
  match lines with
  | [] => []
  | line :: rest =>
      if row_counts line then row_of i line :: rows_of (S i) rest
      else rows_of (S i) rest
  end.

Definition write_rows (sid : id) (rows : list row_data) (st : store) : store :=
  fold_left (fun st r => write_row sid r st) rows st.

Definition count_rows (rows : list row_data) (cnt : counters) : counters :=
  fold_left (fun cnt r => count_row r cnt) rows cnt.

Lemma import_rows_fold (session : Session) (lines : list string) (i : nat)
    (cnt : counters) (st : store) :
  import_rows Date_parse cols session i lines (cnt, st)
  = (count_rows (rows_of i lines) cnt,
     write_rows (session_id session) (rows_of i lines) st).
Proof.
  revert i cnt st. induction lines as [| line rest IH]; intros i cnt st.
  - reflexivity.
  - cbn [import_rows rows_of]. rewrite import_row_counts.
    destruct (row_counts line); rewrite IH; reflexivity.
Qed.

Lemma count_rows_read (rows : list row_data) (cnt : counters) :
  rowsRead (count_rows rows cnt) = (rowsRead cnt + length rows)%nat
  /\ attendanceUpserted (count_rows rows cnt) = (attendanceUpserted cnt + length rows)%nat.
Proof.
  revert cnt. induction rows as [| r rows IH]; intros cnt.
  - simpl. lia.
  - cbn [count_rows fold_left]. fold (count_rows rows (count_row r cnt)).
    destruct (IH (count_row r cnt)) as [-> ->]. simpl. lia.
Qed.

Lemma rows_of_length (i : nat) (lines : list string) :
  length (rows_of i lines) = length (filter (fun l => row_counts l = true) lines).
Proof.
  revert i. induction lines as [| line rest IH]; intros i; [reflexivity |].
  cbn [rows_of]. rewrite filter_cons.
  destruct (row_counts line) eqn:E.
  - rewrite decide_True by reflexivity. simpl. now rewrite IH.
  - rewrite decide_False by discriminate. apply IH.
Qed.

End Rows.

(** ** The phases of the handler *)

Definition MISSING_MODULE : string :=
  "Missing Module Code. Please select a Module Code (or include it in the filename).".
Definition MISSING_SECTION : string := "Could not find '2. Participants' section.".
Definition MISSING_HEADER : string :=
  "Could not find Participants table header for Section 2 (with 'In-Meeting Duration').".
Definition MISSING_COLUMNS : string :=
  "Missing required columns in Section 2 (need Name, Email, In-Meeting Duration).".

(** The checks before the file is read: the error, or the intake, the year,
    the module code and the file. *)
Definition validate (req : request) : string + (string * float * string * upload) :=
  let intake := normIntake (default EmptyString (form_intake req)) in
  let year := Number (default EmptyString (form_year req)) in
  if negb (JsString.truthy intake) || negb (JsNumber.truthy year) || is_nan year
  then inl INVALID_COHORT
  else
    match form_file req with
    | None => inl "No file uploaded"
    | Some file =>
        let moduleFromForm := normModuleCode (default EmptyString (form_moduleCode req)) in
        match (if JsString.truthy moduleFromForm then Some moduleFromForm
               else parseModuleCodeFromFilename (upload_name file)) with
        | None => inl MISSING_MODULE
        | Some moduleCode =>
            if negb (JsString.truthy moduleCode) then inl MISSING_MODULE
            else inr (intake, year, moduleCode, file)
        end
    end.

(** The Section 2 table: the error, or the columns, the index of the first
    row and the lines of the window after the header. *)
Definition locate (lines : list string) : string + (columns * nat * list string) :=
  match findIndex lines is_section2 0 with
  | None => inl MISSING_SECTION
  | Some idxSection2 =>
      let section2End :=
        default (length lines) (findIndex lines is_section3 (S idxSection2)) in
      match findIndex lines is_header (S idxSection2) with
      | None => inl MISSING_HEADER
      | Some headerIndex =>
          if (section2End <=? headerIndex)%nat then inl MISSING_HEADER
          else
            let header := map trim (JsString.split TAB (part lines headerIndex)) in
            let colIndex (name : string) := findIndex header (String.eqb name) 0 in
            match colIndex "Name", colIndex "Email", colIndex "In-Meeting Duration" with
            | Some iName, Some iEmail, Some iDuration =>
                inr (mkColumns iName iEmail (colIndex "First Join")
                       (colIndex "Last Leave") iDuration (colIndex "Role"),
                     S headerIndex,
                     drop (S headerIndex) (take section2End lines))
            | _, _, _ => inl MISSING_COLUMNS
            end
      end
  end.

Section Phases.

Variable Date_parse : string -> option Z.

Definition declared_duration (summary : gmap string string) : option float :=
  match parseMinutes (summary_get summary "Meeting duration") with
  | Some d => Some d
  | None => parseMinutes (summary_get summary "Duration")
  end.

(** The session columns read from the summary. *)
Definition session_data (intake : string) (year : float) (moduleCode : string)
    (lines : list string) : SessionData :=
  let summary := read_summary lines ∅ in
  mkSessionData moduleCode (summary !! "Meeting title")
    (parseDate Date_parse (summary_get summary "Start time"))
    (parseDate Date_parse (summary_get summary "End time"))
    (declared_duration summary) intake year.

Definition session_key_of (d : SessionData) : string :=
  sessionKey (sd_intake d) (sd_year d) (sd_moduleCode d) (sd_startTime d)
    (sd_endTime d) (sd_meetingName d).

(** The two upserts before Section 2 is looked for. *)
Definition open_session (d : SessionData) (st : store) : Session * store :=
  session_upsert (session_key_of d) d (module_upsert (sd_moduleCode d) (sd_moduleCode d) st).

(** The handler as the sequence of its phases. *)
Lemma POST_phases (req : request) (st : store) :
  POST Date_parse req st
  = match validate req with
    | inl msg => (Failure 400 msg, st)
    | inr (intake, year, moduleCode, file) =>
        let lines := split_lines (upload_text file) in
        let d := session_data intake year moduleCode lines in
        let '(session, st1) := open_session d st in
        match locate lines with
        | inl msg => (Failure 400 msg, st1)
        | inr (cols, start, window) =>
            let '(cnt, st2) :=
              import_rows Date_parse cols session start window (mkCounters 0 0 0, st1) in
            (Success (mkBody moduleCode intake year (session_id session)
                        (rowsRead cnt) (attendanceUpserted cnt) (eligibleCount cnt)
                        (sd_durationMin d) "section2_only"),
             st2)
        end
    end.
Proof.
  unfold POST, validate.
  destruct (negb (JsString.truthy (normIntake (default EmptyString (form_intake req))))
            || negb (JsNumber.truthy (Number (default EmptyString (form_year req))))
            || is_nan (Number (default EmptyString (form_year req)))); [reflexivity |].
  destruct (form_file req) as [file |]; [| reflexivity].
  destruct (if JsString.truthy (normModuleCode (default EmptyString (form_moduleCode req)))
            then Some (normModuleCode (default EmptyString (form_moduleCode req)))
            else parseModuleCodeFromFilename (upload_name file)) as [moduleCode |];
    [| reflexivity].
  destruct (negb (JsString.truthy moduleCode)); [reflexivity |].
  cbv zeta. unfold open_session, session_key_of, session_data, declared_duration.
  cbn [sd_intake sd_year sd_moduleCode sd_startTime sd_endTime sd_meetingName sd_durationMin].
  destruct (session_upsert _ _ _) as [session st1].
  unfold locate.
  destruct (findIndex (split_lines (upload_text file)) is_section2 0) as [i2 |];
    [| reflexivity].
  cbv zeta.
  destruct (findIndex (split_lines (upload_text file)) is_header (S i2)) as [h |];
    [| reflexivity].
  destruct (_ <=? h)%nat; [reflexivity |].
  destruct (findIndex _ (String.eqb "Name") 0) as [iName |]; [| reflexivity].
  destruct (findIndex _ (String.eqb "Email") 0) as [iEmail |]; [| reflexivity].
  destruct (findIndex _ (String.eqb "In-Meeting Duration") 0) as [iDuration |];
    [| reflexivity].
  destruct (import_rows _ _ _ _ _ _) as [cnt st2]. reflexivity.
Qed.

End Phases.

(** ** The upserts, table by table *)

Lemma module_upsert_tables (code name : string) (st : store) :
  sessions (module_upsert code name st) = sessions st
  /\ students (module_upsert code name st) = students st
  /\ attendances (module_upsert code name st) = attendances st
  /\ next_id (module_upsert code name st) = next_id st.
Proof. unfold module_upsert. destruct (modules st !! code); auto. Qed.

Lemma session_upsert_tables (key : string) (d : SessionData) (st : store) :
  modules (snd (session_upsert key d st)) = modules st
  /\ students (snd (session_upsert key d st)) = students st
  /\ attendances (snd (session_upsert key d st)) = attendances st.
Proof. unfold session_upsert. destruct (sessions st !! key); auto. Qed.

Section Section2.

Variable Date_parse : string -> option Z.

Lemma open_session_tables (d : SessionData) (st : store) :
  students (snd (open_session d st)) = students st
  /\ attendances (snd (open_session d st)) = attendances st.
Proof.
  unfold open_session.
  destruct (session_upsert_tables (session_key_of d) d
              (module_upsert (sd_moduleCode d) (sd_moduleCode d) st)) as (_ & -> & ->).
  destruct (module_upsert_tables (sd_moduleCode d) (sd_moduleCode d) st) as (_ & -> & -> & _).
  auto.
Qed.

Lemma validate_file (req : request) (intake : string) (year : float)
    (moduleCode : string) (file : upload) :
  validate req = inr (intake, year, moduleCode, file) -> form_file req = Some file.
Proof.
  unfold validate.
  destruct (negb (JsString.truthy (normIntake (default EmptyString (form_intake req))))
            || negb (JsNumber.truthy (Number (default EmptyString (form_year req))))
            || is_nan (Number (default EmptyString (form_year req)))); [discriminate |].
  destruct (form_file req) as [f |]; [| discriminate].
  destruct (if JsString.truthy (normModuleCode (default EmptyString (form_moduleCode req)))
            then Some (normModuleCode (default EmptyString (form_moduleCode req)))
            else parseModuleCodeFromFilename (upload_name f)) as [m |]; [| discriminate].
  destruct (negb (JsString.truthy m)); [discriminate |]. now intros [= _ _ _ ->].
Qed.



End Section2.

(** The example export without its Section 2 marker. *)
Definition export_without_marker : upload :=
  mkUpload "attendance MN5070NU.csv"
    (Example.unlines (filter (fun l => l <> "2. Participants") Example.export_lines)).


(** ** The counters of the response *)

Section Counters.

Variable Date_parse : string -> option Z.

(** C10. On every successful import the response's [rowsRead] and
    [attendanceUpserted] are equal: both count the lines of the Section 2
    window that are not blank and have at least two tab-separated fields,
    once each, whatever the stored records are. *)
Theorem POST_counters (req : request) (st st' : store) (body : summary_body) :
  POST Date_parse req st = (Success body, st') ->
  body_rowsRead body = body_attendanceUpserted body
  /\ exists file cols start window,
       form_file req = Some file
       /\ locate (split_lines (upload_text file)) = inr (cols, start, window)
       /\ body_rowsRead body = length (filter (fun l => row_counts l = true) window).
Proof.
  rewrite POST_phases.
  destruct (validate req) as [msg | [[[intake year] moduleCode] file]] eqn:V;
    [discriminate |].
  cbv zeta. destruct (open_session _ st) as [session st1].
  destruct (locate (split_lines (upload_text file))) as [msg | [[cols start] window]] eqn:L;
    [discriminate |].
  rewrite import_rows_fold. intros [= <- _].
  cbn [body_rowsRead body_attendanceUpserted].
  destruct (count_rows_read (rows_of Date_parse cols start window) (mkCounters 0 0 0))
    as [-> ->].
  split; [reflexivity |].
  exists file, cols, start, window.
  split; [exact (validate_file _ _ _ _ _ V) |]. split; [exact L |].
  cbn [rowsRead]. now rewrite rows_of_length.
Qed.

End Counters.

(** The example export has four rows, two of them of one student: both
    counters are 4 and three Attendance records are stored. *)
Lemma POST_counters_witness :
  let r := POST Date_parse_iso (Example.request_of "Spring" "2026" Example.export)
             Prisma.empty in
  exists body,
    fst r = Success body
    /\ body_rowsRead body = 4%nat /\ body_attendanceUpserted body = 4%nat
    /\ body_rowsRead body = body_attendanceUpserted body
    /\ size (attendances (snd r)) = 3%nat.
Proof.
  cbv zeta.
  destruct (POST Date_parse_iso (Example.request_of "Spring" "2026" Example.export)
              Prisma.empty) as [resp st'] eqn:E.
  assert (F : fst (POST Date_parse_iso (Example.request_of "Spring" "2026" Example.export)
                     Prisma.empty) = resp) by now rewrite E.
  assert (G : size (attendances (snd (POST Date_parse_iso
                (Example.request_of "Spring" "2026" Example.export) Prisma.empty))) = 3%nat)
    by (vm_compute; reflexivity).
  rewrite E in G. cbn [snd] in G.
  vm_compute in F. subst resp.
  eexists. split; [reflexivity |]. split; [reflexivity |]. split; [reflexivity |].
  split; [| exact G].
  exact (proj1 (POST_counters Date_parse_iso _ _ _ _ E)).
Defined.

(** ** Integrity of the store

    What the database guarantees of the Student table: [email] is the
    unique key, [id] is the primary key, and a generated id is new. *)

Record store_wf (st : store) : Prop := StoreWf {
  wf_email : forall k s, students st !! k = Some s -> student_email s = k;
  wf_ids : forall k1 k2 s1 s2,
      students st !! k1 = Some s1 -> students st !! k2 = Some s2 ->
      student_id s1 = student_id s2 -> k1 = k2;
  wf_fresh : forall k s, students st !! k = Some s -> (student_id s < next_id st)%positive
}.

Lemma empty_wf : store_wf Prisma.empty.
Proof. split; intros *; cbn; rewrite lookup_empty; discriminate. Qed.

Lemma store_wf_students (st st' : store) :
  students st' = students st -> (next_id st <= next_id st')%positive ->
  store_wf st -> store_wf st'.
Proof.
  intros E N [We Wi Wf]. split; rewrite E.
  - exact We.
  - exact Wi.
  - intros k s H. specialize (Wf k s H). lia.
Qed.

Lemma module_upsert_wf (code name : string) (st : store) :
  store_wf st -> store_wf (module_upsert code name st).
Proof.
  destruct (module_upsert_tables code name st) as (_ & E & _ & N).
  apply store_wf_students; [exact E | rewrite N; lia].
Qed.

Lemma session_upsert_next (key : string) (d : SessionData) (st : store) :
  (next_id st <= next_id (snd (session_upsert key d st)))%positive.
Proof. unfold session_upsert. destruct (sessions st !! key); cbn; lia. Qed.

Lemma session_upsert_wf (key : string) (d : SessionData) (st : store) :
  store_wf st -> store_wf (snd (session_upsert key d st)).
Proof.
  destruct (session_upsert_tables key d st) as (_ & E & _).
  apply store_wf_students; [exact E | apply session_upsert_next].
Qed.

Lemma attendance_upsert_students (sid uid : id) (d : AttendanceData) (st : store) :
  students (snd (attendance_upsert sid uid d st)) = students st
  /\ (next_id st <= next_id (snd (attendance_upsert sid uid d st)))%positive
  /\ modules (snd (attendance_upsert sid uid d st)) = modules st
  /\ sessions (snd (attendance_upsert sid uid d st)) = sessions st.
Proof.
  unfold attendance_upsert. destruct (attendances st !! (sid, uid)); cbn;
    repeat split; lia.
Qed.

Lemma attendance_upsert_wf (sid uid : id) (d : AttendanceData) (st : store) :
  store_wf st -> store_wf (snd (attendance_upsert sid uid d st)).
Proof.
  destruct (attendance_upsert_students sid uid d st) as (E & N & _).
  now apply store_wf_students.
Qed.

(** What a student upsert returns and stores. *)
Lemma student_upsert_spec (email : string) (name : option string) (st : store) :
  let '(s, st') := student_upsert email name st in
  students st' = <[email := s]> (students st)
  /\ student_email s = email
  /\ attendances st' = attendances st
  /\ modules st' = modules st /\ sessions st' = sessions st
  /\ (next_id st <= next_id st')%positive
  /\ match students st !! email with
     | Some old => student_id s = student_id old /\ next_id st' = next_id st
     | None => student_id s = next_id st /\ next_id st' = Pos.succ (next_id st)
     end.
Proof.
  unfold student_upsert. destruct (students st !! email) as [old |]; cbn;
    repeat split; lia.
Qed.

Lemma student_upsert_wf (email : string) (name : option string) (st : store) :
  store_wf st -> store_wf (snd (student_upsert email name st)).
Proof.
  intros [We Wi Wf]. pose proof (student_upsert_spec email name st) as S.
  destruct (student_upsert email name st) as [s st'].
  destruct S as (Es & Ee & _ & _ & _ & N & Hid). cbn [snd].
  split; rewrite Es.
  - intros k x. rewrite lookup_insert. case_decide; [| apply We].
    intros [= <-]. congruence.
  - intros k1 k2 s1 s2 H1 H2 E. rewrite lookup_insert in H1, H2.
    destruct (decide (email = k1)) as [E1 | N1], (decide (email = k2)) as [E2 | N2].
    + congruence.
    + injection H1 as <-. destruct (students st !! email) as [old |] eqn:Eo.
      * destruct Hid as [Hid _]. rewrite <- E1.
        symmetry. apply (Wi k2 email s2 old H2 Eo). congruence.
      * specialize (Wf k2 s2 H2). lia.
    + injection H2 as <-. destruct (students st !! email) as [old |] eqn:Eo.
      * destruct Hid as [Hid _]. rewrite <- E2.
        apply (Wi k1 email s1 old H1 Eo). congruence.
      * specialize (Wf k1 s1 H1). lia.
    + exact (Wi k1 k2 s1 s2 H1 H2 E).
  - intros k x. rewrite lookup_insert. case_decide.
    + intros [= <-]. destruct (students st !! email) as [old |] eqn:Eo.
      * destruct Hid as [-> _]. specialize (Wf email old Eo). lia.
      * destruct Hid as [-> ->]. lia.
    + intros Hk. specialize (Wf k x Hk). lia.
Qed.

Lemma write_row_wf (sid : id) (r : row_data) (st : store) :
  store_wf st -> store_wf (write_row sid r st).
Proof.
  intros W. unfold write_row.
  pose proof (student_upsert_wf (row_key r) (row_name r) st W) as W1.
  destruct (student_upsert (row_key r) (row_name r) st) as [s st1]. cbn [snd] in W1.
  now apply attendance_upsert_wf.
Qed.

Lemma write_rows_wf (sid : id) (rows : list row_data) (st : store) :
  store_wf st -> store_wf (write_rows sid rows st).
Proof.
  revert st. induction rows as [| r rows IH]; intros st W; [exact W |].
  apply IH. now apply write_row_wf.
Qed.

(** ** Suffixes and placeholder emails *)

Lemma endsWith_spec (s p : string) :
  endsWith s p = true <-> exists q, s = q +:+ p.
Proof.
  split.
  - induction s as [| c r IH]; cbn [endsWith].
    + rewrite orb_false_r. intros E. apply String.eqb_eq in E. exists EmptyString. now subst.
    + intros E. apply orb_prop in E as [E | E].
      * apply String.eqb_eq in E. exists EmptyString. now rewrite E.
      * destruct (IH E) as [q ->]. exists (String c q). reflexivity.
  - intros [q ->]. induction q as [| c q IH].
    + cbn [String.append]. destruct p; cbn [endsWith]; now rewrite String.eqb_refl.
    + cbn [String.append endsWith]. rewrite IH. apply orb_true_r.
Qed.

Fixpoint last_char (s : string) : option ascii :=
  match s with
  | EmptyString => None
  | String c EmptyString => Some c
  | String _ r => last_char r
  end.

Lemma last_char_app (a b : string) :
  b <> EmptyString -> last_char (a +:+ b) = last_char b.
Proof.
  intros Hb. induction a as [| c a IH]; [reflexivity |].
  cbn [String.append]. destruct (a +:+ b) eqn:E.
  - destruct a; [cbn in E; congruence | discriminate E].
  - cbn [last_char]. exact IH.
Qed.

Definition placeholder (i : nat) : string := "unknown-" +:+ pretty i +:+ "@invalid.local".

Lemma placeholder_not_student (i : nat) : endsWith (placeholder i) STUDENT_SUFFIX = false.
Proof.
  destruct (endsWith (placeholder i) STUDENT_SUFFIX) eqn:E; [| reflexivity].
  apply endsWith_spec in E as [q E].
  apply (f_equal last_char) in E. unfold placeholder in E.
  rewrite <- append_assoc in E.
  rewrite (last_char_app _ "@invalid.local"), (last_char_app q STUDENT_SUFFIX) in E
    by discriminate.
  discriminate E.
Qed.

Lemma placeholder_inj (i j : nat) : placeholder i = placeholder j -> i = j.
Proof.
  unfold placeholder. intros E. apply String.app_inj in E.
  assert (L : forall a b t, a +:+ t = b +:+ t -> a = b).
  { intros a b t. revert b. induction a as [| x a IH]; intros [| y b] H.
    - reflexivity.
    - apply (f_equal String.length) in H. rewrite !append_length in H. simpl in H. lia.
    - apply (f_equal String.length) in H. rewrite !append_length in H. simpl in H. lia.
    - cbn [String.append] in H. injection H as -> H. f_equal. now apply IH. }
  apply L in E. now apply (inj pretty) in E.
Qed.

Lemma student_key_empty (i : nat) : student_key EmptyString i = placeholder i.
Proof. reflexivity. Qed.

(** Whether a student key is a student address decides the eligibility
    of every row under that key. *)
Lemma student_key_eligible (email : string) (i : nat) :
  endsWith (student_key email i) STUDENT_SUFFIX = endsWith email STUDENT_SUFFIX.
Proof.
  unfold student_key. destruct email as [| c r]; [| reflexivity].
  cbn [JsString.truthy]. exact (placeholder_not_student i).
Qed.

(** ** What the store holds after the rows *)

(** The session [sid] has a record for the student under key [k], and its
    eligibility flag is that of the key. *)
Definition recorded (sid : id) (k : string) (st : store) : Prop :=
  exists stu att,
    students st !! k = Some stu
    /\ attendances st !! (sid, student_id stu) = Some att
    /\ attendance_sessionId att = sid
    /\ attendance_studentId att = student_id stu
    /\ attendance_isEligible att = endsWith k STUDENT_SUFFIX.

(** A row whose flag is that of its key, as [row_of] builds them. *)
Definition row_consistent (r : row_data) : Prop :=
  ad_isEligible (row_attendance r) = endsWith (row_key r) STUDENT_SUFFIX.

Lemma attendance_upsert_spec (sid uid : id) (d : AttendanceData) (st : store) :
  exists a,
    attendances (snd (attendance_upsert sid uid d st)) = <[(sid, uid) := a]> (attendances st)
    /\ attendance_sessionId a = sid /\ attendance_studentId a = uid
    /\ attendance_isEligible a = ad_isEligible d.
Proof.
  unfold attendance_upsert. destruct (attendances st !! (sid, uid)); cbn; eauto.
Qed.

Lemma write_row_records (sid : id) (r : row_data) (st : store) :
  row_consistent r -> recorded sid (row_key r) (write_row sid r st).
Proof.
  intros C. unfold write_row.
  pose proof (student_upsert_spec (row_key r) (row_name r) st) as S.
  destruct (student_upsert (row_key r) (row_name r) st) as [s st1].
  destruct S as (Es & _).
  destruct (attendance_upsert_spec sid (student_id s) (row_attendance r) st1)
    as (a & Ea & Hs & Hu & He).
  destruct (attendance_upsert_students sid (student_id s) (row_attendance r) st1) as (E1 & _).
  exists s, a. rewrite E1, Es, Ea, !lookup_insert_eq. repeat split; congruence.
Qed.

Lemma write_row_keeps (sid : id) (r : row_data) (k : string) (st : store) :
  store_wf st -> row_consistent r ->
  recorded sid k st -> recorded sid k (write_row sid r st).
Proof.
  intros W C (stu & att & Hs & Ha & H1 & H2 & H3).
  destruct (decide (row_key r = k)) as [<- | Nk]; [now apply write_row_records |].
  unfold write_row.
  pose proof (student_upsert_spec (row_key r) (row_name r) st) as S.
  pose proof (student_upsert_wf (row_key r) (row_name r) st W) as W1.
  destruct (student_upsert (row_key r) (row_name r) st) as [s st1]. cbn [snd] in W1.
  destruct S as (Es & _ & Eatt & _).
  destruct (attendance_upsert_spec sid (student_id s) (row_attendance r) st1)
    as (a & Ea & _).
  destruct (attendance_upsert_students sid (student_id s) (row_attendance r) st1) as (E1 & _).
  assert (Hs1 : students st1 !! k = Some stu) by (rewrite Es, lookup_insert_ne; assumption).
  assert (Hr1 : students st1 !! row_key r = Some s) by (rewrite Es; apply lookup_insert_eq).
  exists stu, att. rewrite E1, Ea. split; [exact Hs1 |].
  split; [| auto].
  rewrite lookup_insert_ne; [now rewrite Eatt |].
  intros [= E]. apply Nk. exact (wf_ids st1 W1 _ _ _ _ Hr1 Hs1 E).
Qed.

Lemma write_rows_keep (sid : id) (rows : list row_data) (k : string) (st : store) :
  store_wf st -> Forall row_consistent rows ->
  recorded sid k st -> recorded sid k (write_rows sid rows st).
Proof.
  intros W C. revert st W. induction C as [| r rows Cr _ IH]; intros st W R; [exact R |].
  cbn [write_rows fold_left]. apply IH; [now apply write_row_wf | now apply write_row_keeps].
Qed.

Lemma write_rows_record (sid : id) (rows : list row_data) (r : row_data) (st : store) :
  store_wf st -> Forall row_consistent rows -> In r rows ->
  recorded sid (row_key r) (write_rows sid rows st).
Proof.
  intros W C. revert st W. induction C as [| r' rows Cr C IH]; intros st W Hin;
    [destruct Hin |].
  cbn [write_rows fold_left]. destruct Hin as [-> | Hin].
  - apply write_rows_keep; [now apply write_row_wf | exact C | now apply write_row_records].
  - apply IH; [now apply write_row_wf | exact Hin].
Qed.

Section RowsOf.

Variable Date_parse : string -> option Z.
Variable cols : columns.

Lemma row_of_key (i : nat) (line : string) :
  row_key (row_of Date_parse cols i line) = student_key (row_email cols line) i.
Proof. reflexivity. Qed.

Lemma row_of_consistent (i : nat) (line : string) :
  row_consistent (row_of Date_parse cols i line).
Proof.
  unfold row_consistent, row_of. cbn [row_key row_attendance ad_isEligible].
  symmetry. apply student_key_eligible.
Qed.

Lemma rows_of_consistent (i : nat) (lines : list string) :
  Forall row_consistent (rows_of Date_parse cols i lines).
Proof.
  revert i. induction lines as [| l ls IH]; intros i; cbn [rows_of]; [constructor |].
  destruct (row_counts l); [constructor; [apply row_of_consistent | apply IH] | apply IH].
Qed.

Lemma rows_of_in (i k : nat) (lines : list string) (line : string) :
  lines !! k = Some line -> row_counts line = true ->
  In (row_of Date_parse cols (i + k) line) (rows_of Date_parse cols i lines).
Proof.
  revert i k. induction lines as [| l ls IH]; intros i k; [discriminate |].
  destruct k as [| k]; cbn [rows_of].
  - intros [= ->] ->. rewrite Nat.add_0_r. now left.
  - intros Hk Hc. specialize (IH (S i) k Hk Hc).
    rewrite <- Nat.add_succ_comm.
    destruct (row_counts l); [right |]; exact IH.
Qed.

End RowsOf.

(** ** Eligibility and rows without an email *)

Section StoredRows.

Variable Date_parse : string -> option Z.

Lemma open_session_wf (d : SessionData) (st : store) :
  store_wf st -> store_wf (snd (open_session d st)).
Proof. intros W. unfold open_session. now apply session_upsert_wf, module_upsert_wf. Qed.

(** A successful import, phase by phase. *)
Lemma POST_success (req : request) (st st' : store) (body : summary_body) :
  POST Date_parse req st = (Success body, st') ->
  exists file cols start window st1,
    form_file req = Some file
    /\ locate (split_lines (upload_text file)) = inr (cols, start, window)
    /\ (store_wf st -> store_wf st1)
    /\ st' = write_rows (body_sessionId body) (rows_of Date_parse cols start window) st1.
Proof.
  rewrite POST_phases.
  destruct (validate req) as [msg | [[[intake year] moduleCode] file]] eqn:V;
    [discriminate |].
  cbv zeta.
  pose proof (open_session_wf
                (session_data Date_parse intake year moduleCode
                   (split_lines (upload_text file))) st) as W.
  destruct (open_session _ st) as [session st1]. cbn [snd] in W.
  destruct (locate (split_lines (upload_text file))) as [msg | [[cols start] window]] eqn:L;
    [discriminate |].
  rewrite import_rows_fold. intros [= <- <-]. cbn [body_sessionId].
  exists file, cols, start, window, st1.
  split; [exact (validate_file _ _ _ _ _ V) |]. auto.
Qed.

(** After a successful import on a store whose Student table is intact,
    every participant row of the Section 2 window has its Attendance
    record, for the session of the import and the student of the row, and
    the record's [isEligible] is true if and only if the email the handler
    computes for the row ends with "@stu.nexteducationgroup.com". *)
Lemma POST_eligibility_lower (req : request) (st st' : store) (body : summary_body) :
  store_wf st ->
  POST Date_parse req st = (Success body, st') ->
  exists file cols start window,
    form_file req = Some file
    /\ locate (split_lines (upload_text file)) = inr (cols, start, window)
    /\ forall k line,
         window !! k = Some line -> row_counts line = true ->
         exists stu att,
           students st' !! student_key (row_email cols line) (start + k)%nat = Some stu
           /\ attendances st' !! (body_sessionId body, student_id stu) = Some att
           /\ (attendance_isEligible att = true
               <-> exists local, row_email cols line = local +:+ "@stu.nexteducationgroup.com").
Proof.
  intros W H.
  destruct (POST_success req st st' body H)
    as (file & cols & start & window & st1 & Hf & L & W1 & ->).
  exists file, cols, start, window. split; [exact Hf |]. split; [exact L |].
  intros k line Hk Hc.
  destruct (write_rows_record (body_sessionId body) (rows_of Date_parse cols start window)
              (row_of Date_parse cols (start + k)%nat line) st1 (W1 W)
              (rows_of_consistent Date_parse cols start window)
              (rows_of_in Date_parse cols start k window line Hk Hc))
    as (stu & att & Hs & Ha & _ & _ & He).
  rewrite row_of_key in Hs, He. exists stu, att.
  split; [exact Hs |]. split; [exact Ha |].
  rewrite He, student_key_eligible. apply endsWith_spec.
Qed.

End StoredRows.

(** ** Importing twice: the Student table *)

(** The update of a student upsert on the stored record. *)
Definition rename (k : string) (n : option string) (s : Student) : Student :=
  mkStudent (student_id s) k (match n with Some x => Some x | None => student_name s end).

(** The updates of all rows under key [k], in order. *)
Definition renames (k : string) (rows : list row_data) (s : Student) : Student :=
  fold_left (fun s r => if decide (row_key r = k) then rename k (row_name r) s else s) rows s.

(** Renames compose into one: none at all, or one with the last name given. *)
Definition renamed (k : string) (acc : option (option string)) (s : Student) : Student :=
  match acc with Some n => rename k n s | None => s end.

Definition renames_acc (k : string) (rows : list row_data) (acc : option (option string))
  : option (option string) :=
  fold_left
    (fun acc r =>
       if decide (row_key r = k) then
         Some (match row_name r with
               | Some x => Some x
               | None => match acc with Some m => m | None => None end
               end)
       else acc) rows acc.

Lemma renames_renamed (k : string) (rows : list row_data) (acc : option (option string))
    (s : Student) :
  renames k rows (renamed k acc s) = renamed k (renames_acc k rows acc) s.
Proof.
  unfold renames, renames_acc.
  revert acc. induction rows as [| r rows IH]; intros acc; [reflexivity |].
  cbn [fold_left].
  destruct (decide (row_key r = k)) as [E | N]; [| apply IH].
  rewrite <- IH. f_equal.
  destruct acc as [[m |] |], (row_name r); reflexivity.
Qed.

Lemma renamed_twice (k : string) (acc : option (option string)) (s : Student) :
  renamed k acc (renamed k acc s) = renamed k acc s.
Proof. destruct acc as [[m |] |]; reflexivity. Qed.

Lemma renames_twice (k : string) (rows : list row_data) (s : Student) :
  renames k rows (renames k rows s) = renames k rows s.
Proof.
  assert (R : forall x, renames k rows x = renamed k (renames_acc k rows None) x).
  { intros x. exact (renames_renamed k rows None x). }
  rewrite !R. apply renamed_twice.
Qed.

Lemma write_row_students (sid : id) (r : row_data) (st : store) (k : string) :
  students (write_row sid r st) !! k
  = if decide (row_key r = k)
    then Some (rename k (row_name r)
                 (default (mkStudent (next_id st) k None) (students st !! k)))
    else students st !! k.
Proof.
  unfold write_row.
  pose proof (student_upsert_spec (row_key r) (row_name r) st) as S.
  destruct (student_upsert (row_key r) (row_name r) st) as [s st1] eqn:U.
  destruct S as (Es & _).
  destruct (attendance_upsert_students sid (student_id s) (row_attendance r) st1) as (-> & _).
  rewrite Es, lookup_insert.
  destruct (decide (row_key r = k)) as [<- | N]; [| reflexivity].
  f_equal. unfold student_upsert in U.
  destruct (students st !! row_key r) as [old |]; injection U as <- _.
  - reflexivity.
  - unfold rename. cbn. now destruct (row_name r).
Qed.

(** An existing record goes through the renames of the rows. *)
Lemma write_rows_students_some (sid : id) (rows : list row_data) (st : store)
    (k : string) (x : Student) :
  students st !! k = Some x ->
  students (write_rows sid rows st) !! k = Some (renames k rows x).
Proof.
  revert st x. induction rows as [| r rows IH]; intros st x H; [exact H |].
  cbn [write_rows renames fold_left]. apply IH.
  rewrite write_row_students, H. now destruct (decide (row_key r = k)).
Qed.

Lemma write_rows_students_frame (sid : id) (rows : list row_data) (st : store)
    (k : string) :
  Forall (fun r => row_key r <> k) rows ->
  students (write_rows sid rows st) !! k = students st !! k.
Proof.
  intros H. revert st. induction H as [| r rows Hr _ IH]; intros st; [reflexivity |].
  cbn [write_rows fold_left]. fold (write_rows sid rows (write_row sid r st)).
  rewrite IH, write_row_students. now rewrite decide_False.
Qed.

(** After the rows, a key that some row has holds a record that went
    through all their renames. *)
Lemma write_rows_students_exists (sid : id) (rows : list row_data) (st : store)
    (k : string) :
  Exists (fun r => row_key r = k) rows ->
  exists b, students (write_rows sid rows st) !! k = Some (renames k rows b).
Proof.
  intros H. revert st. induction rows as [| r rows IH]; intros st; [inversion H |].
  cbn [write_rows renames fold_left]. fold (write_rows sid rows (write_row sid r st)).
  destruct (decide (row_key r = k)) as [E | N].
  - eexists. apply write_rows_students_some. rewrite write_row_students.
    rewrite decide_True by exact E. reflexivity.
  - apply Exists_cons in H as [H | H]; [contradiction |].
    destruct (IH H (write_row sid r st)) as [b Hb]. exists b. exact Hb.
Qed.

(** The Student table after the rows is the same after the rows again. *)
Lemma write_rows_students_twice (sid : id) (rows : list row_data) (st : store) :
  students (write_rows sid rows (write_rows sid rows st))
  = students (write_rows sid rows st).
Proof.
  apply map_eq. intros k.
  destruct (decide (Exists (fun r => row_key r = k) rows)) as [X | X].
  - destruct (write_rows_students_exists sid rows st k X) as [b Hb].
    rewrite (write_rows_students_some sid rows _ k _ Hb), Hb. now rewrite renames_twice.
  - apply write_rows_students_frame. apply Forall_forall. intros r Hr E.
    apply X. apply Exists_exists. eauto.
Qed.

(** ** Importing twice: the Attendance table *)

Section Twice.

Variable sid : id.

(** The update of an attendance upsert on the stored record. *)
Definition redata (K : id * id) (d : AttendanceData) (a : Attendance) : Attendance :=
  attendance_of (attendance_id a) (fst K) (snd K) d.

(** The attendance key of a row, by the student ids of the store [F]. *)
Definition attendance_key (F : store) (r : row_data) : option (id * id) :=
  (fun s => (sid, student_id s)) <$> students F !! row_key r.

Definition redatas (F : store) (K : id * id) (rows : list row_data) (a : Attendance)
  : Attendance :=
  fold_left
    (fun a r => if decide (attendance_key F r = Some K)
                then redata K (row_attendance r) a else a) rows a.

Definition redone (K : id * id) (acc : option AttendanceData) (a : Attendance) : Attendance :=
  match acc with Some d => redata K d a | None => a end.

Definition redatas_acc (F : store) (K : id * id) (rows : list row_data)
    (acc : option AttendanceData) : option AttendanceData :=
  fold_left
    (fun acc r => if decide (attendance_key F r = Some K)
                  then Some (row_attendance r) else acc) rows acc.

Lemma redatas_redone (F : store) (K : id * id) (rows : list row_data)
    (acc : option AttendanceData) (a : Attendance) :
  redatas F K rows (redone K acc a) = redone K (redatas_acc F K rows acc) a.
Proof.
  unfold redatas, redatas_acc.
  revert acc. induction rows as [| r rows IH]; intros acc; [reflexivity |].
  cbn [fold_left].
  destruct (decide (attendance_key F r = Some K)) as [E | N]; [| apply IH].
  rewrite <- IH. f_equal. destruct acc; reflexivity.
Qed.

Lemma redatas_twice (F : store) (K : id * id) (rows : list row_data) (a : Attendance) :
  redatas F K rows (redatas F K rows a) = redatas F K rows a.
Proof.
  assert (R : forall x, redatas F K rows x = redone K (redatas_acc F K rows None) x).
  { intros x. exact (redatas_redone F K rows None x). }
  rewrite !R. destruct (redatas_acc F K rows None); reflexivity.
Qed.

(** The student ids of [st] are those of [F]. *)
Definition ids_agree (F st : store) : Prop :=
  forall k s, students st !! k = Some s ->
              exists s', students F !! k = Some s' /\ student_id s' = student_id s.

Lemma renames_id (k : string) (rows : list row_data) (s : Student) :
  student_id (renames k rows s) = student_id s.
Proof.
  pose proof (renames_renamed k rows None s) as R. cbn [renamed] in R. rewrite R.
  now destruct (renames_acc k rows None).
Qed.

Lemma write_rows_ids (rows : list row_data) (st : store) (k : string) (s : Student) :
  students st !! k = Some s ->
  exists s', students (write_rows sid rows st) !! k = Some s'
             /\ student_id s' = student_id s.
Proof.
  intros H. eexists. split; [exact (write_rows_students_some sid rows st k s H) |].
  apply renames_id.
Qed.

Lemma ids_agree_back (F : store) (rows : list row_data) (st : store) :
  ids_agree F (write_rows sid rows st) -> ids_agree F st.
Proof.
  intros A k s H. destruct (write_rows_ids rows st k s H) as (s' & H' & E).
  destruct (A k s' H') as (t & Ht & Et). exists t. split; [exact Ht | congruence].
Qed.

Lemma write_row_attendances (r : row_data) (st : store) :
  exists s u,
    students (write_row sid r st) !! row_key r = Some s
    /\ forall K,
         attendances (write_row sid r st) !! K
         = if decide ((sid, student_id s) = K)
           then Some (redata K (row_attendance r)
                        (default (attendance_of u sid (student_id s) (row_attendance r))
                           (attendances st !! K)))
           else attendances st !! K.
Proof.
  unfold write_row.
  pose proof (student_upsert_spec (row_key r) (row_name r) st) as S.
  destruct (student_upsert (row_key r) (row_name r) st) as [s st1].
  destruct S as (Es & _ & Ea & _).
  destruct (attendance_upsert_students sid (student_id s) (row_attendance r) st1) as (E1 & _).
  exists s, (next_id st1). rewrite E1, Es, lookup_insert_eq. split; [reflexivity |].
  intros K. unfold attendance_upsert. rewrite Ea.
  destruct (attendances st !! (sid, student_id s)) as [old |] eqn:Eo; cbn [snd attendances];
    rewrite lookup_insert; destruct (decide ((sid, student_id s) = K)) as [<- | N];
    rewrite ?Eo, ?Ea; reflexivity.
Qed.

Lemma write_row_key (F : store) (r : row_data) (st : store) (s : Student) :
  ids_agree F (write_row sid r st) ->
  students (write_row sid r st) !! row_key r = Some s ->
  attendance_key F r = Some (sid, student_id s).
Proof.
  intros A H. destruct (A _ _ H) as (s' & Hs' & E).
  unfold attendance_key. rewrite Hs'. cbn. now rewrite E.
Qed.

Lemma write_row_attendances_agree (F : store) (r : row_data) (st : store) (K : id * id) :
  ids_agree F (write_row sid r st) ->
  exists u,
    attendances (write_row sid r st) !! K
    = if decide (attendance_key F r = Some K)
      then Some (redata K (row_attendance r)
                   (default (attendance_of u (fst K) (snd K) (row_attendance r))
                      (attendances st !! K)))
      else attendances st !! K.
Proof.
  intros A. destruct (write_row_attendances r st) as (s & u & Hs & Ha).
  rewrite (write_row_key F r st s A Hs). exists u. rewrite Ha.
  destruct (decide ((sid, student_id s) = K)) as [<- | N].
  - rewrite decide_True by reflexivity. reflexivity.
  - rewrite decide_False by congruence. reflexivity.
Qed.

Lemma write_rows_attendances_some (F : store) (rows : list row_data) (st : store)
    (K : id * id) (x : Attendance) :
  ids_agree F (write_rows sid rows st) ->
  attendances st !! K = Some x ->
  attendances (write_rows sid rows st) !! K = Some (redatas F K rows x).
Proof.
  revert st x. induction rows as [| r rows IH]; intros st x A H; [exact H |].
  cbn [write_rows redatas fold_left] in *. apply IH; [exact A |].
  destruct (write_row_attendances_agree F r st K (ids_agree_back F rows _ A)) as (u & ->).
  rewrite H. now destruct (decide (attendance_key F r = Some K)).
Qed.

Lemma write_rows_attendances_frame (F : store) (rows : list row_data) (st : store)
    (K : id * id) :
  ids_agree F (write_rows sid rows st) ->
  Forall (fun r => attendance_key F r <> Some K) rows ->
  attendances (write_rows sid rows st) !! K = attendances st !! K.
Proof.
  intros A H. revert st A. induction H as [| r rows Hr _ IH]; intros st A; [reflexivity |].
  cbn [write_rows fold_left] in *. fold (write_rows sid rows (write_row sid r st)) in *.
  rewrite (IH _ A).
  destruct (write_row_attendances_agree F r st K (ids_agree_back F rows _ A)) as (u & ->).
  now rewrite decide_False.
Qed.

Lemma write_rows_attendances_exists (F : store) (rows : list row_data) (st : store)
    (K : id * id) :
  ids_agree F (write_rows sid rows st) ->
  Exists (fun r => attendance_key F r = Some K) rows ->
  exists b, attendances (write_rows sid rows st) !! K = Some (redatas F K rows b).
Proof.
  intros A H. revert st A. induction rows as [| r rows IH]; intros st A; [inversion H |].
  cbn [write_rows redatas fold_left] in *.
  fold (write_rows sid rows (write_row sid r st)) in *.
  destruct (decide (attendance_key F r = Some K)) as [E | N].
  - destruct (write_row_attendances_agree F r st K (ids_agree_back F rows _ A)) as (u & Hu).
    rewrite decide_True in Hu by exact E.
    eexists. apply write_rows_attendances_some; [exact A | exact Hu].
  - apply Exists_cons in H as [H | H]; [contradiction |].
    destruct (IH H (write_row sid r st) A) as [b Hb]. exists b. exact Hb.
Qed.

(** The Attendance table after the rows is the same after the rows again. *)
Lemma write_rows_attendances_twice (rows : list row_data) (st : store) :
  attendances (write_rows sid rows (write_rows sid rows st))
  = attendances (write_rows sid rows st).
Proof.
  set (F := write_rows sid rows st).
  assert (A1 : ids_agree F F) by (intros k s H; eauto).
  assert (A2 : ids_agree F (write_rows sid rows F)).
  { intros k s H. unfold F in H. rewrite write_rows_students_twice in H. eauto. }
  apply map_eq. intros K.
  destruct (decide (Exists (fun r => attendance_key F r = Some K) rows)) as [X | X].
  - destruct (write_rows_attendances_exists F rows st K A1 X) as [b Hb]. fold F in Hb.
    rewrite (write_rows_attendances_some F rows F K _ A2 Hb), Hb.
    now rewrite redatas_twice.
  - apply (write_rows_attendances_frame F rows F K A2).
    apply Forall_forall. intros r Hr E. apply X. apply Exists_exists. eauto.
Qed.

End Twice.

(** ** Importing twice: the whole store *)

Lemma store_eq (a b : store) :
  modules a = modules b -> sessions a = sessions b -> students a = students b ->
  attendances a = attendances b -> next_id a = next_id b -> a = b.
Proof. destruct a, b. cbn. now intros -> -> -> -> ->. Qed.

Section TwiceStore.

Variable sid : id.

(** The student and the attendance record of row [r] exist. *)
Definition covered (st : store) (r : row_data) : Prop :=
  exists s, students st !! row_key r = Some s
            /\ is_Some (attendances st !! (sid, student_id s)).

Lemma write_row_tables (r : row_data) (st : store) :
  modules (write_row sid r st) = modules st /\ sessions (write_row sid r st) = sessions st.
Proof.
  unfold write_row.
  pose proof (student_upsert_spec (row_key r) (row_name r) st) as S.
  destruct (student_upsert (row_key r) (row_name r) st) as [s st1].
  destruct S as (_ & _ & _ & Em & Es & _).
  destruct (attendance_upsert_students sid (student_id s) (row_attendance r) st1)
    as (_ & _ & -> & ->). auto.
Qed.

Lemma write_rows_tables (rows : list row_data) (st : store) :
  modules (write_rows sid rows st) = modules st
  /\ sessions (write_rows sid rows st) = sessions st.
Proof.
  revert st. induction rows as [| r rows IH]; intros st; [auto |].
  cbn [write_rows fold_left]. fold (write_rows sid rows (write_row sid r st)).
  destruct (IH (write_row sid r st)) as [-> ->]. apply write_row_tables.
Qed.

Lemma write_row_covers (r : row_data) (st : store) : covered (write_row sid r st) r.
Proof.
  destruct (write_row_attendances sid r st) as (s & u & Hs & Ha).
  exists s. split; [exact Hs |]. rewrite Ha, decide_True by reflexivity. eauto.
Qed.

Lemma write_row_covered (r r' : row_data) (st : store) :
  covered st r' -> covered (write_row sid r st) r'.
Proof.
  intros (s & Hs & Ha).
  destruct (write_row_attendances sid r st) as (t & u & Ht & Hatt).
  exists (if decide (row_key r = row_key r') then rename (row_key r') (row_name r) s else s).
  split.
  - rewrite write_row_students, Hs. now destruct (decide (row_key r = row_key r')).
  - assert (E : student_id (if decide (row_key r = row_key r')
                            then rename (row_key r') (row_name r) s else s) = student_id s)
      by now destruct (decide (row_key r = row_key r')).
    rewrite E, Hatt. destruct (decide ((sid, student_id t) = (sid, student_id s))); eauto.
Qed.

Lemma write_row_next (r : row_data) (st : store) :
  covered st r -> next_id (write_row sid r st) = next_id st.
Proof.
  intros (s & Hs & [a Ha]). unfold write_row, student_upsert. rewrite Hs.
  unfold attendance_upsert. cbn [attendances student_id]. rewrite Ha. reflexivity.
Qed.

Lemma write_rows_next (rows : list row_data) (st : store) :
  Forall (covered st) rows -> next_id (write_rows sid rows st) = next_id st.
Proof.
  revert st. induction rows as [| r rows IH]; intros st H; [reflexivity |].
  cbn [write_rows fold_left]. fold (write_rows sid rows (write_row sid r st)).
  apply Forall_cons in H as [Hr H].
  rewrite IH; [now apply write_row_next |].
  eapply Forall_impl; [exact H |]. intros r'. apply write_row_covered.
Qed.

Lemma write_rows_covered (rows : list row_data) (r : row_data) (st : store) :
  covered st r -> covered (write_rows sid rows st) r.
Proof.
  revert st. induction rows as [| r' rows IH]; intros st H; [exact H |].
  cbn [write_rows fold_left]. apply IH. now apply write_row_covered.
Qed.

Lemma write_rows_cover (rows : list row_data) (st : store) :
  Forall (covered (write_rows sid rows st)) rows.
Proof.
  revert st. induction rows as [| r rows IH]; intros st; [constructor |].
  cbn [write_rows fold_left]. fold (write_rows sid rows (write_row sid r st)).
  constructor; [| apply IH].
  apply write_rows_covered, write_row_covers.
Qed.

(** Writing the rows of a file a second time changes nothing. *)
Lemma write_rows_twice (rows : list row_data) (st : store) :
  write_rows sid rows (write_rows sid rows st) = write_rows sid rows st.
Proof.
  apply store_eq.
  - apply write_rows_tables.
  - apply write_rows_tables.
  - apply write_rows_students_twice.
  - apply write_rows_attendances_twice.
  - apply write_rows_next, write_rows_cover.
Qed.

End TwiceStore.

(** The session phase on a store that went through it already. *)
Lemma open_session_twice (d : SessionData) (st X : store) :
  modules X = modules (snd (open_session d st)) ->
  sessions X = sessions (snd (open_session d st)) ->
  open_session d X = (fst (open_session d st), X).
Proof.
  unfold open_session.
  set (code := sd_moduleCode d). set (key := session_key_of d).
  intros Em Es.
  assert (Hm : is_Some (modules X !! code)).
  { rewrite Em. destruct (session_upsert_tables key d (module_upsert code code st)) as (-> & _).
    unfold module_upsert. destruct (modules st !! code) eqn:E; [rewrite E; eauto |].
    cbn. rewrite lookup_insert_eq. eauto. }
  assert (Hx : module_upsert code code X = X).
  { unfold module_upsert. destruct Hm as [m ->]. reflexivity. }
  rewrite Hx.
  assert (Hs : sessions X !! key = Some (fst (session_upsert key d (module_upsert code code st)))).
  { rewrite Es. unfold session_upsert.
    destruct (sessions (module_upsert code code st) !! key); cbn; apply lookup_insert_eq. }
  assert (Hid : forall s, session_of (session_id (fst (session_upsert key d s))) key d
                          = fst (session_upsert key d s)).
  { intros s. unfold session_upsert. destruct (sessions s !! key); reflexivity. }
  unfold session_upsert at 1. rewrite Hs, Hid. f_equal.
  apply store_eq; cbn; try reflexivity. now apply insert_id.
Qed.

Section Idempotence.

Variable Date_parse : string -> option Z.

(** C2. Importing a request a second time, on the store the first import
    left, leaves that store as it is (no Session and no Attendance record
    is added, and every record keeps the fields it has), and the response
    is the same. *)
Theorem POST_twice (req : request) (st : store) :
  POST Date_parse req (snd (POST Date_parse req st)) = POST Date_parse req st.
Proof.
  rewrite !POST_phases.
  destruct (validate req) as [msg | [[[intake year] moduleCode] file]]; [reflexivity |].
  cbv zeta.
  set (d := session_data Date_parse intake year moduleCode (split_lines (upload_text file))).
  pose proof (open_session_twice d st) as T.
  destruct (open_session d st) as [session st1]. cbn [fst snd] in T.
  destruct (locate (split_lines (upload_text file))) as [msg | [[cols start] window]].
  - cbn [snd]. now rewrite (T st1).
  - rewrite import_rows_fold. cbn [snd].
    destruct (write_rows_tables (session_id session) (rows_of Date_parse cols start window) st1)
      as [Em Es].
    rewrite (T _ Em Es), import_rows_fold, write_rows_twice. reflexivity.
Qed.

End Idempotence.

(** * Further properties of the handler's helpers *)

(** ** Trimming *)

Lemma trimStart_twice (s : string) : trimStart (trimStart s) = trimStart s.
Proof.
  induction s as [| c r IH]; [reflexivity |].
  cbn [trimStart]. destruct (is_space c) eqn:E; [exact IH |].
  cbn [trimStart]. now rewrite E.
Qed.

Lemma trimEnd_cons (c : ascii) (r : string) :
  trimEnd (String c r)
  = match trimEnd r with
    | EmptyString => if is_space c then EmptyString else String c EmptyString
    | r' => String c r'
    end.
Proof. reflexivity. Qed.

Lemma trimEnd_twice (s : string) : trimEnd (trimEnd s) = trimEnd s.
Proof.
  induction s as [| c r IH]; [reflexivity |].
  rewrite trimEnd_cons. destruct (trimEnd r) as [| c' r'] eqn:E.
  - destruct (is_space c) eqn:Ec; [reflexivity |].
    rewrite trimEnd_cons. cbn [trimEnd]. now rewrite Ec.
  - rewrite trimEnd_cons, IH. reflexivity.
Qed.

(** Trimming the end keeps a first character that is not white space. *)
Lemma trimEnd_head (c : ascii) (r : string) :
  is_space c = false -> exists r', trimEnd (String c r) = String c r'.
Proof.
  intros E. rewrite trimEnd_cons. destruct (trimEnd r); rewrite ?E; eauto.
Qed.

Lemma trimStart_head (s : string) :
  match trimStart s with
  | EmptyString => True
  | String c _ => is_space c = false
  end.
Proof.
  induction s as [| c r IH]; [exact I |].
  cbn [trimStart]. destruct (is_space c) eqn:E; [exact IH | exact E].
Qed.

(** [trim] is idempotent. *)
Lemma trim_twice (s : string) : trim (trim s) = trim s.
Proof.
  unfold trim. pose proof (trimStart_head s) as H.
  destruct (trimStart s) as [| c r]; [reflexivity |].
  destruct (trimEnd_head c r H) as [r' E]. rewrite E.
  cbn [trimStart]. rewrite H, <- E. apply trimEnd_twice.
Qed.

Lemma trim_literal (s : string) :
  match s with
  | EmptyString => True
  | String c _ => is_space c = false /\ ends_nonspace s = true
  end -> trim s = s.
Proof. destruct s as [| c r]; [reflexivity |]. intros [H1 H2]. now apply trim_id. Qed.

(** ** [normIntake] *)

(** X1. [normIntake] is idempotent: a normalized intake normalizes to
    itself, whether it is one of the three known intakes or free text. *)
Theorem normIntake_twice (v : string) : normIntake (normIntake v) = normIntake v.
Proof.
  assert (C : normIntake v = "Spring" \/ normIntake v = "Summer" \/ normIntake v = "Autumn"
              \/ (normIntake v = trim v /\ normIntake (trim v) = trim v)).
  { unfold normIntake. rewrite trim_twice.
    destruct (String.eqb (toLowerCase (trim v)) "spring"); [auto |].
    destruct (String.eqb (toLowerCase (trim v)) "summer"); [auto |].
    destruct (String.eqb (toLowerCase (trim v)) "autumn"
              || String.eqb (toLowerCase (trim v)) "fall"); auto. }
  destruct C as [-> | [-> | [-> | [-> E]]]]; try reflexivity. exact E.
Qed.

(** ** [findIndex] *)

Lemma findIndex_at_spec (lines : list string) (p : string -> bool) (i0 : nat) :
  match findIndex_at lines p i0 with
  | Some i =>
      (i0 <= i)%nat
      /\ (exists l, lines !! (i - i0)%nat = Some l /\ p l = true)
      /\ forall j l, (j < i - i0)%nat -> lines !! j = Some l -> p l = false
  | None => forall l, In l lines -> p l = false
  end.
Proof.
  revert i0. induction lines as [| x xs IH]; intros i0; cbn [findIndex_at].
  - intros l [].
  - destruct (p x) eqn:E.
    + split; [lia |]. rewrite Nat.sub_diag. split; [exists x; auto |]. intros j l Hj. lia.
    + specialize (IH (S i0)). destruct (findIndex_at xs p (S i0)) as [i |].
      * destruct IH as (Hle & (l & Hl & Hp) & Hmin). split; [lia |]. split.
        -- exists l. split; [| exact Hp].
           replace (i - i0)%nat with (S (i - S i0)) by lia. exact Hl.
        -- intros j l' Hj Hl'. destruct j as [| j]; cbn in Hl'.
           ++ now injection Hl' as <-.
           ++ apply (Hmin j l'); [lia | exact Hl'].
      * intros l [<- | Hin]; [exact E | now apply IH].
Qed.

(** The index [findIndex] returns. *)
Lemma findIndex_spec (lines : list string) (p : string -> bool) (start : nat) :
  match findIndex lines p start with
  | Some i =>
      (start <= i < length lines)%nat
      /\ (exists l, lines !! i = Some l /\ p l = true)
      /\ forall j l, (start <= j < i)%nat -> lines !! j = Some l -> p l = false
  | None =>
      forall j l, (start <= j)%nat -> lines !! j = Some l -> p l = false
  end.
Proof.
  unfold findIndex. pose proof (findIndex_at_spec (drop start lines) p start) as H.
  destruct (findIndex_at (drop start lines) p start) as [i |].
  - destruct H as (Hle & (l & Hl & Hp) & Hmin).
    rewrite lookup_drop in Hl. replace (start + (i - start))%nat with i in Hl by lia.
    split; [split; [exact Hle | exact (lookup_lt_Some _ _ _ Hl)] |].
    split; [eauto |].
    intros j l' Hj Hl'. apply (Hmin (j - start)%nat l'); [lia |].
    rewrite lookup_drop. now replace (start + (j - start))%nat with j by lia.
  - intros j l Hj Hl. apply H. apply list_elem_of_In, list_elem_of_lookup.
    exists (j - start)%nat. rewrite lookup_drop.
    now replace (start + (j - start))%nat with j by lia.
Qed.

(** X2. [findIndex(lines, predicate, start)] returns the first index from
    [start] on whose line satisfies the predicate, and only that: it
    returns [i] exactly when [i] is at or after [start], the line at [i]
    satisfies the predicate and no line from [start] up to [i] does; it
    returns -1 (here [None]) exactly when no line from [start] on satisfies
    the predicate. *)
Theorem findIndex_first (lines : list string) (p : string -> bool) (start : nat) :
  (forall i,
      findIndex lines p start = Some i
      <-> (start <= i)%nat
          /\ (exists l, lines !! i = Some l /\ p l = true)
          /\ forall j l, (start <= j < i)%nat -> lines !! j = Some l -> p l = false)
  /\ (findIndex lines p start = None
      <-> forall j l, (start <= j)%nat -> lines !! j = Some l -> p l = false).
Proof.
  pose proof (findIndex_spec lines p start) as S.
  destruct (findIndex lines p start) as [i0 |].
  - destruct S as ([Hlo Hhi] & (l0 & Hl0 & Hp0) & Hmin0). split.
    + intros i. split.
      * intros [= <-]. split; [exact Hlo |]. split; [eauto | exact Hmin0].
      * intros (Hi & (l & Hl & Hp) & Hmin). f_equal.
        destruct (Nat.lt_trichotomy i0 i) as [Lt | [E | Gt]]; [| exact E |].
        -- rewrite (Hmin i0 l0 (conj Hlo Lt) Hl0) in Hp0. discriminate Hp0.
        -- rewrite (Hmin0 i l (conj Hi Gt) Hl) in Hp. discriminate Hp.
    + split; [discriminate |]. intros H. rewrite (H i0 l0 Hlo Hl0) in Hp0. discriminate Hp0.
  - split.
    + intros i. split; [discriminate |].
      intros (Hi & (l & Hl & Hp) & _). rewrite (S i l Hi Hl) in Hp. discriminate Hp.
    + split; [intros _; exact S | reflexivity].
Qed.

(** ** [parseModuleCodeFromFilename] *)

(** A module code: two capital letters, four digits, "NU". *)
Definition module_code_shape (code : string) : Prop :=
  exists l1 l2 d1 d2 d3 d4,
    code = String l1 (String l2 (String d1 (String d2 (String d3 (String d4 "NU")))))
    /\ is_upper l1 = true /\ is_upper l2 = true
    /\ is_digit d1 = true /\ is_digit d2 = true
    /\ is_digit d3 = true /\ is_digit d4 = true.

Lemma exec_from_match (r : Regex.regex) (aft bef : list ascii) (m : Regex.rmatch_result) :
  Regex.exec_from r bef aft = Some m ->
  exists bef' aft' st,
    Regex.rmatch r (Regex.RState bef' aft' []) Some = Some st
    /\ Regex.m_text m = Regex.consumed bef' (Regex.before st).
Proof.
  revert bef. induction aft as [| c aft IH]; intros bef; cbn [Regex.exec_from].
  - destruct (Regex.rmatch r (Regex.RState bef [] []) Some) as [st |] eqn:E; [| discriminate].
    intros [= <-]. eauto.
  - destruct (Regex.rmatch r (Regex.RState bef (c :: aft) []) Some) as [st |] eqn:E.
    + intros [= <-]. eauto.
    + apply IH.
Qed.

Lemma upper_i_upper (c : ascii) :
  Regex.upper_i c = true ->
  (code c =? 223)%N = false /\ is_upper (upper_char c) = true.
Proof. destruct c as [[] [] [] [] [] [] [] []]; vm_compute; intros H; now try discriminate H. Qed.

Lemma digit_upper (c : ascii) :
  is_digit c = true -> (code c =? 223)%N = false /\ upper_char c = c.
Proof. destruct c as [[] [] [] [] [] [] [] []]; vm_compute; intros H; now try discriminate H. Qed.

Lemma canon_letter (c x : ascii) :
  x = "N"%char \/ x = "U"%char ->
  Ascii.eqb (Regex.canon c) (Regex.canon x) = true ->
  (code c =? 223)%N = false /\ upper_char c = x.
Proof.
  intros [-> | ->]; destruct c as [[] [] [] [] [] [] [] []]; vm_compute;
    intros H; now try discriminate H.
Qed.

Ltac split_module H :=
  repeat first
    [ discriminate H
    | match type of H with
      | context [Regex.at_word_boundary ?s] =>
          destruct (Regex.at_word_boundary s);
          cbn -[Ascii.eqb is_digit Regex.upper_i Regex.canon Regex.at_word_boundary] in H
      | context [Regex.digit ?c] => change (Regex.digit c) with (is_digit c) in H
      | context [is_digit ?c] =>
          destruct (is_digit c) eqn:?;
          cbn -[Ascii.eqb is_digit Regex.upper_i Regex.canon Regex.at_word_boundary] in H
      | context [Regex.upper_i ?c] =>
          destruct (Regex.upper_i c) eqn:?;
          cbn -[Ascii.eqb is_digit Regex.upper_i Regex.canon Regex.at_word_boundary] in H
      | context [Ascii.eqb ?a ?c] =>
          destruct (Ascii.eqb a c) eqn:?;
          cbn -[Ascii.eqb is_digit Regex.upper_i Regex.canon Regex.at_word_boundary] in H
      end ].

Lemma module_match (bef aft : list ascii) (st : Regex.rstate) :
  Regex.rmatch re_module (Regex.RState bef aft []) Some = Some st ->
  exists l1 l2 d1 d2 d3 d4 n u,
    Regex.before st = ([u; n; d4; d3; d2; d1; l2; l1] ++ bef)%list
    /\ Regex.upper_i l1 = true /\ Regex.upper_i l2 = true
    /\ is_digit d1 = true /\ is_digit d2 = true
    /\ is_digit d3 = true /\ is_digit d4 = true
    /\ Ascii.eqb (Regex.canon n) (Regex.canon "N") = true
    /\ Ascii.eqb (Regex.canon u) (Regex.canon "U") = true.
Proof.
  intros H. unfold re_module in H.
  destruct aft as [| c1 [| c2 [| c3 [| c4 [| c5 [| c6 [| c7 [| c8 aft]]]]]]]];
    cbn -[Ascii.eqb is_digit Regex.upper_i Regex.canon Regex.at_word_boundary] in H;
    split_module H.
  injection H as <-. cbn [Regex.before].
  exists c1, c2, c3, c4, c5, c6, c7, c8. repeat split; assumption.
Qed.

(** X3. A module code read from a file name has the shape of a module
    code, in capitals: two letters, four digits, "NU"; the server's own
    normalization leaves it as it is. *)
Theorem parseModuleCodeFromFilename_shape (name code : string) :
  parseModuleCodeFromFilename name = Some code ->
  module_code_shape code /\ normModuleCode code = code.
Proof.
  unfold parseModuleCodeFromFilename, Regex.exec.
  destruct (Regex.exec_from re_module [] (list_ascii_of_string name)) as [m |] eqn:E;
    [| discriminate].
  intros [= <-].
  destruct (exec_from_match _ _ _ _ E) as (bef & aft & st & R & ->).
  destruct (module_match bef aft st R)
    as (l1 & l2 & d1 & d2 & d3 & d4 & n & u & -> & H1 & H2 & H3 & H4 & H5 & H6 & Hn & Hu).
  change ([u; n; d4; d3; d2; d1; l2; l1] ++ bef)%list
    with (rev [l1; l2; d1; d2; d3; d4; n; u] ++ bef)%list.
  rewrite consumed_run.
  destruct (upper_i_upper l1 H1) as [A1 B1]. destruct (upper_i_upper l2 H2) as [A2 B2].
  destruct (digit_upper d1 H3) as [A3 B3]. destruct (digit_upper d2 H4) as [A4 B4].
  destruct (digit_upper d3 H5) as [A5 B5]. destruct (digit_upper d4 H6) as [A6 B6].
  destruct (canon_letter n "N" (or_introl eq_refl) Hn) as [A7 B7].
  destruct (canon_letter u "U" (or_intror eq_refl) Hu) as [A8 B8].
  assert (T : toUpperCase (string_of_list_ascii [l1; l2; d1; d2; d3; d4; n; u])
              = String (upper_char l1) (String (upper_char l2)
                  (String d1 (String d2 (String d3 (String d4 "NU")))))).
  { cbn [string_of_list_ascii toUpperCase].
    rewrite A1, A2, A3, A4, A5, A6, A7, A8, B3, B4, B5, B6, B7, B8. reflexivity. }
  rewrite T. split.
  - exists (upper_char l1), (upper_char l2), d1, d2, d3, d4. repeat split; assumption.
  - unfold normModuleCode. rewrite trim_id.
    + assert (U : forall c, is_upper c = true ->
                            (code c =? 223)%N = false /\ upper_char c = c).
      { intros c. destruct c as [[] [] [] [] [] [] [] []]; vm_compute;
          intros H; now try discriminate H. }
      destruct (U _ B1) as [C1 D1]. destruct (U _ B2) as [C2 D2].
      cbn [toUpperCase]. rewrite C1, C2, A3, A4, A5, A6, D1, D2, B3, B4, B5, B6.
      reflexivity.
    + assert (S : forall c, is_upper c = true -> is_space c = false).
      { intros c. destruct c as [[] [] [] [] [] [] [] []]; vm_compute;
          intros H; now try discriminate H. }
      now apply S.
    + reflexivity.
Qed.

Lemma parseModuleCodeFromFilename_shape_witness :
  module_code_shape "MN5070NU" /\ normModuleCode "MN5070NU" = "MN5070NU".
Proof.
  exact (parseModuleCodeFromFilename_shape "attendance mn5070nu (2).csv" "MN5070NU" eq_refl).
Defined.

(** ** The summary loop *)

(** X4. The summary loop stops at the Section 2 marker: the lines after
    the first marker line contribute nothing to the summary. *)
Theorem read_summary_stops (pre post post' : list string) (marker : string)
    (summary : gmap string string) :
  is_section2 marker = true ->
  read_summary (pre ++ marker :: post) summary
  = read_summary (pre ++ marker :: post') summary.
Proof.
  intros Hm. revert summary. induction pre as [| l pre IH]; intros summary.
  - cbn [app read_summary]. now rewrite Hm.
  - cbn [app read_summary]. destruct (is_section2 l); [reflexivity | apply IH].
Qed.

Lemma read_summary_stops_witness :
  read_summary (["Meeting title" +:+ String TAB "Standup"; "2. Participants";
                 "Name" +:+ String TAB "Email"]) ∅
  = read_summary (["Meeting title" +:+ String TAB "Standup"; "2. Participants"]) ∅.
Proof.
  exact (read_summary_stops ["Meeting title" +:+ String TAB "Standup"]
           ["Name" +:+ String TAB "Email"] [] "2. Participants" ∅ eq_refl).
Defined.

(** ** Splitting on a separator *)

Lemma split_nonempty (sep : ascii) (s : string) : JsString.split sep s <> [].
Proof.
  destruct s as [| c r]; cbn [JsString.split]; [discriminate |].
  destruct (Ascii.eqb c sep); [discriminate |].
  destruct (JsString.split sep r); discriminate.
Qed.

Lemma split_cons (sep c : ascii) (s : string) :
  Ascii.eqb c sep = false ->
  exists f fs, JsString.split sep s = f :: fs
               /\ JsString.split sep (String c s) = String c f :: fs.
Proof.
  intros E. cbn [JsString.split]. rewrite E.
  destruct (JsString.split sep s) as [| f fs] eqn:S; [now apply split_nonempty in S |].
  eauto.
Qed.

(** The fields of [a], then the fields of [b]. *)
Lemma split_app (sep : ascii) (a b : string) :
  JsString.split sep (a +:+ String sep b)
  = (JsString.split sep a ++ JsString.split sep b)%list.
Proof.
  induction a as [| c a IH].
  - cbn [String.append JsString.split app]. now rewrite Ascii.eqb_refl.
  - cbn [String.append JsString.split]. destruct (Ascii.eqb c sep); [now rewrite IH |].
    rewrite IH. destruct (JsString.split sep a) as [| f fs] eqn:S;
      [now apply split_nonempty in S | reflexivity].
Qed.

Lemma startsWith_spec (s p : string) :
  startsWith s p = true -> exists r, s = p +:+ r.
Proof.
  revert s. induction p as [| a p IH]; intros s.
  - exists s. reflexivity.
  - destruct s as [| b s]; cbn [startsWith]; [discriminate |].
    destruct (Ascii.eqb_spec a b) as [<- |]; [| discriminate].
    intros H. destruct (IH s H) as [r ->]. exists r. reflexivity.
Qed.

Lemma includes_spec (s p : string) :
  includes s p = true -> exists a b, s = a +:+ p +:+ b.
Proof.
  induction s as [| c s IH]; cbn [includes]; intros H; apply orb_prop in H as [H | H].
  - destruct (startsWith_spec _ _ H) as [r ->]. exists EmptyString, r. reflexivity.
  - discriminate.
  - destruct (startsWith_spec _ _ H) as [r ->]. exists EmptyString, r. reflexivity.
  - destruct (IH H) as (a & b & ->). exists (String c a), b. reflexivity.
Qed.

Lemma findIndex_found (l : list string) (p : string -> bool) (x : string) :
  In x l -> p x = true -> findIndex l p 0 <> None.
Proof.
  intros Hin Hp E. unfold findIndex in E. rewrite drop_0 in E.
  pose proof (findIndex_at_spec l p 0) as S. rewrite E in S.
  specialize (S x Hin). congruence.
Qed.

(** A header row has "Name" as its first field and "Email" among its
    fields. *)
Lemma header_fields (l : string) :
  is_header l = true ->
  (exists fs, map trim (JsString.split TAB l) = "Name" :: fs)
  /\ In "Email" (map trim (JsString.split TAB l)).
Proof.
  unfold is_header. intros H.
  apply andb_prop in H as [H _]. apply andb_prop in H as [Hn He]. split.
  - apply startsWith_spec in Hn as [r ->].
    change (String "N" (String "a" (String "m" (String "e" (String TAB ""))))
            +:+ r) with ("Name" +:+ String TAB r).
    rewrite split_app.
    destruct (JsString.split TAB r) as [| f fs] eqn:S; [now apply split_nonempty in S |].
    eexists. reflexivity.
  - apply includes_spec in He as (a & b & ->).
    change (String TAB ("Email" +:+ String TAB "") +:+ b)
      with (String TAB ("Email" +:+ String TAB b)).
    rewrite !split_app, !map_app. apply in_or_app. right. apply in_or_app. left.
    now left.
Qed.

(** ** The Section 2 table *)

(** What [locate] found when it succeeds. *)
Lemma locate_found (lines : list string) (cols : columns) (start : nat)
    (window : list string) :
  locate lines = inr (cols, start, window) ->
  exists i2 h e,
    findIndex lines is_section2 0 = Some i2
    /\ findIndex lines is_header (S i2) = Some h
    /\ e = default (length lines) (findIndex lines is_section3 (S i2))
    /\ (h < e)%nat /\ start = S h
    /\ window = drop (S h) (take e lines)
    /\ findIndex (map trim (JsString.split TAB (part lines h))) (String.eqb "Name") 0
       = Some (idxName cols).
Proof.
  unfold locate.
  destruct (findIndex lines is_section2 0) as [i2 |] eqn:F2; [| discriminate].
  destruct (findIndex lines is_header (S i2)) as [h |] eqn:Fh; [| discriminate].
  destruct (Nat.leb_spec (default (length lines) (findIndex lines is_section3 (S i2))) h);
    [discriminate |].
  destruct (findIndex _ (String.eqb "Name") 0) as [iName |] eqn:En; [| discriminate].
  destruct (findIndex _ (String.eqb "Email") 0) as [iEmail |]; [| discriminate].
  destruct (findIndex _ (String.eqb "In-Meeting Duration") 0) as [iDuration |];
    [| discriminate].
  intros [= <- <- <-]. exists i2, h. eexists. cbn [idxName].
  split; [reflexivity |]. split; [exact Fh |]. split; [reflexivity |].
  split; [assumption |]. split; [reflexivity |]. split; [reflexivity | exact En].
Qed.

(** X5. The rows that are imported never reach into Section 3: every line
    of the window is a line of the file after the header row of Section 2,
    and no line from the Section 2 marker up to it is a Section 3 marker. *)
Theorem locate_window (lines : list string) (cols : columns) (start : nat)
    (window : list string) :
  locate lines = inr (cols, start, window) ->
  exists i2 marker header,
    (i2 < start - 1)%nat
    /\ lines !! i2 = Some marker /\ is_section2 marker = true
    /\ lines !! (start - 1)%nat = Some header /\ is_header header = true
    /\ forall k line,
         window !! k = Some line ->
         lines !! (start + k)%nat = Some line
         /\ forall j l, (i2 < j <= start + k)%nat -> lines !! j = Some l ->
                        is_section3 l = false.
Proof.
  intros L. destruct (locate_found _ _ _ _ L) as (i2 & h & e & F2 & Fh & -> & Hhe & -> & -> & _).
  pose proof (findIndex_spec lines is_section2 0) as S2. rewrite F2 in S2.
  pose proof (findIndex_spec lines is_header (S i2)) as Sh. rewrite Fh in Sh.
  pose proof (findIndex_spec lines is_section3 (S i2)) as S3.
  destruct S2 as (_ & (marker & Hm & Pm) & _).
  destruct Sh as ([Hlo _] & (header & Hh & Ph) & _).
  exists i2, marker, header. replace (S h - 1)%nat with h by lia.
  repeat split; try assumption; try lia.
  - rewrite lookup_drop, lookup_take_Some in H. tauto.
  - intros j l Hj Hl. rewrite lookup_drop, lookup_take_Some in H. destruct H as [_ Hlt].
    destruct (findIndex lines is_section3 (S i2)) as [e |]; cbn [default] in *; unfold Datatypes.id in *.
    + destruct S3 as (_ & _ & Hmin). apply (Hmin j l); [lia | exact Hl].
    + apply (S3 j l); [lia | exact Hl].
Qed.

Lemma locate_window_witness :
  exists i2 marker header,
    (i2 < 9 - 1)%nat
    /\ Example.export_lines !! i2 = Some marker /\ is_section2 marker = true
    /\ Example.export_lines !! (9 - 1)%nat = Some header /\ is_header header = true
    /\ forall k line,
         drop 9 (take 14 Example.export_lines) !! k = Some line ->
         Example.export_lines !! (9 + k)%nat = Some line
         /\ forall j l, (i2 < j <= 9 + k)%nat -> Example.export_lines !! j = Some l ->
                        is_section3 l = false.
Proof.
  apply (locate_window Example.export_lines (mkColumns 0 4 (Some 1) (Some 2) 3 (Some 6))%nat 9%nat).
  vm_compute. reflexivity.
Defined.

(** X6. The error about missing columns is returned only for a header row
    of Section 2 none of whose fields is, after trimming, "In-Meeting
    Duration": the columns "Name" and "Email" of a header row accepted by
    the search are always found. *)
Theorem locate_missing_columns (lines : list string) :
  locate lines = inl MISSING_COLUMNS ->
  exists h header,
    lines !! h = Some header /\ is_header header = true
    /\ forall f, In f (JsString.split TAB header) -> trim f <> "In-Meeting Duration".
Proof.
  unfold locate.
  destruct (findIndex lines is_section2 0) as [i2 |]; [| discriminate].
  pose proof (findIndex_spec lines is_header (S i2)) as Sh.
  destruct (findIndex lines is_header (S i2)) as [h |]; [| discriminate].
  destruct (_ <=? h)%nat; [discriminate |].
  destruct Sh as (_ & (header & Hh & Ph) & _).
  assert (Ep : part lines h = header).
  { unfold part. now rewrite (nth_lookup_Some _ _ _ _ Hh). }
  rewrite Ep. destruct (header_fields header Ph) as [[fs Hn] He].
  destruct (findIndex _ (String.eqb "Name") 0) as [iName |] eqn:En.
  2: { exfalso. apply (findIndex_found _ (String.eqb "Name") "Name") in En; auto.
       rewrite Hn. now left. }
  destruct (findIndex _ (String.eqb "Email") 0) as [iEmail |] eqn:Ee.
  2: { exfalso. apply (findIndex_found _ (String.eqb "Email") "Email") in Ee; auto. }
  destruct (findIndex _ (String.eqb "In-Meeting Duration") 0) as [iD |] eqn:Ed;
    [discriminate |].
  intros _. exists h, header. split; [exact Hh |]. split; [exact Ph |].
  intros f Hf E.
  apply (findIndex_found _ (String.eqb "In-Meeting Duration") (trim f)) in Ed; auto.
  - now apply in_map.
  - rewrite E. reflexivity.
Qed.

Lemma locate_missing_columns_witness :
  exists h header,
    ["2. Participants"; Example.tsv ["Name"; "Email"; "In-Meeting Duration (min)"]] !! h
    = Some header
    /\ is_header header = true
    /\ forall f, In f (JsString.split TAB header) -> trim f <> "In-Meeting Duration".
Proof.
  apply locate_missing_columns. vm_compute. reflexivity.
Defined.

(** X7. The columns of a located table are read off its header row: "Name"
    is the first field, and the Email and In-Meeting Duration indices are
    those of the first field that trims to that name. *)
Theorem locate_header (lines : list string) (cols : columns) (start : nat)
    (window : list string) :
  locate lines = inr (cols, start, window) ->
  exists header,
    lines !! (start - 1)%nat = Some header
    /\ idxName cols = 0%nat
    /\ forall name i,
         (name = "Email" /\ i = idxEmail cols)
         \/ (name = "In-Meeting Duration" /\ i = idxDuration cols) ->
         map trim (JsString.split TAB header) !! i = Some name
         /\ forall j f, (j < i)%nat -> map trim (JsString.split TAB header) !! j = Some f ->
                        f <> name.
Proof.
  unfold locate.
  destruct (findIndex lines is_section2 0) as [i2 |]; [| discriminate].
  pose proof (findIndex_spec lines is_header (S i2)) as Sh.
  destruct (findIndex lines is_header (S i2)) as [h |]; [| discriminate].
  destruct (_ <=? h)%nat; [discriminate |].
  destruct Sh as (_ & (header & Hh & Ph) & _).
  assert (Ep : part lines h = header).
  { unfold part. now rewrite (nth_lookup_Some _ _ _ _ Hh). }
  rewrite Ep. destruct (header_fields header Ph) as [[fs Hn] _].
  set (fields := map trim (JsString.split TAB header)) in *.
  destruct (findIndex fields (String.eqb "Name") 0) as [iName |] eqn:En; [| discriminate].
  pose proof (findIndex_spec fields (String.eqb "Email") 0) as Se.
  destruct (findIndex fields (String.eqb "Email") 0) as [iEmail |]; [| discriminate].
  pose proof (findIndex_spec fields (String.eqb "In-Meeting Duration") 0) as Sd.
  destruct (findIndex fields (String.eqb "In-Meeting Duration") 0) as [iD |];
    [| discriminate].
  intros [= <- <- <-]. cbn [idxName idxEmail idxDuration].
  exists header. replace (S h - 1)%nat with h by lia. split; [exact Hh |]. split.
  - rewrite Hn in En. unfold findIndex in En. cbn in En. now injection En as <-.
  - intros name i [[-> ->] | [-> ->]].
    + destruct Se as (_ & (f & Hf & E) & Hmin). apply String.eqb_eq in E as <-.
      split; [exact Hf |]. intros j g Hj Hg ->.
      specialize (Hmin j "Email" ltac:(lia) Hg). discriminate Hmin.
    + destruct Sd as (_ & (f & Hf & E) & Hmin). apply String.eqb_eq in E as <-.
      split; [exact Hf |]. intros j g Hj Hg ->.
      specialize (Hmin j "In-Meeting Duration" ltac:(lia) Hg). discriminate Hmin.
Qed.

Lemma locate_header_witness :
  exists header,
    Example.export_lines !! (9 - 1)%nat = Some header
    /\ 0%nat = 0%nat
    /\ forall name i,
         (name = "Email" /\ i = 4%nat) \/ (name = "In-Meeting Duration" /\ i = 3%nat) ->
         map trim (JsString.split TAB header) !! i = Some name
         /\ forall j f, (j < i)%nat -> map trim (JsString.split TAB header) !! j = Some f ->
                        f <> name.
Proof.
  apply (locate_header Example.export_lines
           (mkColumns 0 4 (Some 1) (Some 2) 3 (Some 6))%nat 9%nat
           (drop 9 (take 14 Example.export_lines))).
  vm_compute. reflexivity.
Defined.

(** ** What an import leaves of the store it found

    No branch of the handler deletes: every write is an upsert.  [extends]
    says what an upsert keeps of a record it updates: the key, the
    generated id and, for a Student, a name once it has one
    ([name ?? undefined]); the update of a Module is [{}]. *)

Record extends (st st' : store) : Prop := Extends {
  ext_modules : forall c n, modules st !! c = Some n -> modules st' !! c = Some n;
  ext_sessions : forall k s, sessions st !! k = Some s ->
      exists s', sessions st' !! k = Some s' /\ session_id s' = session_id s;
  ext_students : forall k s, students st !! k = Some s ->
      exists s', students st' !! k = Some s' /\ student_id s' = student_id s
                 /\ (is_Some (student_name s) -> is_Some (student_name s'));
  ext_attendances : forall K a, attendances st !! K = Some a ->
      exists a', attendances st' !! K = Some a' /\ attendance_id a' = attendance_id a;
  ext_next : (next_id st <= next_id st')%positive
}.

Lemma extends_refl (st : store) : extends st st.
Proof. split; eauto; lia. Qed.

Lemma extends_trans (a b c : store) : extends a b -> extends b c -> extends a c.
Proof.
  intros [M1 S1 U1 A1 N1] [M2 S2 U2 A2 N2]. split.
  - eauto.
  - intros k s H. destruct (S1 k s H) as (s1 & H1 & E1).
    destruct (S2 k s1 H1) as (s2 & H2 & E2). exists s2. split; [exact H2 | congruence].
  - intros k s H. destruct (U1 k s H) as (s1 & H1 & E1 & I1).
    destruct (U2 k s1 H1) as (s2 & H2 & E2 & I2). exists s2.
    split; [exact H2 |]. split; [congruence | auto].
  - intros K x H. destruct (A1 K x H) as (x1 & H1 & E1).
    destruct (A2 K x1 H1) as (x2 & H2 & E2). exists x2. split; [exact H2 | congruence].
  - lia.
Qed.

Lemma module_upsert_extends (code name : string) (st : store) :
  extends st (module_upsert code name st).
Proof.
  unfold module_upsert. destruct (modules st !! code) as [old |] eqn:E;
    [apply extends_refl |].
  split; cbn; eauto; try lia.
  intros c n H. rewrite lookup_insert. case_decide; [congruence | exact H].
Qed.

Lemma session_upsert_extends (key : string) (d : SessionData) (st : store) :
  extends st (snd (session_upsert key d st)).
Proof.
  unfold session_upsert. destruct (sessions st !! key) as [old |] eqn:E;
    (split; cbn; eauto; try lia);
    intros k s H; rewrite lookup_insert; case_decide; eauto; subst k.
  - rewrite E in H. injection H as <-. eauto.
  - congruence.
Qed.

Lemma student_upsert_extends (email : string) (name : option string) (st : store) :
  extends st (snd (student_upsert email name st)).
Proof.
  unfold student_upsert. destruct (students st !! email) as [old |] eqn:E;
    (split; cbn; eauto; try lia);
    intros k s H; rewrite lookup_insert; case_decide; eauto; subst k.
  - rewrite E in H. injection H as <-. eexists. split; [reflexivity |].
    split; [reflexivity |]. cbn. destruct name; eauto.
  - congruence.
Qed.

Lemma attendance_upsert_extends (sid uid : id) (d : AttendanceData) (st : store) :
  extends st (snd (attendance_upsert sid uid d st)).
Proof.
  unfold attendance_upsert. destruct (attendances st !! (sid, uid)) as [old |] eqn:E;
    (split; cbn; eauto; try lia);
    intros k s H; rewrite lookup_insert; case_decide; eauto; subst k.
  - rewrite E in H. injection H as <-. eauto.
  - congruence.
Qed.

Lemma write_row_extends (sid : id) (r : row_data) (st : store) :
  extends st (write_row sid r st).
Proof.
  unfold write_row.
  pose proof (student_upsert_extends (row_key r) (row_name r) st) as X.
  destruct (student_upsert (row_key r) (row_name r) st) as [s st1]. cbn [snd] in X.
  eapply extends_trans; [exact X | apply attendance_upsert_extends].
Qed.

Lemma write_rows_extends (sid : id) (rows : list row_data) (st : store) :
  extends st (write_rows sid rows st).
Proof.
  revert st. induction rows as [| r rows IH]; intros st; [apply extends_refl |].
  cbn [write_rows fold_left]. fold (write_rows sid rows (write_row sid r st)).
  eapply extends_trans; [apply write_row_extends | apply IH].
Qed.

Lemma open_session_extends (d : SessionData) (st : store) :
  extends st (snd (open_session d st)).
Proof.
  unfold open_session.
  eapply extends_trans; [apply module_upsert_extends | apply session_upsert_extends].
Qed.

(** The store a request leaves, phase by phase. *)
Lemma POST_store (Date_parse : string -> option Z) (req : request) (st : store) :
  snd (POST Date_parse req st)
  = match validate req with
    | inl _ => st
    | inr (intake, year, moduleCode, file) =>
        let lines := split_lines (upload_text file) in
        let r := open_session (session_data Date_parse intake year moduleCode lines) st in
        match locate lines with
        | inl _ => snd r
        | inr (cols, start, window) =>
            write_rows (session_id (fst r)) (rows_of Date_parse cols start window) (snd r)
        end
    end.
Proof.
  rewrite POST_phases.
  destruct (validate req) as [msg | [[[intake year] moduleCode] file]]; [reflexivity |].
  cbv zeta. destruct (open_session _ st) as [session st1].
  destruct (locate _) as [msg | [[cols start] window]]; [reflexivity |].
  rewrite import_rows_fold. reflexivity.
Qed.

(** X8. The handler never deletes and never re-keys: whatever the request
    and whatever the response, every Module of the store keeps its name,
    every Session, Student and Attendance record stays under its key with
    its id, a Student that had a name still has one, and the id counter
    does not go back. *)
Theorem POST_extends (Date_parse : string -> option Z) (req : request) (st : store) :
  extends st (snd (POST Date_parse req st)).
Proof.
  rewrite POST_store.
  destruct (validate req) as [msg | [[[intake year] moduleCode] file]];
    [apply extends_refl |].
  cbv zeta.
  pose proof (open_session_extends
                (session_data Date_parse intake year moduleCode
                   (split_lines (upload_text file))) st) as X.
  destruct (locate _) as [msg | [[cols start] window]]; [exact X |].
  eapply extends_trans; [exact X | apply write_rows_extends].
Qed.

(** ** Integrity of the keys

    The Session and Attendance tables are keyed by their unique columns. *)

Record store_keyed (st : store) : Prop := StoreKeyed {
  keyed_sessions : forall k s, sessions st !! k = Some s -> session_sessionKey s = k;
  keyed_attendances : forall K a, attendances st !! K = Some a ->
      (attendance_sessionId a, attendance_studentId a) = K
}.

Lemma module_upsert_keyed (code name : string) (st : store) :
  store_keyed st -> store_keyed (module_upsert code name st).
Proof.
  intros [KS KA]. unfold module_upsert. destruct (modules st !! code); split; cbn; auto.
Qed.

Lemma session_upsert_keyed (key : string) (d : SessionData) (st : store) :
  store_keyed st -> store_keyed (snd (session_upsert key d st)).
Proof.
  intros [KS KA]. unfold session_upsert.
  destruct (sessions st !! key) as [old |]; split; cbn; auto;
    intros k x; rewrite lookup_insert; case_decide; auto; intros [= <-]; now subst k.
Qed.

Lemma student_upsert_keyed (email : string) (name : option string) (st : store) :
  store_keyed st -> store_keyed (snd (student_upsert email name st)).
Proof.
  intros [KS KA]. unfold student_upsert. destruct (students st !! email); split; cbn; auto.
Qed.

Lemma attendance_upsert_keyed (sid uid : id) (d : AttendanceData) (st : store) :
  store_keyed st -> store_keyed (snd (attendance_upsert sid uid d st)).
Proof.
  intros [KS KA]. unfold attendance_upsert.
  destruct (attendances st !! (sid, uid)) as [old |]; split; cbn; auto;
    intros k x; rewrite lookup_insert; case_decide; auto; intros [= <-]; now subst k.
Qed.

Lemma write_row_keyed (sid : id) (r : row_data) (st : store) :
  store_keyed st -> store_keyed (write_row sid r st).
Proof.
  intros W. unfold write_row.
  pose proof (student_upsert_keyed (row_key r) (row_name r) st W) as W1.
  destruct (student_upsert (row_key r) (row_name r) st) as [s st1]. cbn [snd] in W1.
  now apply attendance_upsert_keyed.
Qed.

Lemma write_rows_keyed (sid : id) (rows : list row_data) (st : store) :
  store_keyed st -> store_keyed (write_rows sid rows st).
Proof.
  revert st. induction rows as [| r rows IH]; intros st W; [exact W |].
  apply IH. now apply write_row_keyed.
Qed.

(** X9. The handler keeps the integrity of the store: after any request the
    Student table is still keyed by email with distinct ids below the id
    counter, and the Session and Attendance tables are still keyed by
    [sessionKey] and by the pair [(sessionId, studentId)]. *)
Theorem POST_integrity (Date_parse : string -> option Z) (req : request) (st : store) :
  store_wf st -> store_keyed st ->
  store_wf (snd (POST Date_parse req st)) /\ store_keyed (snd (POST Date_parse req st)).
Proof.
  intros W K. rewrite POST_store.
  destruct (validate req) as [msg | [[[intake year] moduleCode] file]]; [auto |].
  cbv zeta.
  set (d := session_data Date_parse intake year moduleCode (split_lines (upload_text file))).
  assert (W1 : store_wf (snd (open_session d st))) by now apply open_session_wf.
  assert (K1 : store_keyed (snd (open_session d st))).
  { unfold open_session. now apply session_upsert_keyed, module_upsert_keyed. }
  destruct (locate _) as [msg | [[cols start] window]]; [auto |].
  split; [now apply write_rows_wf | now apply write_rows_keyed].
Qed.

Lemma empty_keyed : store_keyed Prisma.empty.
Proof. split; intros *; cbn; rewrite lookup_empty; discriminate. Qed.

Lemma POST_integrity_witness :
  store_wf (snd (POST Date_parse_iso (Example.request_of "Spring" "2026" Example.export)
                   Prisma.empty))
  /\ store_keyed (snd (POST Date_parse_iso
                         (Example.request_of "Spring" "2026" Example.export)
                         Prisma.empty)).
Proof.
  apply POST_integrity; [exact empty_wf | exact empty_keyed].
Defined.

(** ** The responses *)

Lemma locate_errors (lines : list string) (msg : string) :
  locate lines = inl msg -> In msg [MISSING_SECTION; MISSING_HEADER; MISSING_COLUMNS].
Proof.
  unfold locate.
  destruct (findIndex lines is_section2 0) as [i2 |]; [| intros [= <-]; simpl; auto].
  destruct (findIndex lines is_header (S i2)) as [h |]; [| intros [= <-]; simpl; auto].
  destruct (_ <=? h)%nat; [intros [= <-]; simpl; auto |].
  destruct (findIndex _ (String.eqb "Name") 0); [| intros [= <-]; simpl; auto].
  destruct (findIndex _ (String.eqb "Email") 0); [| intros [= <-]; simpl; auto].
  destruct (findIndex _ (String.eqb "In-Meeting Duration") 0);
    [discriminate | intros [= <-]; simpl; auto].
Qed.

(** X10. Every error response the handler builds itself has status 400 and
    leaves the Student and Attendance tables as they were; the store as a
    whole is unchanged unless the error is one of the three about the
    participants table, which are found after the Module and Session
    upserts. *)
Theorem POST_failure (Date_parse : string -> option Z) (req : request) (st st' : store)
    (status : nat) (msg : string) :
  POST Date_parse req st = (Failure status msg, st') ->
  status = 400%nat
  /\ students st' = students st /\ attendances st' = attendances st
  /\ (st' = st
      \/ is_Some (form_file req)
         /\ In msg [MISSING_SECTION; MISSING_HEADER; MISSING_COLUMNS]).
Proof.
  rewrite POST_phases.
  destruct (validate req) as [m | [[[intake year] moduleCode] file]] eqn:V.
  - intros [= <- <- <-]. auto.
  - cbv zeta.
    pose proof (open_session_tables
                  (session_data Date_parse intake year moduleCode
                     (split_lines (upload_text file))) st) as T.
    destruct (open_session _ st) as [session st1]. cbn [snd] in T.
    destruct (locate _) as [m | [[cols start] window]] eqn:L.
    + intros [= <- <- <-]. split; [reflexivity |]. destruct T as [Ts Ta].
      split; [exact Ts |]. split; [exact Ta |]. right.
      rewrite (validate_file _ _ _ _ _ V). split; [eauto | exact (locate_errors _ _ L)].
    + destruct (import_rows _ _ _ _ _ _). discriminate.
Qed.

(** The example export without its marker, posted on the store that an
    import of the example left. *)
Lemma POST_failure_witness :
  let st := snd (POST Date_parse_iso (Example.request_of "Spring" "2026" Example.export)
                   Prisma.empty) in
  exists msg st',
    POST Date_parse_iso (Example.request_of "Summer" "2026" export_without_marker) st
    = (Failure 400 msg, st')
    /\ size (students st) = 3%nat /\ size (attendances st) = 3%nat
    /\ students st' = students st /\ attendances st' = attendances st
    /\ msg = MISSING_SECTION /\ st' <> st
    /\ (st' = st
        \/ is_Some (form_file (Example.request_of "Summer" "2026" export_without_marker))
           /\ In msg [MISSING_SECTION; MISSING_HEADER; MISSING_COLUMNS]).
Proof.
  cbv zeta.
  set (st := snd (POST Date_parse_iso (Example.request_of "Spring" "2026" Example.export)
                    Prisma.empty)).
  destruct (POST Date_parse_iso (Example.request_of "Summer" "2026" export_without_marker) st)
    as [resp st'] eqn:E.
  assert (F : fst (POST Date_parse_iso
                     (Example.request_of "Summer" "2026" export_without_marker) st) = resp)
    by now rewrite E.
  assert (G : size (sessions (snd (POST Date_parse_iso
                (Example.request_of "Summer" "2026" export_without_marker) st))) = 2%nat)
    by (vm_compute; reflexivity).
  rewrite E in G. cbn [snd] in G.
  vm_compute in F. subst resp.
  destruct (POST_failure Date_parse_iso _ _ _ _ _ E) as (_ & Hs & Ha & Hd).
  eexists _, st'. split; [reflexivity |].
  split; [vm_compute; reflexivity |]. split; [vm_compute; reflexivity |].
  split; [exact Hs |]. split; [exact Ha |]. split; [reflexivity |]. split; [| exact Hd].
  intros ->. vm_compute in G. discriminate G.
Defined.

(** ** The part of the store a request can write *)

Lemma write_rows_attendances_other (sid : id) (rows : list row_data) (st : store)
    (K : id * id) :
  fst K <> sid -> attendances (write_rows sid rows st) !! K = attendances st !! K.
Proof.
  intros N. revert st. induction rows as [| r rows IH]; intros st; [reflexivity |].
  cbn [write_rows fold_left]. fold (write_rows sid rows (write_row sid r st)).
  rewrite IH. destruct (write_row_attendances sid r st) as (s & u & _ & ->).
  rewrite decide_False; [reflexivity |]. intros <-. now apply N.
Qed.

Lemma open_session_footprint (d : SessionData) (st : store) :
  (forall c, c <> sd_moduleCode d ->
             modules (snd (open_session d st)) !! c = modules st !! c)
  /\ modules (snd (open_session d st)) !! sd_moduleCode d
     = Some (default (sd_moduleCode d) (modules st !! sd_moduleCode d))
  /\ (forall k, k <> session_key_of d ->
                sessions (snd (open_session d st)) !! k = sessions st !! k)
  /\ sessions (snd (open_session d st)) !! session_key_of d = Some (fst (open_session d st))
  /\ fst (open_session d st)
     = session_of (match sessions st !! session_key_of d with
                   | Some old => session_id old
                   | None => next_id st
                   end) (session_key_of d) d.
Proof.
  unfold open_session, session_upsert, module_upsert.
  destruct (modules st !! sd_moduleCode d) as [n |] eqn:Em;
    cbn [sessions]; destruct (sessions st !! session_key_of d) as [old |] eqn:Es;
    cbn [fst snd modules sessions next_id default];
    rewrite ?lookup_insert_eq, ?Em;
    (repeat split; try reflexivity; intros x Hx; now rewrite lookup_insert_ne).
Qed.

(** X11. A request writes at most one Module, one Session and the
    Attendance records of one session: all other Modules and Sessions and
    the Attendance records of every other session are left as they were.
    On success that session is the one stored under the written key, and
    its id is the [sessionId] of the response. *)
Theorem POST_footprint (Date_parse : string -> option Z) (req : request) (st : store) :
  exists code key sid,
    (forall c, c <> code ->
               modules (snd (POST Date_parse req st)) !! c = modules st !! c)
    /\ (forall k, k <> key ->
                  sessions (snd (POST Date_parse req st)) !! k = sessions st !! k)
    /\ (forall K, fst K <> sid ->
                  attendances (snd (POST Date_parse req st)) !! K = attendances st !! K)
    /\ forall body,
         fst (POST Date_parse req st) = Success body ->
         code = body_moduleCode body /\ sid = body_sessionId body
         /\ exists s, sessions (snd (POST Date_parse req st)) !! key = Some s
                      /\ session_id s = sid.
Proof.
  rewrite POST_store, POST_phases.
  destruct (validate req) as [m | [[[intake year] moduleCode] file]] eqn:V.
  - exists EmptyString, EmptyString, 1%positive. repeat split; try reflexivity; discriminate.
  - cbv zeta.
    set (d := session_data Date_parse intake year moduleCode (split_lines (upload_text file))).
    destruct (open_session_footprint d st) as (Fm & _ & Fs & Hs & Hid).
    exists moduleCode, (session_key_of d), (session_id (fst (open_session d st))).
    destruct (open_session d st) as [session st1] eqn:O. cbn [fst snd] in *.
    destruct (open_session_tables d st) as [_ Ta]. rewrite O in Ta. cbn [snd] in Ta.
    destruct (locate _) as [m | [[cols start] window]] eqn:L.
    + split; [exact Fm |]. split; [exact Fs |]. split; [intros; now rewrite Ta |]. discriminate.
    + destruct (write_rows_tables (session_id session)
                  (rows_of Date_parse cols start window) st1) as [-> ->].
      split; [exact Fm |]. split; [exact Fs |]. split.
      * intros K N. rewrite write_rows_attendances_other by exact N. now rewrite Ta.
      * rewrite import_rows_fold. cbn [fst]. intros body [= <-].
        cbn [body_moduleCode body_sessionId]. eauto.
Qed.

(** X12. After a successful import the Module of the response exists, under
    the name it had or else under its code, and the Session of the response
    is stored under the session key of its own columns, with the intake,
    year, module code and declared duration of the response; its id is the
    one the key had in the store, or else the next generated id. *)
Theorem POST_session_stored (Date_parse : string -> option Z) (req : request)
    (st st' : store) (body : summary_body) :
  POST Date_parse req st = (Success body, st') ->
  modules st' !! body_moduleCode body
  = Some (default (body_moduleCode body) (modules st !! body_moduleCode body))
  /\ exists s,
       sessions st' !! session_sessionKey s = Some s
       /\ session_sessionKey s
          = sessionKey (session_intake s) (session_year s) (session_moduleCode s)
              (session_startTime s) (session_endTime s) (session_meetingName s)
       /\ session_id s = body_sessionId body
       /\ session_id s = match sessions st !! session_sessionKey s with
                         | Some old => session_id old
                         | None => next_id st
                         end
       /\ session_moduleCode s = body_moduleCode body
       /\ session_intake s = body_intake body
       /\ session_year s = body_year body
       /\ session_durationMin s = body_durationMin body.
Proof.
  rewrite POST_phases.
  destruct (validate req) as [m | [[[intake year] moduleCode] file]] eqn:V;
    [discriminate |].
  cbv zeta.
  set (d := session_data Date_parse intake year moduleCode (split_lines (upload_text file))).
  destruct (open_session_footprint d st) as (_ & Hm & _ & Hs & Hid).
  destruct (open_session d st) as [session st1] eqn:O. cbn [fst snd] in *.
  destruct (locate _) as [m | [[cols start] window]] eqn:L; [discriminate |].
  rewrite import_rows_fold. intros [= <- <-].
  cbn [body_moduleCode body_sessionId body_intake body_year body_durationMin].
  destruct (write_rows_tables (session_id session)
              (rows_of Date_parse cols start window) st1) as [-> ->].
  split; [exact Hm |]. exists session. rewrite Hid. cbn. rewrite <- Hid.
  repeat split; try reflexivity. exact Hs.
Qed.

(** A small export: a header row and two participants, one of them without
    an email. *)
Definition roll_call : upload :=
  mkUpload "roll call mn5070nu.csv"
    (Example.unlines
       [ Example.tsv ["Meeting title"; "Lecture 1"];
         "2. Participants";
         Example.tsv ["Name"; "Email"; "In-Meeting Duration"];
         Example.tsv ["Ann"; "Ann@stu.nexteducationgroup.com"; "50m"];
         Example.tsv ["Guest"; ""; "5m"] ]).

Definition roll_call_request : request :=
  mkRequest (Some " fall ") (Some "2026") None (Some roll_call).

Lemma POST_session_stored_witness :
  let r := POST Date_parse_iso roll_call_request Prisma.empty in
  exists body,
    fst r = Success body
    /\ modules (snd r) !! body_moduleCode body
       = Some (default (body_moduleCode body) (modules Prisma.empty !! body_moduleCode body))
    /\ exists s,
         sessions (snd r) !! session_sessionKey s = Some s
         /\ session_sessionKey s
            = sessionKey (session_intake s) (session_year s) (session_moduleCode s)
                (session_startTime s) (session_endTime s) (session_meetingName s)
         /\ session_id s = body_sessionId body
         /\ session_id s = match sessions Prisma.empty !! session_sessionKey s with
                           | Some old => session_id old
                           | None => next_id Prisma.empty
                           end
         /\ session_moduleCode s = body_moduleCode body
         /\ session_intake s = body_intake body
         /\ session_year s = body_year body
         /\ session_durationMin s = body_durationMin body.
Proof.
  cbv zeta.
  destruct (POST Date_parse_iso roll_call_request Prisma.empty) as [resp st'] eqn:E.
  assert (F : fst (POST Date_parse_iso roll_call_request Prisma.empty) = resp)
    by now rewrite E.
  vm_compute in F. subst resp. eexists. split; [reflexivity |].
  exact (POST_session_stored Date_parse_iso _ _ _ _ E).
Defined.

(** ** The eligible rows *)

Lemma count_rows_eligible (rows : list row_data) (cnt : counters) :
  eligibleCount (count_rows rows cnt)
  = (eligibleCount cnt
     + length (filter (fun r => ad_isEligible (row_attendance r) = true) rows))%nat.
Proof.
  revert cnt. induction rows as [| r rows IH]; intros cnt.
  - simpl. lia.
  - cbn [count_rows fold_left]. fold (count_rows rows (count_row r cnt)).
    rewrite IH, filter_cons. unfold count_row. cbn [eligibleCount].
    destruct (ad_isEligible (row_attendance r)).
    + rewrite decide_True by reflexivity. simpl. lia.
    + rewrite decide_False by discriminate. lia.
Qed.

Lemma rows_of_eligible (Date_parse : string -> option Z) (cols : columns) (i : nat)
    (lines : list string) :
  length (filter (fun r => ad_isEligible (row_attendance r) = true)
            (rows_of Date_parse cols i lines))
  = length (filter (fun l => row_counts l
                             && endsWith (row_email cols l) STUDENT_SUFFIX = true) lines).
Proof.
  revert i. induction lines as [| line rest IH]; intros i; [reflexivity |].
  cbn [rows_of]. rewrite (filter_cons _ line).
  destruct (row_counts line) eqn:E; cbn [andb].
  - rewrite filter_cons.
    assert (A : ad_isEligible (row_attendance (row_of Date_parse cols i line))
                = endsWith (row_email cols line) STUDENT_SUFFIX) by reflexivity.
    destruct (endsWith (row_email cols line) STUDENT_SUFFIX).
    + rewrite decide_True by exact A. rewrite decide_True by reflexivity.
      simpl. now rewrite IH.
    + rewrite decide_False by (rewrite A; discriminate).
      rewrite decide_False by discriminate. apply IH.
  - rewrite decide_False by discriminate. apply IH.
Qed.

(** X13. The [eligibleCount] of a successful import is the number of lines
    of the Section 2 window that count as rows and whose email, trimmed
    and in lower case, ends with the student suffix; it never exceeds
    [rowsRead].  A student listed on two lines is counted twice. *)
Theorem POST_eligible_count (Date_parse : string -> option Z) (req : request)
    (st st' : store) (body : summary_body) :
  POST Date_parse req st = (Success body, st') ->
  (body_eligibleCount body <= body_rowsRead body)%nat
  /\ exists file cols start window,
       form_file req = Some file
       /\ locate (split_lines (upload_text file)) = inr (cols, start, window)
       /\ body_eligibleCount body
          = length (filter (fun l => row_counts l
                                     && endsWith (row_email cols l) STUDENT_SUFFIX = true)
                      window).
Proof.
  rewrite POST_phases.
  destruct (validate req) as [msg | [[[intake year] moduleCode] file]] eqn:V;
    [discriminate |].
  cbv zeta. destruct (open_session _ st) as [session st1].
  destruct (locate (split_lines (upload_text file))) as [msg | [[cols start] window]] eqn:L;
    [discriminate |].
  rewrite import_rows_fold. intros [= <- _].
  cbn [body_rowsRead body_eligibleCount].
  destruct (count_rows_read (rows_of Date_parse cols start window) (mkCounters 0 0 0))
    as [-> _].
  rewrite count_rows_eligible. cbn [rowsRead eligibleCount plus]. split.
  - apply length_filter.
  - exists file, cols, start, window.
    split; [exact (validate_file _ _ _ _ _ V) |]. split; [exact L |].
    apply rows_of_eligible.
Qed.

Lemma POST_eligible_count_witness :
  let r := POST Date_parse_iso (Example.request_of "Spring" "2026" Example.export)
             Prisma.empty in
  exists body,
    fst r = Success body
    /\ body_eligibleCount body = 2%nat /\ size (students (snd r)) = 3%nat
    /\ (body_eligibleCount body <= body_rowsRead body)%nat.
Proof.
  cbv zeta.
  destruct (POST Date_parse_iso (Example.request_of "Spring" "2026" Example.export)
              Prisma.empty) as [resp st'] eqn:E.
  assert (F : fst (POST Date_parse_iso (Example.request_of "Spring" "2026" Example.export)
                     Prisma.empty) = resp) by now rewrite E.
  assert (G : size (students (snd (POST Date_parse_iso
                (Example.request_of "Spring" "2026" Example.export) Prisma.empty))) = 3%nat)
    by (vm_compute; reflexivity).
  rewrite E in G. cbn [snd] in G.
  vm_compute in F. subst resp.
  eexists. split; [reflexivity |]. split; [reflexivity |]. split; [exact G |].
  exact (proj1 (POST_eligible_count Date_parse_iso _ _ _ _ E)).
Defined.

(** ** The response of a successful import *)

(** X14. The success response echoes the request: the intake is the
    normalised form field, the year its conversion to a number, and the
    module code is the form field, trimmed and in upper case, whenever that
    is not empty; the code in the file name is used only when it is.  The
    source is always "section2_only". *)
Theorem POST_body (Date_parse : string -> option Z) (req : request)
    (st st' : store) (body : summary_body) :
  POST Date_parse req st = (Success body, st') ->
  body_intake body = normIntake (default EmptyString (form_intake req))
  /\ body_year body = Number (default EmptyString (form_year req))
  /\ body_sourceUsed body = "section2_only"
  /\ (normModuleCode (default EmptyString (form_moduleCode req)) <> EmptyString ->
      body_moduleCode body = normModuleCode (default EmptyString (form_moduleCode req)))
  /\ (normModuleCode (default EmptyString (form_moduleCode req)) = EmptyString ->
      exists file,
        form_file req = Some file
        /\ parseModuleCodeFromFilename (upload_name file) = Some (body_moduleCode body)).
Proof.
  rewrite POST_phases. unfold validate.
  destruct (_ || _ || _); [discriminate |].
  destruct (form_file req) as [file |]; [| discriminate].
  destruct (normModuleCode (default EmptyString (form_moduleCode req))) as [| c code] eqn:N;
    cbn [JsString.truthy].
  - destruct (parseModuleCodeFromFilename (upload_name file)) as [code |] eqn:P;
      [| discriminate].
    destruct (negb (JsString.truthy code)); [discriminate |].
    cbv zeta. destruct (open_session _ st) as [session st1].
    destruct (locate _) as [msg | [[cols start] window]]; [discriminate |].
    destruct (import_rows _ _ _ _ _ _) as [cnt st2]. intros [= <- _].
    cbn. repeat split; try congruence. intros _. eauto.
  - cbn [negb]. cbv zeta. destruct (open_session _ st) as [session st1].
    destruct (locate _) as [msg | [[cols start] window]]; [discriminate |].
    destruct (import_rows _ _ _ _ _ _) as [cnt st2]. intros [= <- _].
    cbn. repeat split; congruence.
Qed.

Lemma POST_body_witness :
  let r := POST Date_parse_iso roll_call_request Prisma.empty in
  exists body,
    fst r = Success body
    /\ body_intake body = "Autumn" /\ body_moduleCode body = "MN5070NU"
    /\ body_intake body = normIntake " fall "
    /\ body_year body = Number "2026"
    /\ body_sourceUsed body = "section2_only"
    /\ (normModuleCode EmptyString <> EmptyString ->
        body_moduleCode body = normModuleCode EmptyString)
    /\ (normModuleCode EmptyString = EmptyString ->
        exists file,
          Some roll_call = Some file
          /\ parseModuleCodeFromFilename (upload_name file) = Some (body_moduleCode body)).
Proof.
  cbv zeta.
  destruct (POST Date_parse_iso roll_call_request Prisma.empty) as [resp st'] eqn:E.
  assert (F : fst (POST Date_parse_iso roll_call_request Prisma.empty) = resp)
    by now rewrite E.
  vm_compute in F. subst resp. eexists. split; [reflexivity |].
  split; [reflexivity |]. split; [reflexivity |].
  exact (POST_body Date_parse_iso _ _ _ _ E).
Defined.

(** ** Lines of one student

    An upsert replaces: when several lines of the window have the same
    student, the Attendance record holds the columns of the last of them;
    durations are not added up. *)

(** The columns of a stored record that an upsert writes. *)
Definition attendance_data (a : Attendance) : AttendanceData :=
  mkAttendanceData (attendance_emailRaw a) (attendance_firstJoin a)
    (attendance_lastLeave a) (attendance_minutes a) (attendance_role a)
    (attendance_isEligible a).

Definition recorded_as (sid : id) (r : row_data) (st : store) : Prop :=
  exists stu att,
    students st !! row_key r = Some stu
    /\ attendances st !! (sid, student_id stu) = Some att
    /\ attendance_data att = row_attendance r
    /\ forall n, row_name r = Some n -> student_name stu = Some n.

Lemma write_row_recorded_as (sid : id) (r : row_data) (st : store) :
  recorded_as sid r (write_row sid r st).
Proof.
  destruct (write_row_attendances sid r st) as (s & u & Hs & Ha).
  exists s. eexists. split; [exact Hs |]. split.
  - rewrite Ha, decide_True by reflexivity. reflexivity.
  - split.
    + unfold redata, attendance_data, attendance_of. cbn. now destruct (row_attendance r).
    + intros n Hn. rewrite write_row_students, decide_True in Hs by reflexivity.
      injection Hs as <-. unfold rename. cbn. now rewrite Hn.
Qed.

Lemma write_row_keeps_as (sid : id) (r r' : row_data) (st : store) :
  store_wf st -> row_key r' <> row_key r ->
  recorded_as sid r st -> recorded_as sid r (write_row sid r' st).
Proof.
  intros W N (stu & att & Hs & Ha & Hd & Hn).
  pose proof (write_row_wf sid r' st W) as W'.
  destruct (write_row_attendances sid r' st) as (s & u & Hs' & Hatt).
  assert (Hk : students (write_row sid r' st) !! row_key r = Some stu).
  { rewrite write_row_students, decide_False by exact N. exact Hs. }
  exists stu, att. split; [exact Hk |]. split; [| auto].
  rewrite Hatt, decide_False; [exact Ha |].
  intros [= E]. apply N. exact (wf_ids _ W' _ _ _ _ Hs' Hk E).
Qed.

Lemma write_rows_keep_as (sid : id) (rows : list row_data) (r : row_data) (st : store) :
  store_wf st -> Forall (fun r' => row_key r' <> row_key r) rows ->
  recorded_as sid r st -> recorded_as sid r (write_rows sid rows st).
Proof.
  intros W F. revert st W. induction F as [| r' rows Hr _ IH]; intros st W R; [exact R |].
  cbn [write_rows fold_left]. apply IH; [now apply write_row_wf | now apply write_row_keeps_as].
Qed.

Lemma write_rows_app (sid : id) (a b : list row_data) (st : store) :
  write_rows sid (a ++ b) st = write_rows sid b (write_rows sid a st).
Proof. unfold write_rows. apply fold_left_app. Qed.

Lemma write_rows_last (sid : id) (pre post : list row_data) (r : row_data) (st : store) :
  store_wf st -> Forall (fun r' => row_key r' <> row_key r) post ->
  recorded_as sid r (write_rows sid (pre ++ r :: post) st).
Proof.
  intros W F. rewrite write_rows_app. cbn [write_rows fold_left].
  fold (write_rows sid pre st). fold (write_rows sid post (write_row sid r (write_rows sid pre st))).
  apply write_rows_keep_as; [| exact F | apply write_row_recorded_as].
  now apply write_row_wf, write_rows_wf.
Qed.

Section LastRow.

Variable Date_parse : string -> option Z.
Variable cols : columns.

Lemma rows_of_app (i : nat) (a b : list string) :
  rows_of Date_parse cols i (a ++ b)
  = (rows_of Date_parse cols i a ++ rows_of Date_parse cols (i + length a) b)%list.
Proof.
  revert i. induction a as [| l a IH]; intros i.
  - cbn. now rewrite Nat.add_0_r.
  - cbn [app rows_of length]. rewrite IH, <- Nat.add_succ_comm.
    now destruct (row_counts l).
Qed.

Lemma rows_of_keys (i : nat) (lines : list string) (P : string -> Prop) :
  (forall j l, lines !! j = Some l -> row_counts l = true ->
               P (student_key (row_email cols l) (i + j))) ->
  Forall (fun r => P (row_key r)) (rows_of Date_parse cols i lines).
Proof.
  revert i. induction lines as [| l ls IH]; intros i H; cbn [rows_of]; [constructor |].
  assert (T : Forall (fun r => P (row_key r)) (rows_of Date_parse cols (S i) ls)).
  { apply IH. intros j x Hj Hx. rewrite Nat.add_succ_comm. exact (H (S j) x Hj Hx). }
  destruct (row_counts l) eqn:E; [| exact T].
  constructor; [| exact T]. rewrite row_of_key.
  specialize (H 0%nat l eq_refl E). now rewrite Nat.add_0_r in H.
Qed.

End LastRow.

(** X15. When a student has several lines in the Section 2 window, the
    Attendance record of the import holds the columns of the last of them:
    for a counted line that no later counted line shares its student
    with, the stored record has exactly the email, join and leave times,
    minutes, role and eligibility read from that line, and the Student
    has the line's name if the line has one.  Durations of earlier lines
    of the student are overwritten, not added. *)
Theorem POST_last_row (Date_parse : string -> option Z) (req : request)
    (st st' : store) (body : summary_body) :
  store_wf st ->
  POST Date_parse req st = (Success body, st') ->
  exists file cols start window,
    form_file req = Some file
    /\ locate (split_lines (upload_text file)) = inr (cols, start, window)
    /\ forall k line,
         window !! k = Some line -> row_counts line = true ->
         (forall j l, (k < j)%nat -> window !! j = Some l -> row_counts l = true ->
                      student_key (row_email cols l) (start + j)
                      <> student_key (row_email cols line) (start + k)) ->
         exists stu att,
           students st' !! student_key (row_email cols line) (start + k)%nat = Some stu
           /\ attendances st' !! (body_sessionId body, student_id stu) = Some att
           /\ attendance_data att
              = row_attendance (row_of Date_parse cols (start + k)%nat line)
           /\ forall n, row_name (row_of Date_parse cols (start + k)%nat line) = Some n ->
                        student_name stu = Some n.
Proof.
  intros W H.
  destruct (POST_success Date_parse req st st' body H)
    as (file & cols & start & window & st1 & Hf & L & W1 & ->).
  exists file, cols, start, window. split; [exact Hf |]. split; [exact L |].
  intros k line Hk Hc Hlast.
  rewrite <- (take_drop_middle window k line Hk), rows_of_app. cbn [rows_of]. rewrite Hc.
  assert (Hlen : length (take k window) = k).
  { apply length_take_le. apply lookup_lt_Some in Hk. lia. }
  rewrite Hlen.
  apply (write_rows_last (body_sessionId body)); [exact (W1 W) |].
  apply (rows_of_keys Date_parse cols (S (start + k)) (drop (S k) window)
           (fun key => key <> student_key (row_email cols line) (start + k))).
  intros j l Hj Hl. rewrite lookup_drop in Hj.
  replace (S (start + k) + j)%nat with (start + (S k + j))%nat by lia.
  apply (Hlast (S k + j)%nat l); [lia | exact Hj | exact Hl].
Qed.

(** In the example export the student alice has the lines 9 and 12 of
    the file: the record holds the raw email and the 30 seconds of line 12. *)
Lemma POST_last_row_witness :
  exists body st' stu att,
    POST Date_parse_iso (Example.request_of "Spring" "2026" Example.export) Prisma.empty
    = (Success body, st')
    /\ students st' !! "alice@stu.nexteducationgroup.com" = Some stu
    /\ attendances st' !! (body_sessionId body, student_id stu) = Some att
    /\ attendance_emailRaw att = "alice@stu.nexteducationgroup.com"
    /\ attendance_minutes att = parseMinutes "30s".
Proof.
  destruct (POST Date_parse_iso (Example.request_of "Spring" "2026" Example.export)
              Prisma.empty) as [resp st'] eqn:E.
  assert (F : fst (POST Date_parse_iso (Example.request_of "Spring" "2026" Example.export)
                     Prisma.empty) = resp) by now rewrite E.
  vm_compute in F. subst resp.
  destruct (POST_last_row Date_parse_iso _ _ _ _ empty_wf E)
    as (file & cols & start & window & Hf & L & Hrows).
  injection Hf as <-. vm_compute in L. injection L as <- <- <-.
  destruct (Hrows 3%nat _ eq_refl eq_refl) as (stu & att & Hs & Ha & Hd & _).
  { intros j l Hj Hw Hc.
    destruct j as [| [| [| [| [| j]]]]]; try lia; cbn in Hw; [| discriminate Hw].
    injection Hw as <-. discriminate Hc. }
  eexists _, st', stu, att. split; [reflexivity |].
  split; [exact Hs |]. split; [exact Ha |].
  split; [exact (f_equal ad_emailRaw Hd) | exact (f_equal ad_minutes Hd)].
Defined.

(** ** Students the file does not name *)

(** X16. A successful import leaves alone every Student whose email is not
    the key of a counted line of the Section 2 window. *)
Theorem POST_students_frame (Date_parse : string -> option Z) (req : request)
    (st st' : store) (body : summary_body) (file : upload) (cols : columns)
    (start : nat) (window : list string) (k : string) :
  POST Date_parse req st = (Success body, st') ->
  form_file req = Some file ->
  locate (split_lines (upload_text file)) = inr (cols, start, window) ->
  (forall i line, window !! i = Some line -> row_counts line = true ->
                  student_key (row_email cols line) (start + i) <> k) ->
  students st' !! k = students st !! k.
Proof.
  intros H Hf L Hk.
  pose proof (POST_store Date_parse req st) as S. rewrite H in S. cbn [snd] in S.
  destruct (validate req) as [msg | [[[intake year] moduleCode] file']] eqn:V.
  - rewrite POST_phases, V in H. discriminate H.
  - pose proof (validate_file _ _ _ _ _ V) as Hf'. rewrite Hf in Hf'. injection Hf' as <-.
    cbv zeta in S. rewrite L in S. subst st'.
    rewrite write_rows_students_frame.
    + now rewrite (proj1 (open_session_tables _ st)).
    + apply (rows_of_keys Date_parse cols start window (fun key => key <> k)). exact Hk.
Qed.

Lemma POST_students_frame_witness :
  let r := POST Date_parse_iso roll_call_request
             (snd (POST Date_parse_iso (Example.request_of "Spring" "2026" Example.export)
                     Prisma.empty)) in
  students (snd r) !! "bob@nexteducationgroup.com"
  = students (snd (POST Date_parse_iso (Example.request_of "Spring" "2026" Example.export)
                     Prisma.empty)) !! "bob@nexteducationgroup.com".
Proof.
  cbv zeta.
  set (st := snd (POST Date_parse_iso (Example.request_of "Spring" "2026" Example.export)
                    Prisma.empty)).
  destruct (POST Date_parse_iso roll_call_request st) as [resp st'] eqn:E.
  assert (F : exists body, fst (POST Date_parse_iso roll_call_request st) = Success body).
  { vm_compute. eauto. }
  destruct F as [body F]. rewrite E in F. cbn [fst] in F. subst resp. cbn [snd].
  apply (POST_students_frame Date_parse_iso roll_call_request st st' body roll_call
           (mkColumns 0 1 None None 2 None)%nat 3%nat
           [Example.tsv ["Ann"; "Ann@stu.nexteducationgroup.com"; "50m"];
            Example.tsv ["Guest"; ""; "5m"]] _ E eq_refl).
  - vm_compute. reflexivity.
  - intros i line Hw Hc.
    destruct i as [| [| i]]; cbn in Hw; [| | discriminate Hw];
      injection Hw as <-; vm_compute; discriminate.
Defined.

(** ** Session keys that collide, and keys that cannot *)

(** X17. The session key does not see letter case: two intakes that differ
    only in case (free-text intakes are kept as typed) and two meeting
    titles that differ only in case give the same key, hence the same
    Session. *)
Theorem sessionKey_case (intake1 intake2 : string) (year : float) (moduleCode : string)
    (startTime endTime : option Z) (name1 name2 : option string) :
  toLowerCase intake1 = toLowerCase intake2 ->
  toLowerCase (default EmptyString name1) = toLowerCase (default EmptyString name2) ->
  sessionKey intake1 year moduleCode startTime endTime name1
  = sessionKey intake2 year moduleCode startTime endTime name2.
Proof.
  intros Hi Hn. rewrite !sessionKey_parts. unfold key_tail. now rewrite Hi, Hn.
Qed.

Lemma sessionKey_case_witness :
  normIntake "Winter" <> normIntake "WINTER"
  /\ sessionKey (normIntake "Winter") 2026 "MN5070NU" None None (Some "Lecture 1")
     = sessionKey (normIntake "WINTER") 2026 "MN5070NU" None None (Some "LECTURE 1").
Proof.
  split; [vm_compute; discriminate |].
  apply sessionKey_case; reflexivity.
Defined.

Definition PIPE : ascii := "|"%char.

Fixpoint has_char (c : ascii) (s : string) : bool :=
  match s with
  | EmptyString => false
  | String x r => Ascii.eqb x c || has_char c r
  end.

Lemma lower_char_pipe (c : ascii) :
  Ascii.eqb (lower_char c) PIPE = Ascii.eqb c PIPE.
Proof. destruct c as [[] [] [] [] [] [] [] []]; vm_compute; reflexivity. Qed.

Lemma toLowerCase_pipe (s : string) : has_char PIPE (toLowerCase s) = has_char PIPE s.
Proof.
  induction s as [| c r IH]; [reflexivity |].
  cbn [toLowerCase has_char]. now rewrite lower_char_pipe, IH.
Qed.

(** The text before the first separator. *)
Lemma first_field_inj (a b r r' : string) :
  has_char PIPE a = false -> has_char PIPE b = false ->
  a +:+ String PIPE r = b +:+ String PIPE r' -> a = b.
Proof.
  revert b. induction a as [| x a IH]; intros [| y b] Ha Hb E; cbn [String.append] in E.
  - reflexivity.
  - injection E as <- _. cbn [has_char] in Hb. now rewrite Ascii.eqb_refl in Hb.
  - injection E as -> _. cbn [has_char] in Ha. now rewrite Ascii.eqb_refl in Ha.
  - injection E as <- E. cbn [has_char] in Ha, Hb.
    apply orb_false_elim in Ha as [_ Ha]. apply orb_false_elim in Hb as [_ Hb].
    f_equal. exact (IH b Ha Hb E).
Qed.

(** X18. The key is cohort-aware: two intakes without a "|" that differ
    otherwise than by letter case never share a session key, whatever the
    years, module codes, times and titles.  The three known intakes,
    "Spring", "Summer" and "Autumn", are such. *)
Theorem sessionKey_intake (intake1 intake2 : string) (year1 year2 : float)
    (code1 code2 : string) (start1 start2 end1 end2 : option Z)
    (name1 name2 : option string) :
  has_char PIPE intake1 = false -> has_char PIPE intake2 = false ->
  toLowerCase intake1 <> toLowerCase intake2 ->
  sessionKey intake1 year1 code1 start1 end1 name1
  <> sessionKey intake2 year2 code2 start2 end2 name2.
Proof.
  intros H1 H2 N E. apply N. rewrite !sessionKey_parts in E.
  apply first_field_inj in E; [exact E | |]; now rewrite toLowerCase_pipe.
Qed.

Lemma sessionKey_intake_witness :
  sessionKey (normIntake "spring") 2026 "MN5070NU" None None (Some "Lecture 1")
  <> sessionKey (normIntake "fall") 2026 "MN5070NU" None None (Some "Lecture 1").
Proof.
  apply sessionKey_intake; [reflexivity | reflexivity | vm_compute; discriminate].
Defined.

(** ** The entries of the summary *)

(** The entry a line contributes, if any. *)
Definition summary_entry (line : string) : option (string * string) :=
  let parts := JsString.split TAB line in
  if (2 <=? length parts)%nat
     && JsString.truthy (trim (part parts 0)) && JsString.truthy (trim (part parts 1))
  then Some (trim (part parts 0), trim (part parts 1))
  else None.

Lemma read_summary_cons (line : string) (rest : list string) (summary : gmap string string) :
  read_summary (line :: rest) summary
  = let summary' := match summary_entry line with
                    | Some (k, v) => <[k := v]> summary
                    | None => summary
                    end in
    if is_section2 line then summary' else read_summary rest summary'.
Proof.
  cbn [read_summary]. unfold summary_entry.
  destruct (2 <=? length (JsString.split TAB line))%nat; [| reflexivity]. cbn [andb].
  destruct (JsString.truthy (trim (part (JsString.split TAB line) 0))
            && JsString.truthy (trim (part (JsString.split TAB line) 1))); reflexivity.
Qed.

(** X19. Every entry of the summary is read from a line: its key and its
    value are the first two tab-separated fields of some line, trimmed, and
    neither is empty; so a field such as "Meeting title" with an empty
    value is absent from the summary, not empty in it. *)
Theorem read_summary_entries (lines : list string) (k v : string) :
  read_summary lines ∅ !! k = Some v ->
  k <> EmptyString /\ v <> EmptyString /\ trim k = k /\ trim v = v
  /\ exists line,
       In line lines
       /\ (2 <= length (JsString.split TAB line))%nat
       /\ trim (part (JsString.split TAB line) 0) = k
       /\ trim (part (JsString.split TAB line) 1) = v.
Proof.
  assert (G : forall summary,
             read_summary lines summary !! k = Some v ->
             summary !! k = Some v
             \/ exists line, In line lines /\ summary_entry line = Some (k, v)).
  { induction lines as [| line rest IH]; intros summary; [cbn; auto |].
    rewrite read_summary_cons. cbv zeta.
    assert (S : forall m : gmap string string,
               match summary_entry line with
               | Some (k', v') => <[k' := v']> summary
               | None => summary
               end = m -> m !! k = Some v ->
               summary !! k = Some v
               \/ exists l, In l (line :: rest) /\ summary_entry l = Some (k, v)).
    { intros m <-. destruct (summary_entry line) as [[k' v'] |] eqn:E; [| auto].
      rewrite lookup_insert. case_decide; [| auto].
      intros [= <-]. subst k'. right. exists line. split; [now left | exact E]. }
    destruct (is_section2 line).
    - apply S. reflexivity.
    - intros H. destruct (IH _ H) as [H' | (l & Hin & Hl)].
      + exact (S _ eq_refl H').
      + right. exists l. split; [now right | exact Hl]. }
  intros H. destruct (G ∅ H) as [H' | (line & Hin & E)].
  - rewrite lookup_empty in H'. discriminate.
  - unfold summary_entry in E.
    destruct (2 <=? length (JsString.split TAB line))%nat eqn:E2; [| discriminate].
    cbn [andb] in E.
    destruct (trim (part (JsString.split TAB line) 0)) as [| c0 r0] eqn:E0;
      [discriminate |].
    destruct (trim (part (JsString.split TAB line) 1)) as [| c1 r1] eqn:E1;
      [discriminate |].
    cbn [JsString.truthy andb] in E. injection E as <- <-.
    split; [discriminate |]. split; [discriminate |].
    split; [rewrite <- E0; apply trim_twice |]. split; [rewrite <- E1; apply trim_twice |].
    exists line. split; [exact Hin |]. split; [now apply Nat.leb_le |]. auto.
Qed.

Lemma read_summary_entries_witness :
  "Meeting title" <> EmptyString /\ "Weekly Standup" <> EmptyString
  /\ trim "Meeting title" = "Meeting title" /\ trim "Weekly Standup" = "Weekly Standup"
  /\ exists line,
       In line Example.export_lines
       /\ (2 <= length (JsString.split TAB line))%nat
       /\ trim (part (JsString.split TAB line) 0) = "Meeting title"
       /\ trim (part (JsString.split TAB line) 1) = "Weekly Standup".
Proof.
  apply read_summary_entries. vm_compute. reflexivity.
Defined.

(** ** Lines *)

Definition unlines_with (eol : string) (ls : list string) : string :=
  String.concat eol ls.

Lemma split_lines_cons (c : ascii) (r : string) :
  Ascii.eqb c LF = false ->
  match r with
  | String c' _ => Ascii.eqb c CR && Ascii.eqb c' LF = false
  | EmptyString => True
  end ->
  exists l ls, split_lines r = l :: ls /\ split_lines (String c r) = String c l :: ls.
Proof.
  intros E H.
  assert (N : split_lines r <> []).
  { clear. destruct r as [| c r]; cbn [split_lines]; [discriminate |].
    destruct (Ascii.eqb c LF); [discriminate |].
    destruct r as [| c' r']; [discriminate |].
    destruct (Ascii.eqb c CR && Ascii.eqb c' LF); [discriminate |].
    destruct (split_lines (String c' r')); discriminate. }
  cbn [split_lines]. rewrite E. destruct r as [| c' r'].
  - cbn. eauto.
  - rewrite H. destruct (split_lines (String c' r')) as [| l ls]; [contradiction | eauto].
Qed.

(** A line followed by LF: the line must not end in CR, or the CR goes
    with the terminator. *)
Lemma split_lines_lf (l r : string) :
  has_char LF l = false -> last_char l <> Some CR ->
  split_lines (l +:+ String LF r) = l :: split_lines r.
Proof.
  induction l as [| c l IH]; intros Hl Hc.
  - cbn [String.append split_lines]. now rewrite Ascii.eqb_refl.
  - cbn [has_char] in Hl. apply orb_false_elim in Hl as [Ec Hl].
    cbn [String.append].
    destruct (split_lines_cons c (l +:+ String LF r) Ec) as (x & xs & E1 & ->).
    + destruct l as [| c' l']; cbn [String.append].
      * cbn [last_char] in Hc. destruct (Ascii.eqb_spec c CR) as [-> |]; [congruence |].
        reflexivity.
      * cbn [has_char] in Hl. apply orb_false_elim in Hl as [-> _]. apply andb_false_r.
    + rewrite IH in E1; [now injection E1 as <- <- | exact Hl |].
      destruct l as [| c' l']; [discriminate | exact Hc].
Qed.

(** A line followed by CR LF. *)
Lemma split_lines_crlf (l r : string) :
  has_char LF l = false ->
  split_lines (l +:+ String CR (String LF r)) = l :: split_lines r.
Proof.
  induction l as [| c l IH]; intros Hl.
  - reflexivity.
  - cbn [has_char] in Hl. apply orb_false_elim in Hl as [Ec Hl].
    cbn [String.append].
    destruct (split_lines_cons c (l +:+ String CR (String LF r)) Ec) as (x & xs & E1 & ->).
    + destruct l as [| c' l']; cbn [String.append].
      * apply andb_false_r.
      * cbn [has_char] in Hl. apply orb_false_elim in Hl as [-> _]. apply andb_false_r.
    + rewrite IH in E1 by exact Hl. now injection E1 as <- <-.
Qed.

Lemma split_lines_last (l : string) : has_char LF l = false -> split_lines l = [l].
Proof.
  induction l as [| c l IH]; intros Hl; [reflexivity |].
  cbn [has_char] in Hl. apply orb_false_elim in Hl as [Ec Hl].
  destruct (split_lines_cons c l Ec) as (x & xs & E1 & ->).
  - destruct l as [| c' l']; [exact I |].
    cbn [has_char] in Hl. apply orb_false_elim in Hl as [-> _]. apply andb_false_r.
  - rewrite IH in E1 by exact Hl. now injection E1 as <- <-.
Qed.

(** X20. Splitting inverts joining: lines without a line feed, joined by
    LF or by CR LF, are the lines [text.split(/\r?\n/)] returns; joined by
    LF alone, a line before a terminator must not end in CR (that CR would
    be taken as part of the terminator). *)
Theorem split_lines_unlines (ls : list string) (l : string) (crlf : bool) :
  Forall (fun x => has_char LF x = false
                   /\ (crlf = false -> last_char x <> Some CR)) ls ->
  has_char LF l = false ->
  split_lines (unlines_with (if crlf then String CR (String LF EmptyString)
                             else String LF EmptyString) (ls ++ [l]))
  = (ls ++ [l])%list.
Proof.
  intros H Hl. unfold unlines_with. induction H as [| x xs [Hx Hc] _ IH].
  - cbn. now apply split_lines_last.
  - cbn [app String.concat]. destruct (xs ++ [l])%list as [| y ys] eqn:E.
    + now destruct xs.
    + destruct crlf; cbn [String.append].
      * rewrite split_lines_crlf by exact Hx. now rewrite IH.
      * rewrite split_lines_lf; [now rewrite IH | exact Hx | now apply Hc].
Qed.

Lemma split_lines_unlines_witness :
  split_lines (unlines_with (String LF EmptyString)
                 (["1. Summary"; Example.tsv ["Meeting title"; "Weekly Standup"]; ""]
                  ++ ["2. Participants"]))
  = (["1. Summary"; Example.tsv ["Meeting title"; "Weekly Standup"]; ""]
     ++ ["2. Participants"])%list.
Proof.
  apply (split_lines_unlines _ _ false).
  - repeat constructor; discriminate.
  - reflexivity.
Defined.

(** ** [normModuleCode] *)

Lemma upper_char_facts (c : ascii) :
  is_space (upper_char c) = is_space c
  /\ upper_char (upper_char c) = upper_char c
  /\ ((code c =? 223)%N = false -> (code (upper_char c) =? 223)%N = false)
  /\ ((code c =? 223)%N = true -> is_space c = false).
Proof. destruct c as [[] [] [] [] [] [] [] []]; vm_compute; auto. Qed.

Lemma toUpperCase_cons (c : ascii) (r : string) :
  exists c' r', toUpperCase (String c r) = String c' r' /\ is_space c' = is_space c.
Proof.
  cbn [toUpperCase]. destruct (code c =? 223)%N eqn:E.
  - eexists _, _. split; [reflexivity |].
    symmetry. exact (proj2 (proj2 (proj2 (upper_char_facts c))) E).
  - eexists _, _. split; [reflexivity |]. apply upper_char_facts.
Qed.

Lemma toUpperCase_trimStart (s : string) :
  trimStart (toUpperCase s) = toUpperCase (trimStart s).
Proof.
  induction s as [| c r IH]; [reflexivity |].
  cbn [trimStart]. destruct (toUpperCase_cons c r) as (c' & r' & E & Hs).
  destruct (is_space c) eqn:Ec.
  - cbn [toUpperCase].
    destruct (code c =? 223)%N eqn:E9.
    + rewrite (proj2 (proj2 (proj2 (upper_char_facts c))) E9) in Ec. discriminate.
    + cbn [trimStart]. rewrite (proj1 (upper_char_facts c)), Ec. exact IH.
  - rewrite E. cbn [trimStart]. now rewrite Hs.
Qed.

Lemma toUpperCase_empty (s : string) : toUpperCase s = EmptyString -> s = EmptyString.
Proof.
  destruct s as [| c r]; [reflexivity |]. cbn [toUpperCase].
  destruct (code c =? 223)%N; discriminate.
Qed.

Lemma toUpperCase_trimEnd (s : string) :
  trimEnd (toUpperCase s) = toUpperCase (trimEnd s).
Proof.
  induction s as [| c r IH]; [reflexivity |].
  rewrite (trimEnd_cons c r). cbn [toUpperCase].
  destruct (code c =? 223)%N eqn:E9.
  - pose proof (proj2 (proj2 (proj2 (upper_char_facts c))) E9) as Hs.
    rewrite !trimEnd_cons, IH.
    destruct (trimEnd r) as [| x r'] eqn:Er.
    + cbn [toUpperCase]. rewrite Hs. cbn [toUpperCase]. now rewrite E9.
    + destruct (toUpperCase (String x r')) eqn:Eu;
        [apply toUpperCase_empty in Eu; discriminate |].
      cbn [toUpperCase] in Eu |- *. now rewrite E9, Eu.
  - rewrite trimEnd_cons, IH, (proj1 (upper_char_facts c)).
    destruct (trimEnd r) as [| x r'] eqn:Er.
    + cbn [toUpperCase]. destruct (is_space c); [reflexivity |].
      cbn [toUpperCase]. now rewrite E9.
    + destruct (toUpperCase (String x r')) eqn:Eu;
        [apply toUpperCase_empty in Eu; discriminate |].
      cbn [toUpperCase] in Eu |- *. now rewrite E9, Eu.
Qed.

Lemma toUpperCase_twice (s : string) : toUpperCase (toUpperCase s) = toUpperCase s.
Proof.
  induction s as [| c r IH]; [reflexivity |].
  cbn [toUpperCase]. destruct (code c =? 223)%N eqn:E9.
  - cbn [toUpperCase]. now rewrite IH.
  - cbn [toUpperCase].
    rewrite (proj1 (proj2 (proj2 (upper_char_facts c))) E9).
    now rewrite (proj1 (proj2 (upper_char_facts c))), IH.
Qed.

Lemma toUpperCase_trim (s : string) : trim (toUpperCase s) = toUpperCase (trim s).
Proof. unfold trim. now rewrite toUpperCase_trimStart, toUpperCase_trimEnd. Qed.

(** X21. [normModuleCode] is idempotent and commutes with trimming: a
    normalized module code, posted again, is the same code. *)
Theorem normModuleCode_twice (v : string) :
  normModuleCode (normModuleCode v) = normModuleCode v
  /\ trim (normModuleCode v) = normModuleCode v.
Proof.
  unfold normModuleCode. rewrite !toUpperCase_trim, !trim_twice, toUpperCase_twice. auto.
Qed.

(** ** Units that add up to nothing

    A string with a unit letter is not a number: when the units of a
    duration add up to zero the bare-number fallback finds [NaN]. *)

Definition is_unit_char (c : ascii) : bool :=
  Ascii.eqb (Regex.canon c) "H" || Ascii.eqb (Regex.canon c) "M"
  || Ascii.eqb (Regex.canon c) "S".

(** What a unit letter is not. *)
Lemma unit_char_facts (c : ascii) :
  is_unit_char c = true ->
  is_digit c = false /\ is_space c = false /\ hex_val c = None
  /\ ~ In c (list_ascii_of_string "eE+-.0xXoObB")
  /\ ~ In c (list_ascii_of_string "Infinity").
Proof.
  destruct c as [[] [] [] [] [] [] [] []]; vm_compute; intros H; try discriminate H;
    (split; [reflexivity |]; split; [reflexivity |]; split; [reflexivity |]);
    split; intros F; repeat (destruct F as [F | F]; [discriminate F |]); exact F.
Qed.

Lemma unit_char_canon (u c : ascii) :
  u = "h"%char \/ u = "m"%char \/ u = "s"%char ->
  Ascii.eqb (Regex.canon c) (Regex.canon u) = true -> is_unit_char c = true.
Proof.
  unfold is_unit_char. intros [-> | [-> | ->]] H;
    change (Regex.canon "h") with "H"%char in H;
    change (Regex.canon "m") with "M"%char in H;
    change (Regex.canon "s") with "S"%char in H; rewrite H;
    rewrite ?orb_true_r; reflexivity.
Qed.

Lemma span_digits_keeps (l : list ascii) (c : ascii) :
  In c l -> is_digit c = false -> In c (snd (span_digits l)).
Proof.
  intros Hin Hd. induction l as [| x l IH]; [destruct Hin |].
  cbn [span_digits]. destruct (is_digit x) eqn:E.
  - destruct Hin as [-> | Hin]; [congruence |].
    destruct (span_digits l) as [ds rest]. cbn [snd] in *. auto.
  - exact Hin.
Qed.

Lemma radix_val_letter (b acc : Z) (l : list ascii) (c : ascii) :
  In c l -> hex_val c = None -> radix_val b acc l = None.
Proof.
  intros Hin Hc. revert acc. induction l as [| x l IH]; intros acc; [destruct Hin |].
  cbn [radix_val]. destruct Hin as [-> | Hin]; [now rewrite Hc |].
  destruct (hex_val x); [| reflexivity]. destruct (_ <? b)%Z; [now apply IH | reflexivity].
Qed.

Lemma radix_literal_letter (b : Z) (l : list ascii) (c : ascii) :
  In c l -> hex_val c = None -> radix_literal b l = nan.
Proof.
  intros Hin Hc. unfold radix_literal. rewrite (radix_val_letter b 0 l c Hin Hc).
  now destruct l.
Qed.

Section UnitChar.

Variable c : ascii.
Hypothesis Hc : is_unit_char c = true.

Lemma unit_char_ne (x : ascii) :
  In x (list_ascii_of_string "eE+-.0xXoObB") -> x <> c.
Proof.
  intros Hx E. rewrite E in Hx.
  exact (proj1 (proj2 (proj2 (proj2 (unit_char_facts c Hc)))) Hx).
Qed.

(** The letter is in the tail when the head is a character of a numeral. *)
Lemma unit_char_tail (x : ascii) (r : list ascii) :
  In x (list_ascii_of_string "eE+-.0xXoObB") -> In c (x :: r) -> In c r.
Proof. intros Hx [E | H]; [now apply unit_char_ne in E | exact H]. Qed.

Lemma exponent_part_letter (l : list ascii) : In c l -> exponent_part l = None.
Proof.
  destruct (unit_char_facts c Hc) as (Hd & _).
  intros Hin. destruct l as [| x r]; [destruct Hin |].
  cbn [exponent_part].
  destruct (Ascii.eqb_spec x "e") as [Ex |]; cbn [orb];
    [| destruct (Ascii.eqb_spec x "E") as [Ex |]; [| reflexivity]];
    (assert (Hr : In c r)
       by (apply (unit_char_tail x); [rewrite Ex; simpl; tauto | exact Hin]));
    (assert (T : forall (neg : bool) r',
               In c r' ->
               match span_digits r' with
               | ((_ :: _) as ds, []) =>
                   Some (if neg then - digits_val ds else digits_val ds)
               | _ => None
               end = None)
       by (intros neg r' Hr'; pose proof (span_digits_keeps r' c Hr' Hd) as K;
           destruct (span_digits r') as [ds rest]; cbn [snd] in K;
           destruct rest; [destruct K |]; now destruct ds));
    (destruct r as [| s r']; [destruct Hr |]);
    (destruct (Ascii.eqb_spec s "-") as [Es |];
     [apply (T true), (unit_char_tail s); [rewrite Es; simpl; tauto | exact Hr] |]);
    (destruct (Ascii.eqb_spec s "+") as [Es' |];
     [apply (T false), (unit_char_tail s); [rewrite Es'; simpl; tauto | exact Hr] |]);
    apply (T false); exact Hr.
Qed.

Lemma unsigned_decimal_letter (neg : bool) (l : list ascii) :
  In c l -> unsigned_decimal neg l = nan.
Proof.
  destruct (unit_char_facts c Hc) as (Hd & _ & _ & _ & Hinf).
  intros Hin. unfold unsigned_decimal.
  destruct (String.eqb_spec (string_of_list_ascii l) "Infinity") as [E |].
  { exfalso. apply Hinf. rewrite <- E, list_ascii_of_string_of_list_ascii. exact Hin. }
  pose proof (span_digits_keeps l c Hin Hd) as K1.
  destruct (span_digits l) as [ip r1]. cbn [snd] in K1.
  assert (T : forall fp r2, In c r2 ->
             match ip, fp with
             | [], [] => nan
             | _, _ =>
                 match exponent_part r2 with
                 | Some ex => of_decimal neg (digits_val (ip ++ fp)) (ex - Z.of_nat (length fp))
                 | None => nan
                 end
             end = nan).
  { intros fp r2 H2. rewrite (exponent_part_letter r2 H2). now destruct ip, fp. }
  destruct r1 as [| x r]; [destruct K1 |].
  destruct (Ascii.eqb_spec x ".") as [Ex |].
  - assert (Hr : In c r)
      by (apply (unit_char_tail x); [rewrite Ex; simpl; tauto | exact K1]).
    pose proof (span_digits_keeps r c Hr Hd) as K2.
    destruct (span_digits r) as [fp r2]. cbn [snd] in K2. now apply T.
  - exact (T [] (x :: r) K1).
Qed.

Lemma string_to_number_letter (l : list ascii) : In c l -> string_to_number l = nan.
Proof.
  destruct (unit_char_facts c Hc) as (_ & _ & Hh & _).
  intros Hin. unfold string_to_number.
  destruct l as [| c0 [| c1 r]]; [destruct Hin | now apply unsigned_decimal_letter |].
  assert (R : forall b, Ascii.eqb c0 "0" = true ->
                        In c1 (list_ascii_of_string "xXoObB") -> radix_literal b r = nan).
  { intros b E0 H1. apply Ascii.eqb_eq in E0.
    apply (radix_literal_letter b r c); [| exact Hh].
    apply (unit_char_tail c1); [simpl in H1 |- *; tauto |].
    apply (unit_char_tail c0); [rewrite E0; simpl; tauto | exact Hin]. }
  assert (S : forall neg, In c0 (list_ascii_of_string "+-") ->
                          unsigned_decimal neg (c1 :: r) = nan).
  { intros neg H0. apply unsigned_decimal_letter.
    apply (unit_char_tail c0); [simpl in H0 |- *; tauto | exact Hin]. }
  assert (Tail : (if Ascii.eqb c0 "-" then unsigned_decimal true (c1 :: r)
                  else if Ascii.eqb c0 "+" then unsigned_decimal false (c1 :: r)
                       else unsigned_decimal false (c0 :: c1 :: r)) = nan).
  { destruct (Ascii.eqb_spec c0 "-") as [E |]; [apply S; rewrite E; simpl; tauto |].
    destruct (Ascii.eqb_spec c0 "+") as [E |]; [apply S; rewrite E; simpl; tauto |].
    now apply unsigned_decimal_letter. }
  destruct (Ascii.eqb c0 "0") eqn:E0; cbn [andb]; [| exact Tail].
  destruct (Ascii.eqb_spec c1 "x") as [E1 |];
    [apply R; [reflexivity | rewrite E1; simpl; tauto] |].
  destruct (Ascii.eqb_spec c1 "X") as [E1 |];
    [apply R; [reflexivity | rewrite E1; simpl; tauto] |].
  destruct (Ascii.eqb_spec c1 "o") as [E1 |];
    [apply R; [reflexivity | rewrite E1; simpl; tauto] |].
  destruct (Ascii.eqb_spec c1 "O") as [E1 |];
    [apply R; [reflexivity | rewrite E1; simpl; tauto] |].
  destruct (Ascii.eqb_spec c1 "b") as [E1 |];
    [apply R; [reflexivity | rewrite E1; simpl; tauto] |].
  destruct (Ascii.eqb_spec c1 "B") as [E1 |];
    [apply R; [reflexivity | rewrite E1; simpl; tauto] |].
  exact Tail.
Qed.

End UnitChar.

(** [Number] of a string that holds a unit letter is [NaN]. *)
Lemma Number_letter (v : string) (c : ascii) :
  is_unit_char c = true -> In c (list_ascii_of_string (trim v)) -> Number v = nan.
Proof. intros Hc Hin. unfold Number. now apply (string_to_number_letter c). Qed.

(** X22. When an integer is followed by a unit letter but the hours,
    minutes and seconds add up to nothing greater than zero, [parseMinutes]
    returns null: the string goes to the bare-number fallback, and a string
    with a unit letter is not a number.  So "0m" and "0h 0m 0s" are null,
    not 0. *)
Theorem parseMinutes_units_null (value : string) (u : ascii) :
  u = "h"%char \/ u = "m"%char \/ u = "s"%char ->
  unit_digits u (trim value) <> None ->
  (0 <? unit_sum (trim value))%float = false ->
  parseMinutes value = None.
Proof.
  intros Hu Hd Hz.
  assert (Hne : trim value <> EmptyString).
  { intros E. rewrite E in Hd. now apply Hd. }
  assert (Hc : ~ clock_shape (trim value)).
  { intros C. apply Hd. apply clock_shape_no_unit; [now apply unit_letter_hms | exact C]. }
  rewrite (parseMinutes_not_clock value Hne (hms_exec_none _ Hc)), Hz.
  unfold unit_digits in Hd.
  destruct (scan_unit u (list_ascii_of_string (trim value))) as [ds |] eqn:E;
    [| now destruct Hd].
  destruct (scan_unit_letter u _ ds E) as (c & Hin & Hcu).
  rewrite (Number_letter (trim value) c (unit_char_canon u c Hu Hcu)).
  - reflexivity.
  - now rewrite trim_twice.
Qed.

Lemma parseMinutes_units_null_witness :
  parseMinutes "0h 0m 0s" = None /\ parseMinutes " 0 M" = None.
Proof.
  split.
  - apply (parseMinutes_units_null "0h 0m 0s" "h"); [tauto | discriminate | reflexivity].
  - apply (parseMinutes_units_null " 0 M" "m"); [tauto | discriminate | reflexivity].
Defined.

(** ** The Section 3 marker *)

(** The text after a case-insensitive prefix. *)
Fixpoint ci_strip (p : string) (l : list ascii) : option (list ascii) :=
  match p with
  | EmptyString => Some l
  | String a p' =>
      match l with
      | c :: r => if Ascii.eqb (Regex.canon c) (Regex.canon a) then ci_strip p' r else None
      | [] => None
      end
  end.

Fixpoint skip_spaces (l : list ascii) : list ascii :=
  match l with
  | c :: r => if is_space c then skip_spaces r else l
  | [] => []
  end.

Definition succeeds {A : Type} (o : option A) : bool :=
  match o with Some _ => true | None => false end.

Lemma litsi_match (p : string) (bef aft : list ascii) (cs : list string) :
  succeeds (Regex.rmatch (Regex.litsi p) (Regex.RState bef aft cs) Some)
  = succeeds (ci_strip p aft).
Proof.
  revert bef aft. induction p as [| a p IH]; intros bef aft; [reflexivity |].
  cbn [Regex.litsi Regex.rmatch Regex.liti Regex.after Regex.before Regex.caps ci_strip].
  destruct aft as [| c r]; [reflexivity |].
  destruct (Ascii.eqb (Regex.canon c) (Regex.canon a)); [apply IH | reflexivity].
Qed.

(** [\s*] before a word that does not start with white space: the greedy
    repetition takes all the white space there is. *)
Lemma spaces_then_word (a : ascii) (p : string) (aft bef : list ascii) (cs : list string) :
  (forall c, is_space c = true -> Ascii.eqb (Regex.canon c) (Regex.canon a) = false) ->
  succeeds (Regex.rep Regex.space 0 None bef aft cs
              (fun st => Regex.rmatch (Regex.litsi (String a p)) st Some))
  = succeeds (ci_strip (String a p) (skip_spaces aft)).
Proof.
  intros Ha. revert bef. induction aft as [| c aft IH]; intros bef.
  - reflexivity.
  - cbn [Regex.rep Regex.hi_zero Nat.eqb Nat.pred Regex.hi_pred skip_spaces].
    unfold Regex.space at 1. destruct (is_space c) eqn:Hc.
    + rewrite <- IH with (bef := c :: bef).
      destruct (Regex.rep Regex.space 0 None (c :: bef) aft cs _) as [st |]; [reflexivity |].
      cbn [Regex.litsi Regex.rmatch Regex.liti Regex.after]. now rewrite (Ha c Hc).
    + apply litsi_match.
Qed.

Lemma section3_not_later (aft bef : list ascii) :
  bef <> [] -> Regex.exec_from re_section3 bef aft = None.
Proof.
  revert bef. induction aft as [| c aft IH]; intros bef Hb;
    destruct bef as [| b bef]; try congruence.
  - reflexivity.
  - cbn [Regex.exec_from]. simpl Regex.rmatch. apply IH. discriminate.
Qed.

Lemma space_not_I (c : ascii) :
  is_space c = true -> Ascii.eqb (Regex.canon c) (Regex.canon "I") = false.
Proof. destruct c as [[] [] [] [] [] [] [] []]; vm_compute; congruence. Qed.

(** The test as a scan of the trimmed line. *)
Lemma is_section3_scan (l : string) :
  is_section3 l
  = match list_ascii_of_string (trim l) with
    | c0 :: c1 :: r =>
        Ascii.eqb "3" c0 && Ascii.eqb "." c1
        && succeeds (ci_strip "In-Meeting Activities" (skip_spaces r))
    | _ => false
    end.
Proof.
  unfold is_section3, Regex.test, Regex.exec.
  destruct (list_ascii_of_string (trim l)) as [| c0 aft]; [reflexivity |].
  cbn [Regex.exec_from]. rewrite section3_not_later by discriminate.
  unfold re_section3.
  cbn [Regex.rmatch Regex.before Regex.after Regex.caps Regex.lit Regex.star].
  destruct (Ascii.eqb "3" c0); [| now destruct aft].
  destruct aft as [| c1 r]; [reflexivity |].
  destruct (Ascii.eqb "." c1); [| reflexivity]. cbn [andb].
  pose proof (spaces_then_word "I" "n-Meeting Activities" r [c1; c0] [] space_not_I) as S.
  change (String "I" "n-Meeting Activities") with "In-Meeting Activities" in S.
  rewrite <- S.
  destruct (Regex.rep Regex.space 0 None [c1; c0] r [] _); reflexivity.
Qed.

Lemma ci_strip_spec (p : string) (l rest : list ascii) :
  ci_strip p l = Some rest
  <-> exists name, l = (name ++ rest)%list
                   /\ map Regex.canon name = map Regex.canon (list_ascii_of_string p).
Proof.
  revert l. induction p as [| a p IH]; intros l; cbn [ci_strip list_ascii_of_string map].
  - split.
    + intros [= ->]. exists []. auto.
    + intros (name & -> & E). destruct name; [reflexivity | discriminate E].
  - destruct l as [| c r].
    + split; [discriminate |]. intros ([| x name] & E & M); discriminate.
    + destruct (Ascii.eqb_spec (Regex.canon c) (Regex.canon a)) as [Ec | Nc].
      * rewrite IH. split.
        -- intros (name & -> & M). exists (c :: name). cbn. split; [reflexivity | congruence].
        -- intros ([| x name] & E & M); [discriminate M |].
           cbn in E, M. injection E as <- ->. injection M as _ M. eauto.
      * split; [discriminate |].
        intros ([| x name] & E & M); [discriminate M |].
        cbn in E, M. injection E as <- ->. injection M as M _. contradiction.
Qed.

Lemma skip_spaces_spec (l : list ascii) :
  exists ws, l = (ws ++ skip_spaces l)%list /\ forallb is_space ws = true.
Proof.
  induction l as [| c r (ws & E & H)]; [exists []; auto |].
  cbn [skip_spaces]. destruct (is_space c) eqn:Hc.
  - exists (c :: ws). cbn. rewrite Hc, H. split; [congruence | reflexivity].
  - exists []. auto.
Qed.

Lemma skip_spaces_app (ws r : list ascii) :
  forallb is_space ws = true ->
  match r with c :: _ => is_space c = false | [] => True end ->
  skip_spaces (ws ++ r) = r.
Proof.
  intros H Hr. induction ws as [| c ws IH]; cbn [app skip_spaces].
  - destruct r as [| c r]; [reflexivity |]. cbn [skip_spaces]. now rewrite Hr.
  - cbn [forallb] in H. apply andb_prop in H as [-> H]. now apply IH.
Qed.

Lemma string_of_list_app (a b : list ascii) :
  string_of_list_ascii (a ++ b) = string_of_list_ascii a +:+ string_of_list_ascii b.
Proof. induction a as [| c a IH]; cbn; [reflexivity | now rewrite IH]. Qed.

(** X23. A line is a Section 3 marker exactly when, trimmed, it starts
    with "3.", any amount of white space, and the words "In-Meeting
    Activities" in any letter case; what follows the words does not
    matter. *)
Theorem is_section3_spec (l : string) :
  is_section3 l = true
  <-> exists ws name rest,
        trim l = "3." +:+ ws +:+ name +:+ rest
        /\ forallb is_space (list_ascii_of_string ws) = true
        /\ map Regex.canon (list_ascii_of_string name)
           = map Regex.canon (list_ascii_of_string "In-Meeting Activities").
Proof.
  rewrite is_section3_scan. split.
  - destruct (list_ascii_of_string (trim l)) as [| c0 [| c1 r]] eqn:E; try discriminate.
    destruct (Ascii.eqb_spec "3" c0) as [<- |]; [| discriminate].
    destruct (Ascii.eqb_spec "." c1) as [<- |]; [| discriminate]. cbn [andb].
    destruct (ci_strip "In-Meeting Activities" (skip_spaces r)) as [rest |] eqn:S;
      [| discriminate].
    intros _. apply ci_strip_spec in S as (name & En & M).
    destruct (skip_spaces_spec r) as (ws & Er & Hws).
    exists (string_of_list_ascii ws), (string_of_list_ascii name),
      (string_of_list_ascii rest).
    rewrite !list_ascii_of_string_of_list_ascii. split; [| auto].
    rewrite <- (string_of_list_ascii_of_string (trim l)), E, Er, En.
    cbn [string_of_list_ascii String.append]. now rewrite !string_of_list_app.
  - intros (ws & name & rest & -> & Hws & M).
    cbn [String.append list_ascii_of_string]. rewrite Ascii.eqb_refl. cbn [andb].
    rewrite !list_ascii_app.
    destruct (list_ascii_of_string name) as [| x name'] eqn:En; [discriminate M |].
    rewrite skip_spaces_app.
    + assert (S : ci_strip "In-Meeting Activities"
                    ((x :: name') ++ list_ascii_of_string rest)%list
                  = Some (list_ascii_of_string rest)).
      { apply ci_strip_spec. exists (x :: name'). auto. }
      now rewrite S.
    + exact Hws.
    + cbn [app]. cbn in M. injection M as Mx _.
      destruct (is_space x) eqn:Hx; [| reflexivity].
      apply space_not_I in Hx. rewrite Mx in Hx. now rewrite Ascii.eqb_refl in Hx.
Qed.

(** ** Where the module code is found in a file name *)

Definition ends_word (s : string) : bool :=
  match last_char s with Some c => Regex.is_word c | None => false end.

Definition starts_word (s : string) : bool :=
  match s with String c _ => Regex.is_word c | EmptyString => false end.

(** Eight characters that read as a module code, in either case. *)
Definition module_code_like (m : string) : Prop :=
  exists l1 l2 d1 d2 d3 d4 n u,
    m = string_of_list_ascii [l1; l2; d1; d2; d3; d4; n; u]
    /\ Regex.upper_i l1 = true /\ Regex.upper_i l2 = true
    /\ is_digit d1 = true /\ is_digit d2 = true
    /\ is_digit d3 = true /\ is_digit d4 = true
    /\ Ascii.eqb (Regex.canon n) (Regex.canon "N") = true
    /\ Ascii.eqb (Regex.canon u) (Regex.canon "U") = true.

Lemma exec_from_position (r : Regex.regex) (aft bef : list ascii) (m : Regex.rmatch_result) :
  Regex.exec_from r bef aft = Some m ->
  exists pre aft' st,
    aft = (pre ++ aft')%list
    /\ Regex.rmatch r (Regex.RState (rev pre ++ bef) aft' []) Some = Some st.
Proof.
  revert bef. induction aft as [| c aft IH]; intros bef; cbn [Regex.exec_from].
  - destruct (Regex.rmatch r (Regex.RState bef [] []) Some) as [st |] eqn:E; [| discriminate].
    intros _. exists [], [], st. auto.
  - destruct (Regex.rmatch r (Regex.RState bef (c :: aft) []) Some) as [st |] eqn:E.
    + intros _. exists [], (c :: aft), st. auto.
    + intros H. destruct (IH _ H) as (pre & aft' & st & -> & R).
      exists (c :: pre), aft', st. split; [reflexivity |].
      cbn [rev]. now rewrite <- app_assoc.
Qed.

Lemma exec_from_complete (r : Regex.regex) (pre aft bef : list ascii) :
  Regex.rmatch r (Regex.RState (rev pre ++ bef) aft []) Some <> None ->
  Regex.exec_from r bef (pre ++ aft) <> None.
Proof.
  revert bef. induction pre as [| c pre IH]; intros bef H.
  - cbn [app rev] in *. destruct aft; cbn [Regex.exec_from];
      destruct (Regex.rmatch r _ Some); congruence.
  - cbn [app Regex.exec_from].
    destruct (Regex.rmatch r (Regex.RState bef (c :: pre ++ aft) []) Some); [discriminate |].
    apply IH. cbn [rev] in H. now rewrite <- app_assoc in H.
Qed.

Ltac split_module_eq H :=
  repeat first
    [ discriminate H
    | match type of H with
      | context [Regex.at_word_boundary ?s] =>
          destruct (Regex.at_word_boundary s) eqn:?;
          cbn -[Ascii.eqb is_digit Regex.upper_i Regex.canon Regex.at_word_boundary] in H
      | context [Regex.digit ?c] => change (Regex.digit c) with (is_digit c) in H
      | context [is_digit ?c] =>
          destruct (is_digit c) eqn:?;
          cbn -[Ascii.eqb is_digit Regex.upper_i Regex.canon Regex.at_word_boundary] in H
      | context [Regex.upper_i ?c] =>
          destruct (Regex.upper_i c) eqn:?;
          cbn -[Ascii.eqb is_digit Regex.upper_i Regex.canon Regex.at_word_boundary] in H
      | context [Ascii.eqb ?a ?c] =>
          destruct (Ascii.eqb a c) eqn:?;
          cbn -[Ascii.eqb is_digit Regex.upper_i Regex.canon Regex.at_word_boundary] in H
      end ].

(** The pattern at one position. *)
Lemma module_match_at (bef aft : list ascii) :
  Regex.rmatch re_module (Regex.RState bef aft []) Some <> None
  <-> exists l1 l2 d1 d2 d3 d4 n u post,
        aft = ([l1; l2; d1; d2; d3; d4; n; u] ++ post)%list
        /\ Regex.upper_i l1 = true /\ Regex.upper_i l2 = true
        /\ is_digit d1 = true /\ is_digit d2 = true
        /\ is_digit d3 = true /\ is_digit d4 = true
        /\ Ascii.eqb (Regex.canon n) (Regex.canon "N") = true
        /\ Ascii.eqb (Regex.canon u) (Regex.canon "U") = true
        /\ Regex.at_word_boundary (Regex.RState bef aft []) = true
        /\ Regex.at_word_boundary
             (Regex.RState ([u; n; d4; d3; d2; d1; l2; l1] ++ bef) post []) = true.
Proof.
  split.
  - destruct (Regex.rmatch re_module (Regex.RState bef aft []) Some) as [st |] eqn:H;
      [intros _ | congruence].
    unfold re_module in H.
    destruct aft as [| c1 [| c2 [| c3 [| c4 [| c5 [| c6 [| c7 [| c8 aft]]]]]]]];
      cbn -[Ascii.eqb is_digit Regex.upper_i Regex.canon Regex.at_word_boundary] in H;
      split_module_eq H.
    exists c1, c2, c3, c4, c5, c6, c7, c8, aft. repeat split; assumption.
  - intros (l1 & l2 & d1 & d2 & d3 & d4 & n & u & post & -> & H1 & H2 & H3 & H4 & H5 & H6
            & Hn & Hu & B1 & B2).
    unfold re_module.
    cbn -[Ascii.eqb is_digit Regex.upper_i Regex.canon Regex.at_word_boundary] in B1 |- *.
    rewrite B1.
    cbn -[Ascii.eqb is_digit Regex.upper_i Regex.canon Regex.at_word_boundary].
    rewrite H1.
    cbn -[Ascii.eqb is_digit Regex.upper_i Regex.canon Regex.at_word_boundary].
    rewrite H2.
    cbn -[Ascii.eqb is_digit Regex.upper_i Regex.canon Regex.at_word_boundary].
    change (Regex.digit d1) with (is_digit d1). rewrite H3.
    cbn -[Ascii.eqb is_digit Regex.upper_i Regex.canon Regex.at_word_boundary].
    change (Regex.digit d2) with (is_digit d2). rewrite H4.
    cbn -[Ascii.eqb is_digit Regex.upper_i Regex.canon Regex.at_word_boundary].
    change (Regex.digit d3) with (is_digit d3). rewrite H5.
    cbn -[Ascii.eqb is_digit Regex.upper_i Regex.canon Regex.at_word_boundary].
    change (Regex.digit d4) with (is_digit d4). rewrite H6.
    cbn -[Ascii.eqb is_digit Regex.upper_i Regex.canon Regex.at_word_boundary].
    rewrite Hn, Hu.
    cbn -[Ascii.eqb is_digit Regex.upper_i Regex.canon Regex.at_word_boundary] in B2 |- *.
    rewrite B2. discriminate.
Qed.

Lemma word_letters (c : ascii) :
  (Regex.upper_i c = true -> Regex.is_word c = true)
  /\ (Ascii.eqb (Regex.canon c) (Regex.canon "U") = true -> Regex.is_word c = true).
Proof. destruct c as [[] [] [] [] [] [] [] []]; vm_compute; auto. Qed.

Lemma last_char_rev (l : list ascii) :
  last_char (string_of_list_ascii l) = head (rev l).
Proof.
  induction l as [| c l IH]; [reflexivity |].
  cbn [string_of_list_ascii rev]. destruct l as [| d l].
  - reflexivity.
  - change (last_char (String c (string_of_list_ascii (d :: l))))
      with (last_char (string_of_list_ascii (d :: l))).
    rewrite IH. cbn [rev]. destruct (rev l ++ [d])%list eqn:E; [| reflexivity].
    now destruct (rev l).
Qed.

Lemma boundary_before (bef aft : list ascii) (c : ascii) :
  Regex.is_word c = true ->
  Regex.at_word_boundary (Regex.RState bef (c :: aft) [])
  = negb (match head bef with Some b => Regex.is_word b | None => false end).
Proof.
  intros Hc. unfold Regex.at_word_boundary. cbn [Regex.before Regex.after]. rewrite Hc.
  destruct bef as [| b bef]; cbn [head]; [reflexivity |]. now destruct (Regex.is_word b).
Qed.

Lemma boundary_after (bef aft : list ascii) (c : ascii) :
  Regex.is_word c = true ->
  Regex.at_word_boundary (Regex.RState (c :: bef) aft [])
  = negb (starts_word (string_of_list_ascii aft)).
Proof.
  intros Hc. unfold Regex.at_word_boundary. cbn [Regex.before Regex.after]. rewrite Hc.
  destruct aft as [| a aft]; [reflexivity |]. cbn. now destruct (Regex.is_word a).
Qed.

(** X24. A module code is found in a file name exactly when the name holds
    eight characters that read as a module code in either letter case,
    two letters, four digits and "NU", with no letter, digit or underscore
    directly before or after them: "MN5070NU_week1.csv" has none. *)
Theorem parseModuleCodeFromFilename_found (name : string) :
  parseModuleCodeFromFilename name <> None
  <-> exists pre m post,
        name = pre +:+ m +:+ post /\ module_code_like m
        /\ ends_word pre = false /\ starts_word post = false.
Proof.
  assert (P : parseModuleCodeFromFilename name <> None
              <-> Regex.exec_from re_module [] (list_ascii_of_string name) <> None).
  { unfold parseModuleCodeFromFilename, Regex.exec.
    destruct (Regex.exec_from re_module [] (list_ascii_of_string name)); split; congruence. }
  rewrite P. clear P. split.
  - destruct (Regex.exec_from re_module [] (list_ascii_of_string name)) as [m |] eqn:E;
      [intros _ | congruence].
    destruct (exec_from_position _ _ _ _ E) as (pre & aft & st & En & R).
    assert (R' : Regex.rmatch re_module (Regex.RState (rev pre ++ []) aft []) Some <> None)
      by congruence.
    apply module_match_at in R'
      as (l1 & l2 & d1 & d2 & d3 & d4 & n & u & post & -> & H1 & H2 & H3 & H4 & H5 & H6
          & Hn & Hu & B1 & B2).
    exists (string_of_list_ascii pre),
      (string_of_list_ascii [l1; l2; d1; d2; d3; d4; n; u]), (string_of_list_ascii post).
    split; [| split; [| split]].
    + rewrite <- !string_of_list_app, <- En. symmetry. apply string_of_list_ascii_of_string.
    + exists l1, l2, d1, d2, d3, d4, n, u. repeat split; assumption.
    + cbn [app] in B1. rewrite boundary_before in B1 by exact (proj1 (word_letters l1) H1).
      rewrite app_nil_r in B1. unfold ends_word. rewrite last_char_rev.
      now apply negb_true_iff in B1.
    + cbn [app] in B2. rewrite boundary_after in B2 by exact (proj2 (word_letters u) Hu).
      now apply negb_true_iff in B2.
  - intros (pre & m & post & -> & (l1 & l2 & d1 & d2 & d3 & d4 & n & u & -> & H1 & H2 & H3
            & H4 & H5 & H6 & Hn & Hu) & Bp & Bq).
    rewrite !list_ascii_app, list_ascii_of_string_of_list_ascii.
    apply exec_from_complete. apply module_match_at.
    exists l1, l2, d1, d2, d3, d4, n, u, (list_ascii_of_string post).
    split; [reflexivity |]. repeat (split; [assumption |]). split.
    + cbn [app]. rewrite boundary_before by exact (proj1 (word_letters l1) H1).
      rewrite app_nil_r. unfold ends_word in Bp.
      rewrite <- (string_of_list_ascii_of_string pre), last_char_rev in Bp.
      now rewrite Bp.
    + cbn [app]. rewrite boundary_after by exact (proj2 (word_letters u) Hu).
      now rewrite string_of_list_ascii_of_string, Bq.
Qed.

Lemma parseModuleCodeFromFilename_underscore :
  parseModuleCodeFromFilename "MN5070NU_week1.csv" = None
  /\ parseModuleCodeFromFilename "week1-mn5070nu.csv" = Some "MN5070NU".
Proof. split; vm_compute; reflexivity. Qed.

(** ** Sessions of one cohort and module *)

Lemma iso_part_inj (a b : option Z) (r1 r2 : string) :
  match a with Some t => Z.abs t <= JsDate.maxTime | None => True end ->
  match b with Some t => Z.abs t <= JsDate.maxTime | None => True end ->
  toLowerCase (iso_or_empty a) +:+ "|" +:+ r1 = toLowerCase (iso_or_empty b) +:+ "|" +:+ r2 ->
  a = b.
Proof.
  destruct a as [t1 |], b as [t2 |]; cbn [iso_or_empty]; intros V1 V2 E.
  - f_equal. exact (IsoInj.toISOString_inj t1 t2 _ _ V1 V2 E).
  - destruct (IsoInj.toISOString_head t1) as (c & r & Eh & Hc).
    rewrite Eh in E. simpl in E. injection E as -> _. congruence.
  - destruct (IsoInj.toISOString_head t2) as (c & r & Eh & Hc).
    rewrite Eh in E. simpl in E. injection E as <- _. congruence.
  - reflexivity.
Qed.

(** X25. Within one intake, year and module, two imports share a Session
    exactly when their summaries give the same start time, the same end
    time and the same meeting title up to letter case. *)
Theorem sessionKey_same (Date_parse : string -> option Z) (intake : string) (year : float)
    (moduleCode : string) (start1 start2 end1 end2 : string) (name1 name2 : option string) :
  sessionKey intake year moduleCode (parseDate Date_parse start1)
    (parseDate Date_parse end1) name1
  = sessionKey intake year moduleCode (parseDate Date_parse start2)
      (parseDate Date_parse end2) name2
  <-> parseDate Date_parse start1 = parseDate Date_parse start2
      /\ parseDate Date_parse end1 = parseDate Date_parse end2
      /\ toLowerCase (default EmptyString name1) = toLowerCase (default EmptyString name2).
Proof.
  assert (V : forall v, match parseDate Date_parse v with
                        | Some t => Z.abs t <= JsDate.maxTime
                        | None => True
                        end).
  { intros v. destruct (parseDate Date_parse v) eqn:P; [exact (parseDate_valid _ _ _ P) | exact I]. }
  rewrite !sessionKey_parts. unfold key_tail. split.
  - intros E. repeat (apply String.app_inj in E).
    pose proof (iso_part_inj _ _ _ _ (V start1) (V start2) E) as Es.
    rewrite Es in E. apply String.app_inj in E. apply (String.app_inj "|") in E.
    pose proof (iso_part_inj _ _ _ _ (V end1) (V end2) E) as Ee.
    rewrite Ee in E. apply String.app_inj in E. apply (String.app_inj "|") in E.
    auto.
  - intros (-> & -> & ->). reflexivity.
Qed.

(** ** The import page, caller of the handler

    [uploadAttendance] of the import page reads the form, checks it and
    posts the request; a message is shown instead when a check fails. *)

(** The values of the form's elements ([None] for an absent element) and
    the chosen file. *)
Record import_form : Type := mkForm {
  el_intake : option string;
  el_year : option string;
  el_moduleCode : option string;
  el_file : option upload
}.

(** The message shown, or the request posted to [/api/import/attendance]. *)
Definition uploadAttendance (f : import_form) : string + request :=
  let intake := trim (default EmptyString (el_intake f)) in
  let year := Number (trim (default EmptyString (el_year f))) in
  let moduleCode := toUpperCase (trim (default EmptyString (el_moduleCode f))) in
  if negb (JsString.truthy intake) || negb (JsNumber.truthy year) || is_nan year
  then inl "Please select Intake + Year."
  else if negb (JsString.truthy moduleCode)
  then inl "Please select the Module Code for this attendance report."
  else
    match el_file f with
    | None => inl "Please choose a Teams attendance CSV."
    | Some file =>
        inr (mkRequest (Some intake) (Some (NumberToString year)) (Some moduleCode)
               (Some file))
    end.

(** X26. For a request that the import page posts, the handler never
    answers that the file or the module code is missing, and never reads
    the module code from the file name: on success the module code of the
    response is the one chosen in the form, trimmed and in upper case. *)
Theorem uploadAttendance_module (Date_parse : string -> option Z) (f : import_form)
    (req : request) (st : store) :
  uploadAttendance f = inr req ->
  match fst (POST Date_parse req st) with
  | Failure _ msg => msg <> "No file uploaded" /\ msg <> MISSING_MODULE
  | Success body =>
      body_moduleCode body = toUpperCase (trim (default EmptyString (el_moduleCode f)))
  end.
Proof.
  unfold uploadAttendance.
  destruct (_ || _ || _); [discriminate |].
  destruct (toUpperCase (trim (default EmptyString (el_moduleCode f)))) as [| c code] eqn:Ec;
    [discriminate |].
  cbn [JsString.truthy negb]. destruct (el_file f) as [file |]; [| discriminate].
  intros [= <-].
  assert (Em : normModuleCode (String c code) = String c code).
  { rewrite <- Ec. unfold normModuleCode.
    now rewrite toUpperCase_trim, trim_twice, toUpperCase_twice. }
  rewrite POST_phases. unfold validate.
  cbn [form_intake form_year form_moduleCode form_file default].
  destruct (_ || _ || _); [cbn; split; discriminate |].
  unfold Datatypes.id. rewrite Em. cbn [JsString.truthy negb]. cbv zeta.
  destruct (open_session _ st) as [session st1].
  destruct (locate _) as [msg | [[cols start] window]] eqn:L.
  - cbn [fst]. apply locate_errors in L. cbn in L.
    destruct L as [<- | [<- | [<- | []]]]; split; discriminate.
  - destruct (import_rows _ _ _ _ _ _) as [cnt st2]. reflexivity.
Qed.

Lemma uploadAttendance_module_witness :
  match fst (POST Date_parse_iso
               (mkRequest (Some "Spring") (Some "2026") (Some "MN5070NU") (Some roll_call))
               Prisma.empty) with
  | Failure _ msg => msg <> "No file uploaded" /\ msg <> MISSING_MODULE
  | Success body => body_moduleCode body = toUpperCase (trim " mn5070nu ")
  end.
Proof.
  apply (uploadAttendance_module Date_parse_iso
           (mkForm (Some " Spring") (Some "2026 ") (Some " mn5070nu ") (Some roll_call))).
  vm_compute. reflexivity.
Defined.

(** * The handler from request to store *)

(** ** A file without its Section 2 marker *)




(** ** The cohort check *)

Lemma validate_cohort (req : request) :
  (trim (default EmptyString (form_intake req)) = EmptyString
   \/ JsNumber.truthy (Number (default EmptyString (form_year req))) = false)
  <-> validate req = inl INVALID_COHORT.
Proof.
  unfold validate.
  pose proof (normIntake_falsy (default EmptyString (form_intake req))) as Hi.
  destruct (JsString.truthy (normIntake (default EmptyString (form_intake req)))) eqn:Ti;
    cbn [negb orb].
  - destruct (JsNumber.truthy (Number (default EmptyString (form_year req)))) eqn:Ty;
      cbn [negb orb].
    + assert (Nn : is_nan (Number (default EmptyString (form_year req))) = false).
      { unfold JsNumber.truthy in Ty. apply negb_true_iff, orb_false_elim in Ty. tauto. }
      rewrite Nn. split.
      * intros [H | H]; [apply Hi in H; discriminate H | discriminate H].
      * destruct (form_file req) as [file |]; [| discriminate].
        destruct (if JsString.truthy _ then _ else _) as [code |]; [| discriminate].
        destruct (negb (JsString.truthy code)); discriminate.
    + split; auto.
  - split; [reflexivity |]. intros _. left. now apply Hi.
Qed.

(** C3, as the code has it.  A request is answered with the 400 error
    about the intake and the year exactly when its intake field trims to
    the empty string or its year field converts to zero or to NaN (an
    empty or non-numeric year among them): then the answer does not depend
    on the uploaded file and nothing is written.  Every other request
    passes this check, whatever its intake (Spring, Summer and Autumn in
    any letter case, "fall", or free text kept as typed) and whatever the
    number its year is (negative or fractional as well): it is never
    answered with this error. *)
Theorem POST_rejects_cohort (Date_parse : string -> option Z) (req : request) (st : store) :
  (trim (default EmptyString (form_intake req)) = EmptyString
   \/ JsNumber.truthy (Number (default EmptyString (form_year req))) = false ->
   POST Date_parse req st = (Failure 400 INVALID_COHORT, st))
  /\ (forall status,
         fst (POST Date_parse req st) = Failure status INVALID_COHORT ->
         trim (default EmptyString (form_intake req)) = EmptyString
         \/ JsNumber.truthy (Number (default EmptyString (form_year req))) = false).
Proof.
  rewrite POST_phases. split.
  - intros H. apply validate_cohort in H. now rewrite H.
  - intros status. destruct (validate req) as [msg | [[[intake year] moduleCode] file]] eqn:V.
    + cbn [fst]. intros [= _ ->]. now apply validate_cohort.
    + cbv zeta. destruct (open_session _ st) as [session st1].
      destruct (locate _) as [msg | [[cols start] window]] eqn:L.
      * cbn [fst]. intros [= _ ->]. apply locate_errors in L. cbn in L.
        destruct L as [L | [L | [L | []]]]; discriminate L.
      * destruct (import_rows _ _ _ _ _ _). discriminate.
Qed.

(** An empty intake, a year that is not a number and the year 0 are
    refused; the intake "Winter" with the year "-5" is not. *)
Lemma POST_rejects_cohort_witness :
  POST Date_parse_iso (Example.request_of "  " "2026" Example.export) Prisma.empty
  = (Failure 400 INVALID_COHORT, Prisma.empty)
  /\ POST Date_parse_iso (Example.request_of "Spring" "next year" Example.export) Prisma.empty
     = (Failure 400 INVALID_COHORT, Prisma.empty)
  /\ POST Date_parse_iso (Example.request_of "Spring" "0" Example.export) Prisma.empty
     = (Failure 400 INVALID_COHORT, Prisma.empty)
  /\ fst (POST Date_parse_iso (Example.request_of "Winter" "-5" Example.export) Prisma.empty)
     <> Failure 400 INVALID_COHORT.
Proof.
  split; [| split; [| split]].
  - apply (proj1 (POST_rejects_cohort Date_parse_iso _ Prisma.empty)). left. reflexivity.
  - apply (proj1 (POST_rejects_cohort Date_parse_iso _ Prisma.empty)). right. reflexivity.
  - apply (proj1 (POST_rejects_cohort Date_parse_iso _ Prisma.empty)). right. reflexivity.
  - intros E.
    destruct (proj2 (POST_rejects_cohort Date_parse_iso _ Prisma.empty) 400%nat E) as [H | H];
      vm_compute in H; discriminate H.
Defined.

(** ** Bare numbers, rounded *)














(** ** Eligibility, whatever the letter case *)

(** A character of an email against a character of the suffix: the same
    character, or its capital. *)
Definition same_letter (c s : ascii) : Prop :=
  c = s \/ (is_upper c = true /\ code s = (code c + 32)%N).

(** [v] ends with [suffix], letter case apart. *)
Definition ends_with_ci (v suffix : string) : Prop :=
  exists local tail,
    v = local +:+ tail
    /\ Forall2 same_letter (list_ascii_of_string tail) (list_ascii_of_string suffix).

Definition same_letterb (c s : ascii) : bool :=
  Ascii.eqb c s || (is_upper c && (code s =? code c + 32)%N).

Lemma same_letter_spec (c s : ascii) : same_letterb c s = true <-> same_letter c s.
Proof.
  unfold same_letterb, same_letter. rewrite orb_true_iff, andb_true_iff, Ascii.eqb_eq.
  rewrite N.eqb_eq. reflexivity.
Qed.

Definition all_ascii : list ascii := map ascii_of_nat (seq 0 256).

Lemma all_ascii_in (c : ascii) : In c all_ascii.
Proof.
  unfold all_ascii. apply in_map_iff. exists (nat_of_ascii c).
  split; [apply ascii_nat_embedding |]. apply in_seq. pose proof (nat_ascii_bounded c). lia.
Qed.

(** The characters that lower-case to a character of the suffix. *)
Lemma lower_char_suffix (c s : ascii) :
  In s (list_ascii_of_string STUDENT_SUFFIX) ->
  (lower_char c = s <-> same_letter c s).
Proof.
  intros Hs. rewrite <- same_letter_spec, <- Ascii.eqb_eq.
  assert (T : forallb (fun c => forallb (fun s =>
                 Bool.eqb (Ascii.eqb (lower_char c) s) (same_letterb c s))
                 (list_ascii_of_string STUDENT_SUFFIX)) all_ascii = true)
    by (vm_compute; reflexivity).
  pose proof (proj1 (forallb_forall _ _) T c (all_ascii_in c)) as T1. cbv beta in T1.
  pose proof (proj1 (forallb_forall _ _) T1 s Hs) as T2. cbv beta in T2.
  apply eqb_prop in T2. rewrite T2. reflexivity.
Qed.

Lemma toLowerCase_chars (v : string) :
  list_ascii_of_string (toLowerCase v) = map lower_char (list_ascii_of_string v).
Proof. induction v as [| c v IH]; cbn; [reflexivity | now rewrite IH]. Qed.

Lemma lower_suffix (tail : string) (suffix : list ascii) :
  (forall s, In s suffix -> In s (list_ascii_of_string STUDENT_SUFFIX)) ->
  map lower_char (list_ascii_of_string tail) = suffix
  <-> Forall2 same_letter (list_ascii_of_string tail) suffix.
Proof.
  revert suffix. induction tail as [| c tail IH]; intros suffix Hs; cbn [list_ascii_of_string map].
  - split.
    + intros <-. constructor.
    + intros H. inversion H. reflexivity.
  - split.
    + intros <-. constructor.
      * apply lower_char_suffix; [apply Hs; now left | reflexivity].
      * apply IH; [| reflexivity]. intros s H. apply Hs. now right.
    + intros H. inversion H as [| c' s' t' r' Hc Hr]; subst. f_equal.
      * apply lower_char_suffix; [apply Hs; now left | exact Hc].
      * apply IH; [| exact Hr]. intros s H'. apply Hs. now right.
Qed.

(** Ending with the suffix once in lower case is ending with it, letter
    case apart. *)
Lemma toLowerCase_ends (v : string) :
  (exists local, toLowerCase v = local +:+ STUDENT_SUFFIX) <-> ends_with_ci v STUDENT_SUFFIX.
Proof.
  unfold ends_with_ci. split.
  - intros [local E]. revert local E. induction v as [| c v IH]; intros local E.
    + destruct local; discriminate E.
    + destruct local as [| x local].
      * exists EmptyString, (String c v). split; [reflexivity |].
        apply lower_suffix; [auto |].
        rewrite <- toLowerCase_chars, E. reflexivity.
      * cbn in E. injection E as _ E. destruct (IH local E) as (l & t & -> & F).
        exists (String c l), t. auto.
  - intros (local & tail & -> & F). exists (toLowerCase local).
    rewrite toLowerCase_app. f_equal.
    apply lower_suffix in F; [| auto].
    rewrite <- toLowerCase_chars in F.
    rewrite <- (string_of_list_ascii_of_string (toLowerCase tail)), F.
    apply string_of_list_ascii_of_string.
Qed.

(** C8.  After a successful import on a store whose Student table is
    intact, every participant row of the Section 2 window has its
    Attendance record, for the session of the import and the student of the
    row, and the record's [isEligible] is true if and only if the row's
    Email field, trimmed, ends with "@stu.nexteducationgroup.com" in any
    letter case: any other ending gives false. *)
Theorem POST_eligibility (Date_parse : string -> option Z) (req : request)
    (st st' : store) (body : summary_body) :
  store_wf st ->
  POST Date_parse req st = (Success body, st') ->
  exists file cols start window,
    form_file req = Some file
    /\ locate (split_lines (upload_text file)) = inr (cols, start, window)
    /\ forall k line,
         window !! k = Some line -> row_counts line = true ->
         exists stu att,
           students st' !! student_key (row_email cols line) (start + k)%nat = Some stu
           /\ attendances st' !! (body_sessionId body, student_id stu) = Some att
           /\ (attendance_isEligible att = true
               <-> ends_with_ci (trim (part (JsString.split TAB line) (idxEmail cols)))
                     "@stu.nexteducationgroup.com").
Proof.
  intros W H.
  destruct (POST_eligibility_lower Date_parse req st st' body W H)
    as (file & cols & start & window & Hf & L & Hrows).
  exists file, cols, start, window. split; [exact Hf |]. split; [exact L |].
  intros k line Hk Hc. destruct (Hrows k line Hk Hc) as (stu & att & Hs & Ha & He).
  exists stu, att. split; [exact Hs |]. split; [exact Ha |].
  rewrite He. unfold row_email.
  exact (toLowerCase_ends (trim (part (JsString.split TAB line) (idxEmail cols)))).
Qed.

(** An export whose first participant has capitals in the student suffix,
    and whose second is of another domain. *)
Definition roll_call_capitals : upload :=
  mkUpload "roll call mn5070nu.csv"
    (Example.unlines
       [ "2. Participants";
         Example.tsv ["Name"; "Email"; "In-Meeting Duration"];
         Example.tsv ["Ann"; " Ann@STU.NextEducationGroup.COM "; "50m"];
         Example.tsv ["Bob"; "bob@nexteducationgroup.com"; "5m"] ]).

Lemma POST_eligibility_witness :
  exists body st' ann bob att_ann att_bob,
    POST Date_parse_iso (mkRequest (Some "Spring") (Some "2026") None (Some roll_call_capitals))
      Prisma.empty
    = (Success body, st')
    /\ students st' !! "ann@stu.nexteducationgroup.com" = Some ann
    /\ attendances st' !! (body_sessionId body, student_id ann) = Some att_ann
    /\ attendance_isEligible att_ann = true
    /\ students st' !! "bob@nexteducationgroup.com" = Some bob
    /\ attendances st' !! (body_sessionId body, student_id bob) = Some att_bob
    /\ attendance_isEligible att_bob = false.
Proof.
  destruct (POST Date_parse_iso
              (mkRequest (Some "Spring") (Some "2026") None (Some roll_call_capitals))
              Prisma.empty) as [resp st'] eqn:E.
  assert (F : fst (POST Date_parse_iso
                     (mkRequest (Some "Spring") (Some "2026") None (Some roll_call_capitals))
                     Prisma.empty) = resp) by now rewrite E.
  vm_compute in F. subst resp.
  destruct (POST_eligibility Date_parse_iso _ _ _ _ empty_wf E)
    as (file & cols & start & window & Hf & L & Hrows).
  injection Hf as <-. vm_compute in L. injection L as <- <- <-.
  destruct (Hrows 0%nat _ eq_refl eq_refl) as (ann & att_ann & Hs & Ha & He).
  destruct (Hrows 1%nat _ eq_refl eq_refl) as (bob & att_bob & Hs' & Ha' & He').
  eexists _, st', ann, bob, att_ann, att_bob. split; [reflexivity |].
  split; [exact Hs |]. split; [exact Ha |]. split; [| split; [exact Hs' |]; split; [exact Ha' |]].
  - apply He. exists "Ann", "@STU.NextEducationGroup.COM". split; [reflexivity |].
    repeat (constructor; [first [left; reflexivity | right; split; reflexivity] |]).
    constructor.
  - destruct (attendance_isEligible att_bob); [| reflexivity].
    apply proj1 in He'. specialize (He' eq_refl).
    apply toLowerCase_ends, endsWith_spec in He'. vm_compute in He'. discriminate He'.
Defined.

(** ** Rows without an email, and the Students they share *)

(** A successful import, with the store its rows were written to. *)
Lemma POST_success_store (Date_parse : string -> option Z) (req : request)
    (st st' : store) (body : summary_body) :
  POST Date_parse req st = (Success body, st') ->
  exists file cols start window intake year moduleCode,
    validate req = inr (intake, year, moduleCode, file)
    /\ form_file req = Some file
    /\ locate (split_lines (upload_text file)) = inr (cols, start, window)
    /\ let r := open_session (session_data Date_parse intake year moduleCode
                                (split_lines (upload_text file))) st in
       body_sessionId body = session_id (fst r)
       /\ body_intake body = intake /\ body_year body = year
       /\ body_moduleCode body = moduleCode
       /\ st' = write_rows (session_id (fst r)) (rows_of Date_parse cols start window) (snd r).
Proof.
  rewrite POST_phases.
  destruct (validate req) as [msg | [[[intake year] moduleCode] file]] eqn:V;
    [discriminate |].
  cbv zeta.
  destruct (open_session _ st) as [session st1] eqn:O.
  destruct (locate (split_lines (upload_text file))) as [msg | [[cols start] window]] eqn:L;
    [discriminate |].
  rewrite import_rows_fold. intros [= <- <-].
  exists file, cols, start, window, intake, year, moduleCode.
  split; [reflexivity |]. split; [exact (validate_file _ _ _ _ _ V) |].
  split; [exact L |]. rewrite O. cbn. auto.
Qed.

(** C9, as the code has it.  After a successful import on a store whose
    Student table is intact, a participant row whose Email field is empty
    is not dropped: it has its Attendance record, attributed to the
    Student stored under "unknown-<i>@invalid.local", with <i> the index of
    the row's line in the file.  That Student is not the row's alone: a
    Student the store already held under the placeholder (from line <i> of
    an earlier export) is reused, and a row of the same file has the same
    Student exactly when it is that row or its email is literally the
    placeholder.  Two rows without an email on different lines of one
    file have different Students. *)
Theorem POST_emailless (Date_parse : string -> option Z) (req : request)
    (st st' : store) (body : summary_body) :
  store_wf st ->
  POST Date_parse req st = (Success body, st') ->
  exists file cols start window,
    form_file req = Some file
    /\ locate (split_lines (upload_text file)) = inr (cols, start, window)
    /\ (forall k line,
         window !! k = Some line -> row_counts line = true ->
         row_email cols line = EmptyString ->
         exists stu att,
           students st' !! placeholder (start + k)%nat = Some stu
           /\ student_email stu = "unknown-" +:+ pretty (start + k)%nat +:+ "@invalid.local"
           /\ attendances st' !! (body_sessionId body, student_id stu) = Some att
           /\ attendance_studentId att = student_id stu
           /\ (forall old, students st !! placeholder (start + k)%nat = Some old ->
                           student_id stu = student_id old)
           /\ forall k' line' stu',
                window !! k' = Some line' -> row_counts line' = true ->
                students st' !! student_key (row_email cols line') (start + k')%nat
                = Some stu' ->
                (student_id stu' = student_id stu
                 <-> k' = k \/ row_email cols line' = placeholder (start + k)%nat))
    /\ (forall k1 k2 stu1 stu2,
           k1 <> k2 ->
           students st' !! placeholder (start + k1)%nat = Some stu1 ->
           students st' !! placeholder (start + k2)%nat = Some stu2 ->
           student_id stu1 <> student_id stu2).
Proof.
  intros W H.
  destruct (POST_success_store Date_parse req st st' body H)
    as (file & cols & start & window & intake & year & moduleCode & _ & Hf & L & R).
  cbv zeta in R. destruct R as (Hid & _ & _ & _ & ->). rewrite Hid.
  set (d := session_data Date_parse intake year moduleCode (split_lines (upload_text file))) in *.
  set (sid := session_id (fst (open_session d st))).
  assert (W1 : store_wf (snd (open_session d st))) by now apply open_session_wf.
  pose proof (write_rows_wf sid (rows_of Date_parse cols start window) _ W1) as W'.
  exists file, cols, start, window. split; [exact Hf |]. split; [exact L |].
  split.
  2: { intros k1 k2 stu1 stu2 Hne H1 H2 E.
       apply Hne. pose proof (wf_ids _ W' _ _ _ _ H1 H2 E) as P.
       apply placeholder_inj in P. lia. }
  intros k line Hk Hc He.
  destruct (write_rows_record sid (rows_of Date_parse cols start window)
              (row_of Date_parse cols (start + k)%nat line) _ W1
              (rows_of_consistent Date_parse cols start window)
              (rows_of_in Date_parse cols start k window line Hk Hc))
    as (stu & att & Hs & Ha & _ & Hu & _).
  rewrite row_of_key, He, student_key_empty in Hs.
  exists stu, att. split; [exact Hs |].
  split; [exact (wf_email _ W' _ _ Hs) |]. split; [exact Ha |]. split; [exact Hu |]. split.
  - intros old Ho.
    rewrite <- (proj1 (open_session_tables d st)) in Ho.
    destruct (write_rows_ids sid (rows_of Date_parse cols start window) _ _ _ Ho)
      as (s' & Hs' & E).
    rewrite Hs in Hs'. injection Hs' as <-. exact E.
  - intros k' line' stu' Hk' Hc' Hs'.
    assert (K : student_id stu' = student_id stu
                <-> student_key (row_email cols line') (start + k') = placeholder (start + k)).
    { split.
      - intros E. exact (wf_ids _ W' _ _ _ _ Hs' Hs E).
      - intros E. rewrite E, Hs in Hs'. now injection Hs' as <-. }
    rewrite K. unfold student_key.
    destruct (row_email cols line') as [| c r] eqn:E'; cbn [JsString.truthy].
    + fold (placeholder (start + k')). split.
      * intros P. apply placeholder_inj in P. left. lia.
      * intros [-> | P]; [reflexivity | discriminate P].
    + split; [auto |]. intros [-> | P]; [| exact P].
      rewrite Hk in Hk'. injection Hk' as <-. rewrite He in E'. discriminate E'.
Qed.

Lemma POST_wf (Date_parse : string -> option Z) (req : request) (st : store) :
  store_wf st -> store_wf (snd (POST Date_parse req st)).
Proof.
  intros W. rewrite POST_store.
  destruct (validate req) as [msg | [[[intake year] moduleCode] file]]; [exact W |].
  cbv zeta.
  pose proof (open_session_wf
                (session_data Date_parse intake year moduleCode
                   (split_lines (upload_text file))) st W) as W1.
  destruct (locate _) as [msg | [[cols start] window]]; [exact W1 |].
  now apply write_rows_wf.
Qed.

(** The example export of the meeting a week later: the same lines, but
    for the start time. *)
Definition export_next_week : upload :=
  mkUpload "attendance MN5070NU.csv"
    (Example.unlines
       (<[3%nat := Example.tsv ["Start time"; "2026-02-17T09:00:00Z"]]> Example.export_lines)).

(** The guest without an email is on line 11 of both exports: the second
    import attaches its row to the Student of the first. *)
Lemma POST_emailless_witness :
  let st := snd (POST Date_parse_iso (Example.request_of "Spring" "2026" Example.export)
                   Prisma.empty) in
  exists body st' old stu att,
    POST Date_parse_iso (Example.request_of "Spring" "2026" export_next_week) st
    = (Success body, st')
    /\ students st !! "unknown-11@invalid.local" = Some old
    /\ students st' !! "unknown-11@invalid.local" = Some stu
    /\ student_email stu = "unknown-11@invalid.local"
    /\ attendances st' !! (body_sessionId body, student_id stu) = Some att
    /\ attendance_studentId att = student_id stu
    /\ student_id stu = student_id old
    /\ size (sessions st') = 2%nat.
Proof.
  cbv zeta.
  set (st := snd (POST Date_parse_iso (Example.request_of "Spring" "2026" Example.export)
                    Prisma.empty)).
  assert (W : store_wf st) by (apply POST_wf, empty_wf).
  destruct (POST Date_parse_iso (Example.request_of "Spring" "2026" export_next_week) st)
    as [resp st'] eqn:E.
  assert (F : fst (POST Date_parse_iso
                     (Example.request_of "Spring" "2026" export_next_week) st) = resp)
    by now rewrite E.
  assert (G : size (sessions (snd (POST Date_parse_iso
                (Example.request_of "Spring" "2026" export_next_week) st))) = 2%nat)
    by (vm_compute; reflexivity).
  rewrite E in G. cbn [snd] in G.
  vm_compute in F. subst resp.
  destruct (POST_emailless Date_parse_iso _ _ _ _ W E)
    as (file & cols & start & window & Hf & L & Hrows & _).
  injection Hf as <-. vm_compute in L. injection L as <- <- <-.
  destruct (Hrows 2%nat _ eq_refl eq_refl eq_refl)
    as (stu & att & Hs & He & Ha & Hu & Hold & _).
  assert (O : exists old, students st !! "unknown-11@invalid.local" = Some old).
  { vm_compute. eauto. }
  destruct O as [old Ho].
  eexists _, st', old, stu, att. split; [reflexivity |].
  split; [exact Ho |]. split; [exact Hs |]. split; [exact He |].
  split; [exact Ha |]. split; [exact Hu |]. split; [exact (Hold old Ho) | exact G].
Defined.

(** C9, as the specification states it: every row without an email becomes
    its own distinct Student.  In the first file the guest on line 2 and
    the participant whose email is "unknown-2@invalid.local" are one
    Student with one Attendance record, the guest's overwritten.  The two
    exports after it are of two meetings, each with its guest on line 3:
    the two guests are one Student. *)
Definition guest_and_namesake : upload :=
  mkUpload "mn5070nu.csv"
    (Example.unlines
       [ "2. Participants";
         Example.tsv ["Name"; "Email"; "In-Meeting Duration"];
         Example.tsv ["Guest"; ""; "5m"];
         Example.tsv ["Eve"; "unknown-2@invalid.local"; "7m"] ]).

Definition guest_of (title name : string) : upload :=
  mkUpload "mn5070nu.csv"
    (Example.unlines
       [ Example.tsv ["Meeting title"; title];
         "2. Participants";
         Example.tsv ["Name"; "Email"; "In-Meeting Duration"];
         Example.tsv [name; ""; "5m"] ]).

Lemma POST_emailless_shared :
  (let r := POST Date_parse_iso (Example.request_of "Spring" "2026" guest_and_namesake)
              Prisma.empty in
   (exists body, fst r = Success body /\ body_rowsRead body = 2%nat)
   /\ size (students (snd r)) = 1%nat /\ size (attendances (snd r)) = 1%nat)
  /\ (let r1 := POST Date_parse_iso (Example.request_of "Spring" "2026"
                                      (guest_of "Lecture 1" "Guest A")) Prisma.empty in
      let r2 := POST Date_parse_iso (Example.request_of "Spring" "2026"
                                      (guest_of "Lecture 2" "Guest B")) (snd r1) in
      (exists b1 b2, fst r1 = Success b1 /\ fst r2 = Success b2
                     /\ body_sessionId b1 <> body_sessionId b2)
      /\ size (students (snd r2)) = 1%nat /\ size (attendances (snd r2)) = 2%nat).
Proof.
  cbv zeta. split; [split; [| split] | split; [| split]];
    try (vm_compute; reflexivity).
  - vm_compute. eexists. split; reflexivity.
  - vm_compute. eexists _, _. split; [reflexivity |]. split; [reflexivity | discriminate].
Qed.

(** ** Two uploads with different start times

    What the database guarantees of the Session table: [id] is the primary
    key, and a generated id is new. *)












